(** * Subscription reconciliation and quota evaluation

    A shallow embedding of [app/models/subscription.py],
    [app/services/subscription_service.py] and the webhook and status
    endpoints of [app/api/subscriptions.py], followed by the properties
    of the entitlement store, the webhook reconciler and the quota
    evaluator.

    Conventions of the embedding.
    - A Python [dict] with a fixed set of literal keys (a MongoDB document,
      the [data] patch of a handler, the [event] payload) is a record of
      options: [None] is "key absent".  A key whose value may be Python's
      [None] has type [option (option _)].
    - The collection has a unique index on [user_id]; it is a finite map
      from [user_id] to document.
    - A naive UTC [datetime] is the number of microseconds since the epoch.
      A timestamp in milliseconds becomes one through the float quotient
      [ms / 1000] and [datetime.utcfromtimestamp], which are followed
      step by step on binary64 numbers, as CPython 3.11 computes them on
      64-bit Linux; the collection keeps a [datetime] in whole
      milliseconds, as BSON does.
    - The fields of a webhook event have the types its accessors declare
      (strings, a list of strings, an integer); an event whose JSON holds
      a value of another type under one of these keys is outside the
      embedding.
    - Code that reads the clock, reads or writes the collection, or raises,
      lives in the monad [M]: state passing over [World], with the state
      kept when an exception is raised (MongoDB writes are not rolled back).
      The clock is the wall clock: between two readings it may move by any
      amount, backwards too. *)

From Stdlib Require Import ZArith List Bool Lia Strings.Byte Ascii DecimalString.
From stdpp Require Import gmap strings list fin_maps.

Local Open Scope string_scope.
Local Open Scope Z_scope.

(* ===================================================================== *)
(** * Python values *)
(* ===================================================================== *)

Module Py.

(** Truthiness of a [str]: the empty string is falsy. *)
Definition truthy_str (s : string) : bool := negb (String.eqb s "").

(** Truthiness of an [int]: zero is falsy. *)
Definition truthy_int (n : Z) : bool := negb (n =? 0).

(** Truthiness of an [Optional[str]]. *)
Definition truthy_opt_str (o : option string) : bool :=
  match o with Some s => truthy_str s | None => false end.

(** Truthiness of an [Optional[int]]. *)
Definition truthy_opt_int (o : option Z) : bool :=
  match o with Some n => truthy_int n | None => false end.

(** [a or b] on strings: the first operand when truthy, else the second. *)
Definition or_str (a b : string) : string := if truthy_str a then a else b.

(** [x in l] for a list of strings. *)
Definition in_list (x : string) (l : list string) : bool :=
  existsb (String.eqb x) l.

Inductive Exception : Type :=
| ValueError
| TypeError
| OSError
| OverflowError
| ValidationError
| HTTPException (status_code : Z) (detail : string).

Inductive Result (A : Type) : Type :=
| Ok (a : A)
| Raise (e : Exception).
Arguments Ok {A} a.
Arguments Raise {A} e.

End Py.
Export Py.

(* ===================================================================== *)
(** * datetime *)
(* ===================================================================== *)

Module Datetime.

(** Microseconds since 1970-01-01T00:00:00 (naive UTC). *)
Definition datetime : Type := Z.

Definition US_PER_MS : Z := 1000.
Definition US_PER_SECOND : Z := 1000000.
Definition US_PER_DAY : Z := 86400000000.

(** [datetime.min] and [datetime.max], as epoch milliseconds
    (0001-01-01T00:00:00 and 9999-12-31T23:59:59.999) and as epoch
    seconds. *)
Definition MIN_MS : Z := -62135596800000.
Definition MAX_MS : Z := 253402300799999.
Definition MIN_S : Z := -62135596800.
Definition MAX_S : Z := 253402300799.

(** ** binary64 *)

(** The integer nearest to [n / d] (for [d > 0]), a tie going to the even
    one. *)
Definition round_half_even (n d : Z) : Z :=
  let q := n / d in
  match 2 * (n mod d) ?= d with
  | Lt => q
  | Gt => q + 1
  | Eq => if Z.even q then q else q + 1
  end.

(** [floor (log2 (n / d))], for [n, d > 0]. *)
Definition ilog2 (n d : Z) : Z :=
  let k := Z.log2 n - Z.log2 d in
  if (if 0 <=? k then d * 2 ^ k <=? n else d <=? n * 2 ^ (- k))
  then k else k - 1.

(** A finite float: [mant * 2 ^ expo].  The exponent is not bounded here;
    no number below comes near the subnormal range, and overflow is
    checked where it can happen. *)
Record double : Type := { mant : Z; expo : Z }.

(** The float nearest to [n / d] for [n, d > 0], ties to even: [n / d] is
    scaled into [2^52, 2^53) and rounded to an integer. *)
Definition nearest_pos (n d : Z) : double :=
  let e := ilog2 n d - 52 in
  {| mant := if 0 <=? e then round_half_even n (d * 2 ^ e)
             else round_half_even (n * 2 ^ (- e)) d;
     expo := e |}.

(** The float nearest to [n / d], for [d > 0]. *)
Definition nearest (n d : Z) : double :=
  match n with
  | 0 => {| mant := 0; expo := 0 |}
  | Zpos _ => nearest_pos n d
  | Zneg _ =>
      let x := nearest_pos (- n) d in {| mant := - mant x; expo := expo x |}
  end.

(** [a / b] on two [int] (for [b > 0]): the correctly rounded quotient,
    or [OverflowError] when it is too large for a float. *)
Definition true_divide (a b : Z) : Result double :=
  let x := nearest a b in
  if (0 <=? expo x) && (2 ^ 1024 <=? Z.abs (mant x) * 2 ^ expo x)
  then Raise OverflowError
  else Ok x.

(** C's [modf]: the integral part, and the fractional part as a fraction
    (numerator, denominator); both have the sign of [x]. *)
Definition modf (x : double) : Z * (Z * Z) :=
  if 0 <=? expo x then (mant x * 2 ^ expo x, (0, 1))
  else (Z.quot (mant x) (2 ^ (- expo x)),
        (Z.rem (mant x) (2 ^ (- expo x)), 2 ^ (- expo x))).

(** A float rounded to an integer, ties to even. *)
Definition round_double (x : double) : Z :=
  if 0 <=? expo x then mant x * 2 ^ expo x
  else round_half_even (mant x) (2 ^ (- expo x)).

(** The interpreter's conversion of a float timestamp to seconds and
    microseconds: the fraction is multiplied by 1e6 (a float product,
    hence rounded), rounded to an integer, ties to even, and a carry is
    moved into the seconds. *)
Definition to_timeval (x : double) : Z * Z :=
  let '(intpart, (fn, fd)) := modf x in
  let floatpart := round_double (nearest (fn * US_PER_SECOND) fd) in
  if US_PER_SECOND <=? floatpart
  then (intpart + 1, floatpart - US_PER_SECOND)
  else if floatpart <? 0
  then (intpart - 1, floatpart + US_PER_SECOND)
  else (intpart, floatpart).

(** The range of [time_t], and the seconds for which C's [gmtime] has a
    year that fits its [int] field. *)
Definition TIME_T_MIN : Z := -9223372036854775808.
Definition TIME_T_MAX : Z := 9223372036854775807.
Definition GMTIME_MIN : Z := -67768040609740800.
Definition GMTIME_MAX : Z := 67768036191676799.

(** [datetime.utcfromtimestamp(x)] for a float [x]: [OverflowError] when
    the seconds are outside [time_t] (the bound is compared as a float,
    so 2^63 itself passes this check and fails the next), [OSError] when
    [gmtime] fails, [ValueError] when the year is outside 1..9999. *)
Definition utcfromtimestamp (x : double) : Result datetime :=
  let '(sec, us) := to_timeval x in
  if negb ((TIME_T_MIN <=? sec) && (sec <=? TIME_T_MAX + 1))
  then Raise OverflowError
  else if negb ((GMTIME_MIN <=? sec) && (sec <=? GMTIME_MAX))
  then Raise OSError
  else if negb ((MIN_S <=? sec) && (sec <=? MAX_S))
  then Raise ValueError
  else Ok (sec * US_PER_SECOND + us).

(** [datetime.utcfromtimestamp(ms / 1000)] for an [int] [ms]. *)
Definition utcfromtimestamp_ms (ms : Z) : Result datetime :=
  match true_divide ms 1000 with
  | Ok x => utcfromtimestamp x
  | Raise e => Raise e
  end.
#[global] Arguments utcfromtimestamp_ms : simpl never.

(** The timestamps, in milliseconds, strictly between which the
    conversion is exact: 2^33 seconds either side of the epoch
    (1697-10-17 and 2242-03-16). *)
Definition EXACT_MS : Z := 8589934592000.

(** What BSON keeps of a [datetime]: its whole milliseconds. *)
Definition bson_datetime (t : datetime) : datetime :=
  t / US_PER_MS * US_PER_MS.

(** [(a - b).days]: a [timedelta] is normalised with a floored day count. *)
Definition days_between (a b : datetime) : Z := (a - b) / US_PER_DAY.

End Datetime.
Export Datetime.

(* ===================================================================== *)
(** * app/models/subscription.py *)
(* ===================================================================== *)

Inductive SubscriptionStatus : Type := ACTIVE | EXPIRED | CANCELLED | TRIALING.

Definition value (s : SubscriptionStatus) : string :=
  match s with
  | ACTIVE => "active"
  | EXPIRED => "expired"
  | CANCELLED => "cancelled"
  | TRIALING => "trialing"
  end.

(** The member with a given value, as the enum's constructor finds it. *)
Definition parse_status (v : string) : option SubscriptionStatus :=
  if String.eqb v "active" then Some ACTIVE
  else if String.eqb v "expired" then Some EXPIRED
  else if String.eqb v "cancelled" then Some CANCELLED
  else if String.eqb v "trialing" then Some TRIALING
  else None.

#[global] Instance SubscriptionStatus_eq_dec : EqDecision SubscriptionStatus.
Proof. solve_decision. Defined.

(** [SubscriptionInDB]: the validated record. *)
Record SubscriptionInDB : Type := {
  user_id : string;
  revenuecat_customer_id : option string;
  status : SubscriptionStatus;
  entitlements : list string;
  current_product_id : option string;
  expires_at : option datetime;
  created_at : datetime;
  updated_at : datetime
}.

(** The [event] dict of a [WebhookEvent], by the keys the accessors read. *)
Record WebhookEvent : Type := {
  ev_type : option string;
  ev_app_user_id : option string;
  ev_original_app_user_id : option string;
  ev_product_id : option string;
  ev_entitlement_ids : option (list string);
  ev_expiration_at_ms : option Z;
  ev_period_type : option string
}.

Definition event_type (e : WebhookEvent) : string := default "" (ev_type e).

Definition app_user_id (e : WebhookEvent) : string :=
  default "" (ev_app_user_id e).

Definition original_app_user_id (e : WebhookEvent) : string :=
  default "" (ev_original_app_user_id e).

Definition product_id (e : WebhookEvent) : option string := ev_product_id e.

Definition entitlement_id (e : WebhookEvent) : option string :=
  match default [] (ev_entitlement_ids e) with
  | x :: _ => Some x
  | [] => None
  end.

Definition expiration_at_ms (e : WebhookEvent) : option Z :=
  ev_expiration_at_ms e.

Definition is_trial (e : WebhookEvent) : bool :=
  match ev_period_type e with
  | Some p => String.eqb p "TRIAL"
  | None => false
  end.

(* ===================================================================== *)
(** * app/core/config.py *)
(* ===================================================================== *)

Record Settings : Type := {
  API_KEY : option string;
  REVENUECAT_WEBHOOK_SECRET : option string;
  FREE_TIER_WEEKLY_MESSAGE_LIMIT : Z
}.

(** The defaults of the class. *)
Definition default_settings : Settings :=
  {| API_KEY := None;
     REVENUECAT_WEBHOOK_SECRET := None;
     FREE_TIER_WEEKLY_MESSAGE_LIMIT := 20 |}.

(* ===================================================================== *)
(** * The world: collection and clock *)
(* ===================================================================== *)

(** A document of the [subscriptions] collection, and equally the [data]
    dict of an update: every key is optional. *)
Record Doc : Type := {
  d_user_id : option string;
  d_revenuecat_customer_id : option string;
  d_status : option string;
  d_entitlements : option (list string);
  d_current_product_id : option (option string);
  d_expires_at : option (option datetime);
  d_created_at : option datetime;
  d_updated_at : option datetime
}.

Definition empty_doc : Doc :=
  {| d_user_id := None; d_revenuecat_customer_id := None; d_status := None;
     d_entitlements := None; d_current_product_id := None;
     d_expires_at := None; d_created_at := None; d_updated_at := None |}.

(** [data["user_id"] = u], [data["updated_at"] = t] and
    [data["created_at"] = t] on such a dict. *)
Definition set_user_id (u : string) (d : Doc) : Doc :=
  {| d_user_id := Some u;
     d_revenuecat_customer_id := d_revenuecat_customer_id d;
     d_status := d_status d; d_entitlements := d_entitlements d;
     d_current_product_id := d_current_product_id d;
     d_expires_at := d_expires_at d; d_created_at := d_created_at d;
     d_updated_at := d_updated_at d |}.

Definition set_updated_at (t : datetime) (d : Doc) : Doc :=
  {| d_user_id := d_user_id d;
     d_revenuecat_customer_id := d_revenuecat_customer_id d;
     d_status := d_status d; d_entitlements := d_entitlements d;
     d_current_product_id := d_current_product_id d;
     d_expires_at := d_expires_at d; d_created_at := d_created_at d;
     d_updated_at := Some t |}.

Definition set_created_at (t : datetime) (d : Doc) : Doc :=
  {| d_user_id := d_user_id d;
     d_revenuecat_customer_id := d_revenuecat_customer_id d;
     d_status := d_status d; d_entitlements := d_entitlements d;
     d_current_product_id := d_current_product_id d;
     d_expires_at := d_expires_at d; d_created_at := Some t;
     d_updated_at := d_updated_at d |}.

(** The clock shows [now]; after each reading it moves by the next entry
    of [elapse] (microseconds; a negative entry is a clock set back).
    With [elapse = []] the clock stands still. *)
Record World : Type := {
  collection : gmap string Doc;
  now : datetime;
  elapse : list Z
}.

Definition set_collection (c : gmap string Doc) (w : World) : World :=
  {| collection := c; now := now w; elapse := elapse w |}.

Definition tick (w : World) : World :=
  match elapse w with
  | [] => w
  | d :: ds => {| collection := collection w;
                  now := now w + d;
                  elapse := ds |}
  end.

(** State passing with exceptions; the state survives a raise. *)
Definition M (A : Type) : Type := World -> Result A * World.

Definition ret {A} (a : A) : M A := fun w => (Ok a, w).

Definition bind {A B} (m : M A) (k : A -> M B) : M B :=
  fun w =>
    match m w with
    | (Ok a, w') => k a w'
    | (Raise e, w') => (Raise e, w')
    end.

Definition raise {A} (e : Exception) : M A := fun w => (Raise e, w).

Definition lift {A} (r : Result A) : M A := fun w => (r, w).

Notation "'let!' x ':=' c 'in' k" := (bind c (fun x => k))
  (at level 10, x name, c at level 100, k at level 200).
Notation "'do!' c 'in' k" := (bind c (fun _ => k))
  (at level 10, c at level 100, k at level 200).

(** [datetime.utcnow()] *)
Definition utcnow : M datetime := fun w => (Ok (now w), tick w).

(** [collection.find_one({"user_id": user_id})] *)
Definition find_one (uid : string) : M (option Doc) :=
  fun w => (Ok (collection w !! uid), w).

(** ["$set"]: every key of [data] overwrites, the other keys stay. *)
Definition set_opt {A} (new old : option A) : option A :=
  match new with Some _ => new | None => old end.

Definition apply_set (data doc : Doc) : Doc :=
  {| d_user_id := set_opt (d_user_id data) (d_user_id doc);
     d_revenuecat_customer_id :=
       set_opt (d_revenuecat_customer_id data) (d_revenuecat_customer_id doc);
     d_status := set_opt (d_status data) (d_status doc);
     d_entitlements := set_opt (d_entitlements data) (d_entitlements doc);
     d_current_product_id :=
       set_opt (d_current_product_id data) (d_current_product_id doc);
     d_expires_at := set_opt (d_expires_at data) (d_expires_at doc);
     d_created_at := set_opt (d_created_at data) (d_created_at doc);
     d_updated_at := set_opt (d_updated_at data) (d_updated_at doc) |}.

(** The patch as it is encoded for the database: every [datetime] is cut
    to the millisecond. *)
Definition bson_encode (data : Doc) : Doc :=
  {| d_user_id := d_user_id data;
     d_revenuecat_customer_id := d_revenuecat_customer_id data;
     d_status := d_status data;
     d_entitlements := d_entitlements data;
     d_current_product_id := d_current_product_id data;
     d_expires_at := fmap (M:=option) bson_datetime <$> d_expires_at data;
     d_created_at := bson_datetime <$> d_created_at data;
     d_updated_at := bson_datetime <$> d_updated_at data |}.

(** [collection.update_one({"user_id": user_id}, {"$set": data}, upsert=True)]:
    the matching document is patched; without a match a document made of
    the filter's equality and the patch is inserted. *)
Definition update_one (uid : string) (data : Doc) : M unit :=
  fun w =>
    let base :=
      match collection w !! uid with
      | Some doc => doc
      | None => set_user_id uid empty_doc
      end in
    (Ok tt,
     set_collection (<[uid := apply_set (bson_encode data) base]> (collection w)) w).

(** The constructor call of [SubscriptionInDB] on the keys of [doc], as
    pydantic validates it, field by field: [user_id] is required; [status]
    must be the value of a member and defaults to [EXPIRED];
    [entitlements] defaults to the empty list and the optional fields to
    [None]; each of the two timestamps defaults to a reading of the clock.
    A validation that fails is taken not to have read the clock. *)
Definition validate (doc : Doc) : M SubscriptionInDB :=
  let! uid := match d_user_id doc with
              | Some u => ret u
              | None => raise ValidationError
              end in
  let! st := match d_status doc with
             | Some v =>
                 match parse_status v with
                 | Some st => ret st
                 | None => raise ValidationError
                 end
             | None => ret EXPIRED
             end in
  let! created := match d_created_at doc with
                  | Some t => ret t
                  | None => utcnow
                  end in
  let! updated := match d_updated_at doc with
                  | Some t => ret t
                  | None => utcnow
                  end in
  ret {| user_id := uid;
         revenuecat_customer_id := d_revenuecat_customer_id doc;
         status := st;
         entitlements := default [] (d_entitlements doc);
         current_product_id := default None (d_current_product_id doc);
         expires_at := default None (d_expires_at doc);
         created_at := created;
         updated_at := updated |}.

(* ===================================================================== *)
(** * app/services/subscription_service.py *)
(* ===================================================================== *)

Section Service.

(** The module-level [settings] object. *)
Variable settings : Settings.

Definition get_subscription_by_user_id (uid : string)
  : M (option SubscriptionInDB) :=
  let! doc := find_one uid in
  match doc with
  | Some d => let! sub := validate d in ret (Some sub)
  | None => ret None
  end.

Definition upsert_subscription (uid : string) (data : Doc)
  : M (option SubscriptionInDB) :=
  let data := set_user_id uid data in
  let! t := utcnow in
  let data := set_updated_at t data in
  let! existing := find_one uid in
  let! data :=
    match existing with
    | Some _ => ret data
    | None => let! t' := utcnow in ret (set_created_at t' data)
    end in
  do! update_one uid data in
  get_subscription_by_user_id uid.

(** The block every purchase-like handler starts with:
    [[event.entitlement_id]] when that is truthy, else [[]]. *)
Definition entitlements_of (event : WebhookEvent) : list string :=
  match entitlement_id event with
  | Some x => if truthy_str x then [x] else []
  | None => []
  end.

(** The block computing [expires_at]: [None] unless
    [event.expiration_at_ms] is truthy. *)
Definition expires_at_of (event : WebhookEvent) : Result (option datetime) :=
  match expiration_at_ms event with
  | Some ms =>
      if truthy_int ms then
        match utcfromtimestamp_ms ms with
        | Ok t => Ok (Some t)
        | Raise e => Raise e
        end
      else Ok None
  | None => Ok None
  end.

Definition _handle_initial_purchase (uid : string) (event : WebhookEvent)
  : M (option SubscriptionInDB) :=
  let st := if is_trial event then TRIALING else ACTIVE in
  let ents := entitlements_of event in
  let! exp := lift (expires_at_of event) in
  let data :=
    {| d_user_id := None;
       d_revenuecat_customer_id := Some (original_app_user_id event);
       d_status := Some (value st);
       d_entitlements := Some ents;
       d_current_product_id := Some (product_id event);
       d_expires_at := Some exp;
       d_created_at := None; d_updated_at := None |} in
  upsert_subscription uid data.

Definition _handle_renewal (uid : string) (event : WebhookEvent)
  : M (option SubscriptionInDB) :=
  let ents := entitlements_of event in
  let! exp := lift (expires_at_of event) in
  let data :=
    {| d_user_id := None; d_revenuecat_customer_id := None;
       d_status := Some (value ACTIVE);
       d_entitlements := Some ents;
       d_current_product_id := Some (product_id event);
       d_expires_at := Some exp;
       d_created_at := None; d_updated_at := None |} in
  upsert_subscription uid data.

Definition _handle_cancellation (uid : string) (event : WebhookEvent)
  : M (option SubscriptionInDB) :=
  let! exp := lift (expires_at_of event) in
  let! existing := get_subscription_by_user_id uid in
  let ents := match existing with
              | Some sub => entitlements sub
              | None => []
              end in
  let data :=
    {| d_user_id := None; d_revenuecat_customer_id := None;
       d_status := Some (value CANCELLED);
       d_entitlements := Some ents;
       d_current_product_id := None;
       d_expires_at := Some exp;
       d_created_at := None; d_updated_at := None |} in
  upsert_subscription uid data.

Definition _handle_uncancellation (uid : string) (event : WebhookEvent)
  : M (option SubscriptionInDB) :=
  let ents := entitlements_of event in
  let! exp := lift (expires_at_of event) in
  let data :=
    {| d_user_id := None; d_revenuecat_customer_id := None;
       d_status := Some (value ACTIVE);
       d_entitlements := Some ents;
       d_current_product_id := Some (product_id event);
       d_expires_at := Some exp;
       d_created_at := None; d_updated_at := None |} in
  upsert_subscription uid data.

Definition _handle_expiration (uid : string) (event : WebhookEvent)
  : M (option SubscriptionInDB) :=
  let! t := utcnow in
  let data :=
    {| d_user_id := None; d_revenuecat_customer_id := None;
       d_status := Some (value EXPIRED);
       d_entitlements := Some [];
       d_current_product_id := Some None;
       d_expires_at := Some (Some t);
       d_created_at := None; d_updated_at := None |} in
  upsert_subscription uid data.

Definition _handle_billing_issue (uid : string) (event : WebhookEvent)
  : M (option SubscriptionInDB) :=
  get_subscription_by_user_id uid.

Definition _handle_subscriber_alias (uid : string) (event : WebhookEvent)
  : M (option SubscriptionInDB) :=
  let data :=
    {| d_user_id := None;
       d_revenuecat_customer_id := Some (original_app_user_id event);
       d_status := None; d_entitlements := None;
       d_current_product_id := None; d_expires_at := None;
       d_created_at := None; d_updated_at := None |} in
  upsert_subscription uid data.

Definition _handle_product_change (uid : string) (event : WebhookEvent)
  : M (option SubscriptionInDB) :=
  let ents := entitlements_of event in
  let! exp := lift (expires_at_of event) in
  let data :=
    {| d_user_id := None; d_revenuecat_customer_id := None;
       d_status := Some (value ACTIVE);
       d_entitlements := Some ents;
       d_current_product_id := Some (product_id event);
       d_expires_at := Some exp;
       d_created_at := None; d_updated_at := None |} in
  upsert_subscription uid data.

Abbreviation Handler :=
  (string -> WebhookEvent -> M (option SubscriptionInDB)).

(** The [handlers] dict of [handle_webhook_event], in source order. *)
Definition handler_table : list (string * Handler) :=
  [ ("INITIAL_PURCHASE", _handle_initial_purchase);
    ("RENEWAL", _handle_renewal);
    ("CANCELLATION", _handle_cancellation);
    ("EXPIRATION", _handle_expiration);
    ("BILLING_ISSUE", _handle_billing_issue);
    ("SUBSCRIBER_ALIAS", _handle_subscriber_alias);
    ("UNCANCELLATION", _handle_uncancellation);
    ("NON_RENEWING_PURCHASE", _handle_initial_purchase);
    ("SUBSCRIPTION_PAUSED", _handle_cancellation);
    ("PRODUCT_CHANGE", _handle_product_change) ].

Definition handlers : gmap string Handler := list_to_map handler_table.

Definition handle_webhook_event (event : WebhookEvent)
  : M (option SubscriptionInDB) :=
  let event_type := event_type event in
  let uid := or_str (app_user_id event) (original_app_user_id event) in
  if negb (truthy_str uid) then ret None
  else
    match handlers !! event_type with
    | Some handler => handler uid event
    | None => ret None
    end.

Definition is_user_pro (uid : string) : M bool :=
  let! subscription := get_subscription_by_user_id uid in
  match subscription with
  | None => ret false
  | Some sub =>
      if bool_decide (status sub = EXPIRED) then ret false
      else if bool_decide (status sub = CANCELLED) then
        match expires_at sub with
        | Some t =>
            let! n := utcnow in
            if t >? n then ret (in_list "pro" (entitlements sub))
            else ret false
        | None => ret false
        end
      else ret (in_list "pro" (entitlements sub))
  end.

Definition check_message_limit
    (uid : string) (current_message_count : Z) (week_start_ms : option Z)
  : M (bool * option Z) :=
  let! pro := is_user_pro uid in
  if pro then ret (true, None)
  else
    let! count :=
      match week_start_ms with
      | Some ms =>
          if truthy_int ms then
            let! week_start := lift (utcfromtimestamp_ms ms) in
            let! n := utcnow in
            if days_between n week_start >=? 7 then ret 0
            else ret current_message_count
          else ret current_message_count
      | None => ret current_message_count
      end in
    let limit := FREE_TIER_WEEKLY_MESSAGE_LIMIT settings in
    let remaining := Z.max 0 (limit - count) in
    ret (count <? limit, Some remaining).

End Service.

Abbreviation Handler := (string -> WebhookEvent -> M (option SubscriptionInDB)).

(* ===================================================================== *)
(** * app/api/subscriptions.py *)
(* ===================================================================== *)

Record JSONResponse : Type := {
  status_code : Z;
  content : list (string * string)
}.

Record SubscriptionStatusResponse : Type := {
  r_user_id : string;
  r_is_pro : bool;
  r_status : SubscriptionStatus;
  r_entitlements : list string;
  r_current_product_id : option string;
  r_expires_at : option datetime;
  r_remaining_messages : option Z;
  r_weekly_message_limit : Z
}.

(** [try: body except Exception as e: handler(e)] *)
Definition try_except {A} (body : M A) (handler : Exception -> M A) : M A :=
  fun w =>
    match body w with
    | (Ok a, w') => (Ok a, w')
    | (Raise e, w') => handler e w'
    end.

(** A [str] is held as its bytes; it is ASCII when every byte is below 128. *)
Definition is_ascii (s : string) : bool :=
  forallb (fun c => (N_of_ascii c <? 128)%N) (String.list_ascii_of_string s).

(** [hmac.compare_digest] on two [str]: a [TypeError] unless both are
    ASCII, else their equality (in time independent of the contents). *)
Definition compare_digest (a b : string) : Result bool :=
  if is_ascii a && is_ascii b then Ok (String.eqb a b) else Raise TypeError.

Section Api.

Variable settings : Settings.

(** [hmac.new(key, msg, hashlib.sha256).hexdigest()], from the standard
    library. *)
Variable hmac_sha256_hexdigest : list byte -> list byte -> string.

(** [WebhookEvent] built from [request.json()]: the event of a body, or
    the exception that parsing or validation raises. *)
Variable event_of_body : list byte -> Result WebhookEvent.

(** [str(e)] *)
Variable str : Exception -> string.

Definition verify_webhook_signature (payload : list byte) (signature : string)
  : Result bool :=
  match REVENUECAT_WEBHOOK_SECRET settings with
  | Some secret =>
      if truthy_str secret then
        let expected_signature :=
          hmac_sha256_hexdigest (String.list_byte_of_string secret) payload in
        compare_digest expected_signature signature
      else Ok true
  | None => Ok true
  end.

Definition receive_revenuecat_webhook
    (body : list byte) (x_revenuecat_signature : option string)
  : M JSONResponse :=
  do! (if truthy_opt_str (REVENUECAT_WEBHOOK_SECRET settings)
          && truthy_opt_str x_revenuecat_signature
       then
         let signature := default "" x_revenuecat_signature in
         let! valid := lift (verify_webhook_signature body signature) in
         if negb valid
         then raise (HTTPException 401 "Invalid signature")
         else ret tt
       else ret tt) in
  try_except
    (let! event := lift (event_of_body body) in
     do! handle_webhook_event event in
     ret {| status_code := 200;
            content := [("status", "ok");
                        ("event_type", event_type event)] |})
    (fun e =>
       ret {| status_code := 200;
              content := [("status", "error"); ("message", str e)] |}).

Definition get_subscription_status
    (uid : string) (message_count : Z) (week_start_ms : option Z)
    (_api_key : string)
  : M SubscriptionStatusResponse :=
  let! subscription := get_subscription_by_user_id uid in
  let! is_pro := is_user_pro uid in
  let! remaining_messages :=
    if negb is_pro then
      let! r := check_message_limit settings uid message_count week_start_ms in
      ret (snd r)
    else ret None in
  match subscription with
  | Some sub =>
      ret {| r_user_id := uid;
             r_is_pro := is_pro;
             r_status := status sub;
             r_entitlements := entitlements sub;
             r_current_product_id := current_product_id sub;
             r_expires_at := expires_at sub;
             r_remaining_messages := remaining_messages;
             r_weekly_message_limit :=
               FREE_TIER_WEEKLY_MESSAGE_LIMIT settings |}
  | None =>
      ret {| r_user_id := uid;
             r_is_pro := false;
             r_status := EXPIRED;
             r_entitlements := [];
             r_current_product_id := None;
             r_expires_at := None;
             r_remaining_messages :=
               Some (FREE_TIER_WEEKLY_MESSAGE_LIMIT settings - message_count);
             r_weekly_message_limit :=
               FREE_TIER_WEEKLY_MESSAGE_LIMIT settings |}
  end.

End Api.

(* ===================================================================== *)
(** * The API-key check and the limit endpoints *)
(* ===================================================================== *)

(** An [int] inside an f-string: its decimal numeral. *)
Definition str_int (n : Z) : string := NilZero.string_of_int (Z.to_int n).

(** [require_api_key], the same function in [app/api/subscriptions.py]
    and [app/api/chat.py]. *)
Definition require_api_key (settings : Settings) (x_api_key : option string)
  : Result string :=
  if negb (truthy_opt_str (API_KEY settings)) then Ok "dev"
  else if negb (truthy_opt_str x_api_key)
          || negb (bool_decide (x_api_key = API_KEY settings))
  then Raise (HTTPException 401 "Invalid or missing API key")
  else Ok (default "" x_api_key).

Record MessageLimitResponse : Type := {
  m_allowed : bool;
  m_is_pro : bool;
  m_remaining_messages : option Z;
  m_weekly_message_limit : Z;
  m_message : option string
}.


(** The text both limit endpoints give when the quota is used up. *)
Definition limit_reached_message (settings : Settings) : string :=
  String.append "Weekly message limit of "
    (String.append (str_int (FREE_TIER_WEEKLY_MESSAGE_LIMIT settings))
       " reached. Upgrade to Pro for unlimited messages.").

Module SubscriptionsApi.

(** [check_message_limit] of [app/api/subscriptions.py]: the endpoint over
    the service method of the same name. *)
Definition check_message_limit
    (settings : Settings) (uid : string) (message_count : Z)
    (week_start_ms : option Z) (_api_key : string)
  : M MessageLimitResponse :=
  let! is_pro := is_user_pro uid in
  let! r := check_message_limit settings uid message_count week_start_ms in
  let can_send := fst r in
  let remaining := snd r in
  if can_send then
    ret {| m_allowed := true;
           m_is_pro := is_pro;
           m_remaining_messages := remaining;
           m_weekly_message_limit := FREE_TIER_WEEKLY_MESSAGE_LIMIT settings;
           m_message := None |}
  else
    ret {| m_allowed := false;
           m_is_pro := false;
           m_remaining_messages := Some 0;
           m_weekly_message_limit := FREE_TIER_WEEKLY_MESSAGE_LIMIT settings;
           m_message := Some (limit_reached_message settings) |}.

End SubscriptionsApi.

Module ChatApi.


End ChatApi.

(* ===================================================================== *)
(** * Vocabulary of the statements *)
(* ===================================================================== *)

(** ** Reading the store *)

(** The status a stored document reads as: its value parsed, [EXPIRED] when
    the key is absent, nothing when the value is no member's. *)
Definition doc_status (d : Doc) : option SubscriptionStatus :=
  match d_status d with
  | Some v => parse_status v
  | None => Some EXPIRED
  end.

(** The validated record of [uid], when there is one. *)
Definition record_of (uid : string) (w : World) : option SubscriptionInDB :=
  match fst (get_subscription_by_user_id uid w) with
  | Ok r => r
  | Raise _ => None
  end.

(** ** Events *)

(** The identity [handle_webhook_event] works under. *)
Definition identity_of (e : WebhookEvent) : string :=
  or_str (app_user_id e) (original_app_user_id e).

(** The event types [handle_webhook_event] has a handler for. *)
Definition recognized : list string := handler_table.*1.

(** The event types whose handler computes [expires_at] from the event. *)
Definition expiry_carrying : list string :=
  [ "INITIAL_PURCHASE"; "NON_RENEWING_PURCHASE"; "RENEWAL"; "UNCANCELLATION";
    "PRODUCT_CHANGE"; "CANCELLATION"; "SUBSCRIPTION_PAUSED" ].

(** ** The merge-upsert and the invariant *)

(** The world right after the write of [upsert_subscription uid data]:
    the clock was read once for [updated_at] and, for a new record, once
    more for [created_at]. *)
Definition upsert_world (uid : string) (data : Doc) (w : World) : World :=
  let data1 := set_updated_at (now w) (set_user_id uid data) in
  match collection w !! uid with
  | Some d =>
      set_collection (<[uid := apply_set (bson_encode data1) d]> (collection w))
        (tick w)
  | None =>
      let data2 := set_created_at (now (tick w)) data1 in
      set_collection
        (<[uid := apply_set (bson_encode data2) (set_user_id uid empty_doc)]>
           (collection w))
        (tick (tick w))
  end.

(** The invariant of the data model on a stored document: one that reads
    as expired holds no entitlements. *)
Definition expired_means_empty (d : Doc) : Prop :=
  doc_status d = Some EXPIRED -> default [] (d_entitlements d) = [].

(** The invariant on the whole collection. *)
Definition store_invariant (w : World) : Prop :=
  map_Forall (fun _ d => expired_means_empty d) (collection w).

(** A patch that cannot break the invariant: it writes neither [status]
    nor [entitlements], or both, with a status other than expired or with
    no entitlements. *)
Definition patch_keeps_invariant (data : Doc) : Prop :=
  match d_status data, d_entitlements data with
  | None, None => True
  | Some v, Some ents => parse_status v <> Some EXPIRED \/ ents = []
  | _, _ => False
  end.

(** The worlds the reconciler can bring about: it starts without records,
    handles one event after another, and in between the clock may come to
    show anything. *)
Inductive reachable : World -> Prop :=
| reachable_init (t : datetime) (ds : list Z) :
    reachable {| collection := ∅; now := t; elapse := ds |}
| reachable_event (w : World) (e : WebhookEvent) :
    reachable w -> reachable (snd (handle_webhook_event e w))
| reachable_wait (w : World) (t : datetime) (ds : list Z) :
    reachable w ->
    reachable {| collection := collection w; now := t; elapse := ds |}.

(** ** The clock *)

(** A clock that is never set back. *)
Definition clock_forward (w : World) : Prop :=
  Forall (fun d => 0 <= d) (elapse w).

(** ** The quota *)

(** A window start the quota evaluator can turn into a [datetime]: absent,
    zero, or within the range of [datetime]. *)
Definition window_start_ok (week_start_ms : option Z) : bool :=
  match week_start_ms with
  | Some ms => negb (truthy_int ms) || ((MIN_MS <=? ms) && (ms <=? MAX_MS))
  | None => true
  end.

(** The window start as a [datetime], when the timestamp has one. *)
Definition window_start (ms : Z) : option datetime :=
  match utcfromtimestamp_ms ms with
  | Ok t => Some t
  | Raise _ => None
  end.

(** Seven days or more lie between the window start and [t]. *)
Definition window_over (t : datetime) (ms : Z) : bool :=
  match window_start ms with
  | Some start => 7 * US_PER_DAY <=? t - start
  | None => false
  end.

(** The count the quota evaluator works with, at clock reading [t]: zero
    when the window start is present, not zero, and seven days or more
    before [t]; the client's count otherwise. *)
Definition effective_count (t : datetime) (week_start_ms : option Z) (count : Z) : Z :=
  match week_start_ms with
  | Some ms => if truthy_int ms && window_over t ms then 0 else count
  | None => count
  end.

(** The effective count in the words of the specification: zero when the
    window start is present and seven days or more before [t]. *)
Definition effective_count_spec (t : datetime) (week_start_ms : option Z) (count : Z) : Z :=
  match week_start_ms with
  | Some ms => if window_over t ms then 0 else count
  | None => count
  end.

(** ** Sample events *)

(** The purchase of the test suite (it expires 2025-01-01) and events that
    may follow it. *)
Definition ev_purchase : WebhookEvent :=
  {| ev_type := Some "INITIAL_PURCHASE";
     ev_app_user_id := Some "user_123";
     ev_original_app_user_id := Some "user_123";
     ev_product_id := Some "dumplin-pro-monthly";
     ev_entitlement_ids := Some ["pro"];
     ev_expiration_at_ms := Some 1735689600000;
     ev_period_type := Some "NORMAL" |}.

Definition ev_expiration : WebhookEvent :=
  {| ev_type := Some "EXPIRATION";
     ev_app_user_id := Some "user_123";
     ev_original_app_user_id := Some "user_123";
     ev_product_id := None;
     ev_entitlement_ids := None;
     ev_expiration_at_ms := None;
     ev_period_type := None |}.

Definition ev_cancellation : WebhookEvent :=
  {| ev_type := Some "CANCELLATION";
     ev_app_user_id := Some "user_123";
     ev_original_app_user_id := Some "user_123";
     ev_product_id := None; ev_entitlement_ids := None;
     ev_expiration_at_ms := Some 1735689600000;
     ev_period_type := None |}.

(** A renewal that carries no [expiration_at_ms]. *)
Definition ev_renewal_no_expiry : WebhookEvent :=
  {| ev_type := Some "RENEWAL";
     ev_app_user_id := Some "user_123";
     ev_original_app_user_id := Some "user_123";
     ev_product_id := Some "dumplin-pro-monthly";
     ev_entitlement_ids := Some ["pro"];
     ev_expiration_at_ms := None;
     ev_period_type := None |}.

(** An event of a type without a handler, one without any identity, and a
    cancellation that carries only the alias identity. *)
Definition ev_transfer : WebhookEvent :=
  {| ev_type := Some "TRANSFER";
     ev_app_user_id := Some "user_123";
     ev_original_app_user_id := Some "user_123";
     ev_product_id := None; ev_entitlement_ids := None;
     ev_expiration_at_ms := None; ev_period_type := None |}.

Definition ev_anonymous : WebhookEvent :=
  {| ev_type := Some "EXPIRATION";
     ev_app_user_id := None;
     ev_original_app_user_id := None;
     ev_product_id := None; ev_entitlement_ids := None;
     ev_expiration_at_ms := None; ev_period_type := None |}.

Definition ev_cancel_alias : WebhookEvent :=
  {| ev_type := Some "CANCELLATION";
     ev_app_user_id := None;
     ev_original_app_user_id := Some "user_123";
     ev_product_id := None; ev_entitlement_ids := None;
     ev_expiration_at_ms := Some 1735689600000; ev_period_type := None |}.

(** ** Sample worlds *)

(** An empty collection on 2024-11-30 whose clock advances by one second
    per reading, and the worlds after the purchase and after the
    expiration that follows it. *)
Definition w_start : World :=
  {| collection := ∅;
     now := 1733000000000000;
     elapse := [1000000; 1000000; 1000000; 1000000; 1000000; 1000000] |}.

Definition w_purchased : World := snd (handle_webhook_event ev_purchase w_start).

Definition w_expired : World :=
  snd (handle_webhook_event ev_expiration w_purchased).

(** The world after the purchase, at a clock reading that is not a whole
    millisecond. *)
Definition w_purchased_odd : World :=
  {| collection := collection w_purchased;
     now := 1733000100000123;
     elapse := [] |}.

(** The world after the purchase has been cancelled, and the same store
    at the moment the subscription runs out. *)
Definition w_cancelled : World :=
  snd (handle_webhook_event ev_cancellation w_purchased).

Definition w_cancelled_late : World :=
  {| collection := collection w_cancelled;
     now := 1735689600000000;
     elapse := [] |}.

(** An empty collection whose clock reads a time that is not a whole
    millisecond, and moves by a little over a second per reading. *)
Definition w_start_odd : World :=
  {| collection := ∅;
     now := 1733000000000123;
     elapse := [1000456; 1000456; 1000456] |}.

(** An empty collection whose clock stands still. *)
Definition w_still : World :=
  {| collection := ∅; now := 1733000000000000; elapse := [] |}.

(** A world without records whose clock stands still at eight days past
    the epoch. *)
Definition w_day8 : World :=
  {| collection := ∅; now := 8 * US_PER_DAY; elapse := [] |}.

(** A cancelled subscription that runs until day six, seen on day one and
    seen on day seven. *)
Definition doc_cancelled : Doc :=
  {| d_user_id := Some "user_123";
     d_revenuecat_customer_id := None;
     d_status := Some "cancelled";
     d_entitlements := Some ["pro"];
     d_current_product_id := None;
     d_expires_at := Some (Some (6 * US_PER_DAY));
     d_created_at := Some 0;
     d_updated_at := Some 0 |}.

Definition w_grace : World :=
  {| collection := {[ "user_123" := doc_cancelled ]};
     now := 1 * US_PER_DAY;
     elapse := [] |}.

Definition w_lapsed : World :=
  {| collection := {[ "user_123" := doc_cancelled ]};
     now := 7 * US_PER_DAY;
     elapse := [] |}.

(** The cancelled subscription seen on day seven by a clock that is set
    back two days after its first reading. *)
Definition w_set_back : World :=
  {| collection := {[ "user_123" := doc_cancelled ]};
     now := 7 * US_PER_DAY;
     elapse := [-2 * US_PER_DAY] |}.

(** Settings with a webhook secret configured. *)
Definition settings_with_secret : Settings :=
  {| API_KEY := None;
     REVENUECAT_WEBHOOK_SECRET := Some "whsec_test";
     FREE_TIER_WEEKLY_MESSAGE_LIMIT := 20 |}.


(** ** The store as the reconciler leaves it *)

(** What every handler's patch has in common: no [user_id] and no
    timestamp of its own, and a status, if any, that is a member's value. *)
Definition handler_patch (data : Doc) : Prop :=
  d_user_id data = None
  /\ d_created_at data = None
  /\ d_updated_at data = None
  /\ match d_status data with
     | Some v => is_Some (parse_status v)
     | None => True
     end.


(** The answer of [is_user_pro] for a record with the given status,
    entitlements and expiry, when the clock reads [n] at the comparison. *)
Definition pro_of (st : SubscriptionStatus) (ents : list string)
    (exp : option datetime) (n : datetime) : bool :=
  match st with
  | EXPIRED => false
  | CANCELLED =>
      match exp with
      | Some t => (t >? n) && in_list "pro" ents
      | None => false
      end
  | ACTIVE | TRIALING => in_list "pro" ents
  end.

(** The event types that (re)activate, and the two of them whose handler
    looks at the trial flag. *)
Definition activating : list string :=
  [ "INITIAL_PURCHASE"; "NON_RENEWING_PURCHASE"; "RENEWAL"; "UNCANCELLATION";
    "PRODUCT_CHANGE" ].

Definition purchase_like (t : string) : bool :=
  String.eqb t "INITIAL_PURCHASE" || String.eqb t "NON_RENEWING_PURCHASE".

Definition activation_status (e : WebhookEvent) : SubscriptionStatus :=
  if purchase_like (event_type e) && is_trial e then TRIALING else ACTIVE.

(** The event types handled by [_handle_cancellation]. *)
Definition cancelling : list string := [ "CANCELLATION"; "SUBSCRIPTION_PAUSED" ].

(** ** More sample events and inputs *)

(** A renewal marked as a trial period that lists two entitlements. *)
Definition ev_renewal_trial_two : WebhookEvent :=
  {| ev_type := Some "RENEWAL";
     ev_app_user_id := Some "user_123";
     ev_original_app_user_id := Some "user_123";
     ev_product_id := Some "dumplin-pro-yearly";
     ev_entitlement_ids := Some ["pro"; "extras"];
     ev_expiration_at_ms := Some 1767225600000;
     ev_period_type := Some "TRIAL" |}.

(** A cancellation that carries no expiry. *)
Definition ev_cancellation_no_expiry : WebhookEvent :=
  {| ev_type := Some "CANCELLATION";
     ev_app_user_id := Some "user_123";
     ev_original_app_user_id := Some "user_123";
     ev_product_id := None; ev_entitlement_ids := None;
     ev_expiration_at_ms := None;
     ev_period_type := None |}.

(** A purchase whose expiry lies beyond the year 9999. *)
Definition ev_purchase_far : WebhookEvent :=
  {| ev_type := Some "INITIAL_PURCHASE";
     ev_app_user_id := Some "user_123";
     ev_original_app_user_id := Some "user_123";
     ev_product_id := Some "dumplin-pro-monthly";
     ev_entitlement_ids := Some ["pro"];
     ev_expiration_at_ms := Some 1000000000000000000;
     ev_period_type := Some "NORMAL" |}.

(** A cancellation whose expiry lies beyond what C's [gmtime] handles. *)
Definition ev_cancellation_far : WebhookEvent :=
  {| ev_type := Some "CANCELLATION";
     ev_app_user_id := Some "user_123";
     ev_original_app_user_id := Some "user_123";
     ev_product_id := None; ev_entitlement_ids := None;
     ev_expiration_at_ms := Some 100000000000000000000;
     ev_period_type := None |}.

(** An alias event for the purchaser under another customer id. *)
Definition ev_alias : WebhookEvent :=
  {| ev_type := Some "SUBSCRIBER_ALIAS";
     ev_app_user_id := Some "user_123";
     ev_original_app_user_id := Some "rc_anonymous_42";
     ev_product_id := None; ev_entitlement_ids := None;
     ev_expiration_at_ms := None; ev_period_type := None |}.

(** Settings with an API key configured. *)
Definition settings_with_key : Settings :=
  {| API_KEY := Some "k3y";
     REVENUECAT_WEBHOOK_SECRET := None;
     FREE_TIER_WEEKLY_MESSAGE_LIMIT := 20 |}.

(** A stand-in for the HMAC, for running the signature check: the digest
    of every body is the same hex numeral. *)
Definition hmac_stub (key msg : list byte) : string := "00ff".

(** A header value with a byte above 127. *)
Definition latin1_signature : string :=
  String (ascii_of_nat 233) "00ff".

(** ** The webhook answer *)

(** What the webhook endpoint answers once a request is past the
    signature check: always 200; "ok" with the event type when the body
    decodes and the handler returns, "error" with the text of the
    exception when decoding fails (nothing is touched) or the handler
    raises. *)
Definition processed
    (event_of_body : list byte -> Result WebhookEvent)
    (str : Exception -> string)
    (body : list byte) (w : World) (resp : JSONResponse) (w' : World) : Prop :=
  status_code resp = 200
  /\ match event_of_body body with
     | Ok ev =>
         match handle_webhook_event ev w with
         | (Ok _, w1) =>
             w' = w1
             /\ content resp = [("status", "ok"); ("event_type", event_type ev)]
         | (Raise err, w1) =>
             w' = w1
             /\ content resp = [("status", "error"); ("message", str err)]
         end
     | Raise err =>
         w' = w /\ content resp = [("status", "error"); ("message", str err)]
     end.

(* ===================================================================== *)
(** * Basic facts: the monad, the clock, validation *)
(* ===================================================================== *)

Lemma bind_ok {A B} (m : M A) (k : A -> M B) w a w' :
  m w = (Ok a, w') -> bind m k w = k a w'.
Proof. intros H. unfold bind. now rewrite H. Qed.

Lemma bind_raise {A B} (m : M A) (k : A -> M B) w e w' :
  m w = (Raise e, w') -> bind m k w = (Raise e, w').
Proof. intros H. unfold bind. now rewrite H. Qed.

Lemma bind_ret {A B} (a : A) (k : A -> M B) w : bind (ret a) k w = k a w.
Proof. reflexivity. Qed.

Lemma collection_tick (w : World) : collection (tick w) = collection w.
Proof. unfold tick. now destruct (elapse w). Qed.

Lemma tick_frozen (w : World) : elapse w = [] -> tick w = w.
Proof. unfold tick. now intros ->. Qed.

Lemma lift_bind {A B} (r : Result A) (k : A -> M B) (w : World) :
  bind (lift r) k w =
    match r with
    | Ok a => k a w
    | Raise e => (Raise e, w)
    end.
Proof. unfold bind, lift. now destruct r. Qed.

Lemma in_list_spec (x : string) (l : list string) :
  in_list x l = true <-> x ∈ l.
Proof.
  unfold in_list. rewrite existsb_exists, list_elem_of_In. split.
  - intros (y & Hy & E). apply String.eqb_eq in E. now subst.
  - intros H. exists x. split; [assumption | apply String.eqb_refl].
Qed.

Lemma truthy_str_false (s : string) : truthy_str s = false <-> s = "".
Proof.
  unfold truthy_str. rewrite negb_false_iff. apply String.eqb_eq.
Qed.

Lemma parse_status_value (s : SubscriptionStatus) : parse_status (value s) = Some s.
Proof. now destruct s. Qed.

(** What validation does, whatever the clock shows. *)
Lemma validate_inv (d : Doc) (w w' : World) (r : SubscriptionInDB) :
  validate d w = (Ok r, w') ->
  d_user_id d = Some (user_id r)
  /\ doc_status d = Some (status r)
  /\ entitlements r = default [] (d_entitlements d)
  /\ current_product_id r = default None (d_current_product_id d)
  /\ expires_at r = default None (d_expires_at d)
  /\ revenuecat_customer_id r = d_revenuecat_customer_id d
  /\ collection w' = collection w.
Proof.
  unfold validate, doc_status, bind, ret, raise, utcnow.
  destruct (d_status d) as [v|]; [destruct (parse_status v) as [st|]|];
    destruct (d_user_id d); destruct (d_created_at d); destruct (d_updated_at d);
    simpl; intros H; inversion H; subst; simpl;
    repeat split; try reflexivity;
    unfold tick; repeat (destruct (elapse _); simpl); reflexivity.
Qed.

(** Validation succeeds on a document with a [user_id] and a proper status. *)
Lemma validate_total (d : Doc) (w : World) (u : string) (st : SubscriptionStatus) :
  d_user_id d = Some u -> doc_status d = Some st ->
  exists r w', validate d w = (Ok r, w').
Proof.
  unfold validate, doc_status, bind, ret, raise, utcnow. intros Hu Hs. rewrite Hu.
  destruct (d_status d) as [v|]; [rewrite Hs|];
    destruct (d_created_at d); destruct (d_updated_at d); simpl; eauto.
Qed.

Lemma get_subscription_inv (uid : string) (w w' : World) (r : SubscriptionInDB) :
  get_subscription_by_user_id uid w = (Ok (Some r), w') ->
  exists d, collection w !! uid = Some d /\ validate d w = (Ok r, w').
Proof.
  unfold get_subscription_by_user_id, find_one, bind at 1.
  destruct (collection w !! uid) as [d|]; [|discriminate].
  unfold bind, ret. destruct (validate d w) as [[r0|e] w0] eqn:E; [|discriminate].
  intros H. inversion H; subst. eauto.
Qed.

Lemma get_subscription_none (uid : string) (w : World) :
  collection w !! uid = None ->
  get_subscription_by_user_id uid w = (Ok None, w).
Proof.
  intros H. unfold get_subscription_by_user_id, find_one, bind. now rewrite H.
Qed.

Lemma get_subscription_some (uid : string) (d : Doc) (w : World) :
  collection w !! uid = Some d ->
  get_subscription_by_user_id uid w =
    (let! sub := validate d in ret (Some sub)) w.
Proof.
  intros H. unfold get_subscription_by_user_id, find_one, bind at 1. now rewrite H.
Qed.

(* ===================================================================== *)
(** * The conversion of a timestamp *)
(* ===================================================================== *)

(** The conversion on the timestamps of the examples, and where it is
    not exact or raises. *)
Example utcfromtimestamp_ms_samples :
  utcfromtimestamp_ms 1735689600000 = Ok 1735689600000000
  /\ utcfromtimestamp_ms (-1) = Ok (-1000)
  /\ utcfromtimestamp_ms 32503680000001 = Ok 32503680000000999
  /\ utcfromtimestamp_ms MAX_MS = Ok 253402300799998993
  /\ utcfromtimestamp_ms (MAX_MS + 1) = Raise ValueError
  /\ utcfromtimestamp_ms (MIN_MS - 1) = Raise ValueError
  /\ utcfromtimestamp_ms (10 ^ 20) = Raise OSError
  /\ utcfromtimestamp_ms (10 ^ 30) = Raise OverflowError
  /\ utcfromtimestamp_ms (10 ^ 400) = Raise OverflowError.
Proof. repeat split; vm_compute; reflexivity. Qed.

Lemma round_half_even_le (n d c : Z) :
  0 < d -> n <= c * d -> round_half_even n d <= c.
Proof.
  intros Hd H. unfold round_half_even.
  pose proof (Z.div_mod n d ltac:(lia)) as E.
  pose proof (Z.mod_pos_bound n d Hd) as B.
  destruct (Z.compare_spec (2 * (n mod d)) d); [destruct (Z.even (n / d))|..]; nia.
Qed.

Lemma round_half_even_ge (n d c : Z) :
  0 < d -> c * d <= n -> c <= round_half_even n d.
Proof.
  intros Hd H. unfold round_half_even.
  pose proof (Z.div_mod n d ltac:(lia)) as E.
  pose proof (Z.mod_pos_bound n d Hd) as B.
  destruct (Z.compare_spec (2 * (n mod d)) d); [destruct (Z.even (n / d))|..]; nia.
Qed.

Lemma round_half_even_error (n d : Z) :
  0 < d -> - d <= 2 * (round_half_even n d * d - n) <= d.
Proof.
  intros Hd. unfold round_half_even.
  pose proof (Z.div_mod n d ltac:(lia)) as E.
  pose proof (Z.mod_pos_bound n d Hd) as B.
  destruct (Z.compare_spec (2 * (n mod d)) d); [destruct (Z.even (n / d))|..]; nia.
Qed.

Lemma pow2_pos (k : Z) : 0 <= k -> 0 < 2 ^ k.
Proof. intros. apply Z.pow_pos_nonneg; lia. Qed.

(** The exponent [ilog2] finds is not too large. *)
Lemma ilog2_lower (n d : Z) :
  0 < n -> 0 < d ->
  (0 <= ilog2 n d -> d * 2 ^ ilog2 n d <= n)
  /\ (ilog2 n d < 0 -> d <= n * 2 ^ (- ilog2 n d)).
Proof.
  intros Hn Hd. unfold ilog2.
  pose proof (Z.log2_spec n Hn) as [Ln1 Ln2].
  pose proof (Z.log2_spec d Hd) as [Ld1 Ld2].
  pose proof (Z.log2_nonneg n) as Nn. pose proof (Z.log2_nonneg d) as Nd.
  set (ln := Z.log2 n) in *. set (ld := Z.log2 d) in *.
  rewrite Z.pow_succ_r in Ln2, Ld2 by assumption.
  destruct (0 <=? ln - ld) eqn:K.
  - apply Z.leb_le in K.
    destruct (d * 2 ^ (ln - ld) <=? n) eqn:T.
    + apply Z.leb_le in T. split; [intros _; exact T | lia].
    + apply Z.leb_gt in T. split.
      * intros H0.
        assert (Hs : ln - ld = Z.succ (ln - ld - 1)) by lia.
        assert (Ep : 2 ^ ln = 2 ^ ld * 2 ^ (ln - ld - 1) * 2).
        { replace ln with (ld + Z.succ (ln - ld - 1)) at 1 by lia.
          rewrite Z.pow_add_r, Z.pow_succ_r by lia. ring. }
        pose proof (pow2_pos (ln - ld - 1) H0). nia.
      * intros H0. assert (ln - ld = 0) by lia.
        replace (- (ln - ld - 1)) with 1 by lia.
        replace ln with ld in * by lia. change (2 ^ 1) with 2. lia.
  - apply Z.leb_gt in K.
    assert (Ep : 2 ^ ld = 2 ^ ln * 2 ^ (- (ln - ld))).
    { replace ld with (ln + (- (ln - ld))) at 1 by lia.
      rewrite Z.pow_add_r by lia. ring. }
    pose proof (pow2_pos (- (ln - ld)) ltac:(lia)).
    destruct (d <=? n * 2 ^ (- (ln - ld))) eqn:T.
    + apply Z.leb_le in T. split; [lia | intros _; exact T].
    + apply Z.leb_gt in T. split; [lia|]. intros _.
      replace (- (ln - ld - 1)) with (Z.succ (- (ln - ld))) by lia.
      rewrite Z.pow_succ_r by lia. nia.
Qed.

(** A quotient below [2 ^ k] has an exponent below [k]. *)
Lemma ilog2_lt (n d k : Z) :
  0 < n -> 0 < d -> 0 <= k -> n < d * 2 ^ k -> ilog2 n d < k.
Proof.
  intros Hn Hd Hk H.
  destruct (ilog2_lower n d Hn Hd) as [L _].
  destruct (Z.lt_ge_cases (ilog2 n d) k) as [|G]; [assumption|].
  specialize (L ltac:(lia)).
  pose proof (Z.pow_le_mono_r 2 k (ilog2 n d) ltac:(lia) G). nia.
Qed.

(** The mantissa of [nearest_pos]: the scaled quotient rounded, and at
    least [2 ^ 52]. *)
Lemma nearest_pos_spec (n d : Z) :
  0 < n -> 0 < d ->
  let x := nearest_pos n d in
  expo x = ilog2 n d - 52
  /\ (0 <= expo x ->
      mant x = round_half_even n (d * 2 ^ expo x)
      /\ 4503599627370496 <= mant x)
  /\ (expo x < 0 ->
      mant x = round_half_even (n * 2 ^ (- expo x)) d
      /\ 4503599627370496 <= mant x).
Proof.
  intros Hn Hd x. subst x. unfold nearest_pos. simpl.
  destruct (ilog2_lower n d Hn Hd) as [L1 L2].
  set (E := ilog2 n d) in *.
  split; [reflexivity|]. split.
  - intros He. rewrite (proj2 (Z.leb_le 0 (E - 52)) He). split; [reflexivity|].
    apply round_half_even_ge.
    + pose proof (pow2_pos (E - 52) He). nia.
    + specialize (L1 ltac:(lia)).
      replace E with (52 + (E - 52)) in L1 at 1 by lia.
      rewrite Z.pow_add_r in L1 by lia. change (2 ^ 52) with 4503599627370496 in L1. lia.
  - intros He. rewrite (proj2 (Z.leb_gt 0 (E - 52)) He).
    assert (M : 4503599627370496 <= round_half_even (n * 2 ^ (- (E - 52))) d).
    { apply round_half_even_ge; [assumption|].
      destruct (Z.lt_ge_cases E 0) as [Hneg|Hpos].
      - specialize (L2 Hneg).
        replace (- (E - 52)) with (52 + - E) by lia.
        rewrite Z.pow_add_r by lia. change (2 ^ 52) with 4503599627370496. nia.
      - specialize (L1 Hpos).
        assert (Ep : 2 ^ 52 = 2 ^ E * 2 ^ (- (E - 52))).
        { rewrite <- Z.pow_add_r by lia. f_equal. lia. }
        change (2 ^ 52) with 4503599627370496 in Ep.
        pose proof (pow2_pos (- (E - 52)) ltac:(lia)). nia. }
    split; [reflexivity | exact M].
Qed.

(** The exponent [ilog2] finds is not too small either. *)
Lemma ilog2_upper (n d : Z) :
  0 < n -> 0 < d ->
  (0 <= ilog2 n d + 1 -> n < d * 2 ^ (ilog2 n d + 1))
  /\ (ilog2 n d + 1 < 0 -> n * 2 ^ (- (ilog2 n d + 1)) < d).
Proof.
  intros Hn Hd. unfold ilog2.
  pose proof (Z.log2_spec n Hn) as [Ln1 Ln2].
  pose proof (Z.log2_spec d Hd) as [Ld1 Ld2].
  pose proof (Z.log2_nonneg n) as Nn. pose proof (Z.log2_nonneg d) as Nd.
  set (ln := Z.log2 n) in *. set (ld := Z.log2 d) in *.
  destruct (0 <=? ln - ld) eqn:K.
  - apply Z.leb_le in K.
    destruct (d * 2 ^ (ln - ld) <=? n) eqn:T.
    + apply Z.leb_le in T. split; [intros _ | lia].
      assert (Ep : 2 ^ Z.succ ln = 2 ^ ld * 2 ^ (ln - ld + 1)).
      { rewrite <- Z.pow_add_r by lia. f_equal. lia. }
      pose proof (pow2_pos (ln - ld + 1) ltac:(lia)). nia.
    + apply Z.leb_gt in T. split; [intros _ | lia].
      replace (ln - ld - 1 + 1) with (ln - ld) by lia. exact T.
  - apply Z.leb_gt in K.
    destruct (d <=? n * 2 ^ (- (ln - ld))) eqn:T.
    + apply Z.leb_le in T. split.
      * intros H0. assert (ln - ld + 1 = 0) by lia.
        replace (ln - ld + 1) with 0 by lia. replace (Z.succ ln) with ld in Ln2 by lia.
        change (2 ^ 0) with 1. lia.
      * intros H0.
        assert (Ep : 2 ^ ld = 2 ^ Z.succ ln * 2 ^ (- (ln - ld + 1))).
        { rewrite <- Z.pow_add_r by lia. f_equal. lia. }
        pose proof (pow2_pos (- (ln - ld + 1)) ltac:(lia)). nia.
    + apply Z.leb_gt in T. split; [lia | intros _].
      replace (- (ln - ld - 1 + 1)) with (- (ln - ld)) by lia. exact T.
Qed.

(** The mantissa of [nearest_pos] has 53 bits: it lies between [2 ^ 52]
    and [2 ^ 53] (the latter when the quotient rounds up to the next
    power of two). *)
Lemma nearest_pos_mant (n d : Z) :
  0 < n -> 0 < d ->
  4503599627370496 <= mant (nearest_pos n d) <= 9007199254740992.
Proof.
  intros Hn Hd.
  destruct (nearest_pos_spec n d Hn Hd) as (He & Hpos & Hneg).
  destruct (ilog2_upper n d Hn Hd) as [U1 U2].
  set (x := nearest_pos n d) in *. set (E := ilog2 n d) in *.
  destruct (Z.lt_ge_cases (expo x) 0) as [Hx|Hx].
  - destruct (Hneg Hx) as [Hm Hlow]. split; [exact Hlow|].
    rewrite Hm. apply round_half_even_le; [assumption|].
    replace (- expo x) with (52 - E) by lia.
    destruct (Z.lt_ge_cases (E + 1) 0) as [Hneg1|Hpos1].
    + specialize (U2 Hneg1).
      assert (Ep : 2 ^ (52 - E) = 2 ^ 53 * 2 ^ (- (E + 1))).
      { rewrite <- Z.pow_add_r by lia. f_equal. lia. }
      change (2 ^ 53) with 9007199254740992 in Ep.
      pose proof (pow2_pos (- (E + 1)) ltac:(lia)). nia.
    + specialize (U1 Hpos1).
      assert (Ep : 2 ^ 53 = 2 ^ (E + 1) * 2 ^ (52 - E)).
      { rewrite <- Z.pow_add_r by lia. f_equal. lia. }
      change (2 ^ 53) with 9007199254740992 in Ep.
      pose proof (pow2_pos (52 - E) ltac:(lia)). nia.
  - destruct (Hpos Hx) as [Hm Hlow]. split; [exact Hlow|].
    rewrite Hm. apply round_half_even_le.
    + pose proof (pow2_pos (expo x) Hx). nia.
    + specialize (U1 ltac:(lia)).
      assert (Ep : 2 ^ (E + 1) = 2 ^ 53 * 2 ^ expo x).
      { rewrite <- Z.pow_add_r by lia. f_equal. lia. }
      change (2 ^ 53) with 9007199254740992 in Ep. nia.
Qed.

Lemma nearest_pos_eq (n d : Z) : 0 < n -> nearest n d = nearest_pos n d.
Proof. destruct n; [lia | reflexivity | lia]. Qed.

Lemma nearest_neg_eq (n d : Z) :
  n < 0 ->
  nearest n d = {| mant := - mant (nearest_pos (- n) d);
                   expo := expo (nearest_pos (- n) d) |}.
Proof. destruct n; [lia | lia | reflexivity]. Qed.

(** A quotient rounded to a float and then to an integer stays within
    integer bounds of the quotient. *)
Lemma round_nearest_bounds (n d c1 c2 : Z) :
  0 <= n -> 0 < d -> 0 <= c1 -> c2 < 4503599627370496 ->
  c1 * d <= n <= c2 * d ->
  c1 <= round_double (nearest n d) <= c2.
Proof.
  intros Hn Hd Hc1 Hc2 [H1 H2].
  destruct (Z.eq_dec n 0) as [->|Hnz].
  - simpl. unfold round_double. simpl. nia.
  - assert (Hp : 0 < n) by lia. rewrite (nearest_pos_eq n d Hp).
    destruct (nearest_pos_spec n d Hp Hd) as (He & _ & Hneg).
    assert (E51 : ilog2 n d < 52).
    { apply ilog2_lt; try lia. change (2 ^ 52) with 4503599627370496. nia. }
    specialize (Hneg ltac:(lia)) as [Hm _].
    unfold round_double. rewrite (proj2 (Z.leb_gt 0 _)) by lia. rewrite Hm.
    set (P := 2 ^ (- expo (nearest_pos n d))).
    assert (HP : 0 < P) by (apply pow2_pos; lia).
    split.
    + apply round_half_even_ge; [assumption|].
      apply round_half_even_ge; [assumption|]. nia.
    + apply round_half_even_le; [assumption|].
      apply round_half_even_le; [assumption|]. nia.
Qed.

Lemma round_nearest_bounds_neg (n d c1 c2 : Z) :
  n <= 0 -> 0 < d -> 0 <= c1 -> c2 < 4503599627370496 ->
  c1 * d <= - n <= c2 * d ->
  - c2 <= round_double (nearest n d) <= - c1.
Proof.
  intros Hn Hd Hc1 Hc2 [H1 H2].
  destruct (Z.eq_dec n 0) as [->|Hnz].
  - simpl. unfold round_double. simpl. nia.
  - assert (Hp : 0 < - n) by lia. rewrite (nearest_neg_eq n d ltac:(lia)).
    destruct (nearest_pos_spec (- n) d Hp Hd) as (He & _ & Hneg).
    assert (E51 : ilog2 (- n) d < 52).
    { apply ilog2_lt; try lia. change (2 ^ 52) with 4503599627370496. nia. }
    specialize (Hneg ltac:(lia)) as [Hm _].
    unfold round_double. cbn [mant expo].
    rewrite (proj2 (Z.leb_gt 0 _)) by lia. rewrite Hm.
    set (P := 2 ^ (- expo (nearest_pos (- n) d))).
    assert (HP : 0 < P) by (apply pow2_pos; lia).
    set (m := round_half_even (- n * P) d).
    assert (B1 : c1 * P <= m) by (apply round_half_even_ge; [assumption|nia]).
    assert (B2 : m <= c2 * P) by (apply round_half_even_le; [assumption|nia]).
    split.
    + apply round_half_even_ge; [assumption|]. nia.
    + apply round_half_even_le; [assumption|]. nia.
Qed.

(** After the epoch, up to the year 9999. *)
Lemma to_timeval_pos_in_range (ms : Z) :
  0 < ms <= MAX_MS ->
  exists sec us,
    to_timeval (nearest ms 1000) = (sec, us)
    /\ 0 <= sec <= MAX_S /\ 0 <= us < 1000000.
Proof.
  unfold MAX_MS, MAX_S. intros [H0 H1].
  rewrite (nearest_pos_eq ms 1000 H0).
  destruct (nearest_pos_spec ms 1000 H0 ltac:(lia)) as (He & _ & Hneg).
  assert (E37 : ilog2 ms 1000 < 38).
  { apply ilog2_lt; lia. }
  set (x := nearest_pos ms 1000) in *.
  assert (Hx : expo x < 0) by lia.
  specialize (Hneg Hx) as [Hm Hm52].
  (* the scale: 2^(-e) = 1024 * c *)
  set (c := 2 ^ (- expo x - 10)).
  assert (Hc : 0 < c) by (apply pow2_pos; lia).
  assert (EP : 2 ^ (- expo x) = 1024 * c).
  { unfold c. change 1024 with (2 ^ 10). rewrite <- Z.pow_add_r by lia.
    f_equal. lia. }
  unfold to_timeval, modf, US_PER_SECOND. rewrite (proj2 (Z.leb_gt 0 _) Hx).
  rewrite EP in *.
  set (m := mant x) in *.
  assert (Bm : m <= (253402300800 * 1024 - 1) * c).
  { rewrite Hm. apply round_half_even_le; [lia|]. nia. }
  assert (Hq : Z.quot m (1024 * c) = m / (1024 * c))
    by (apply Z.quot_div_nonneg; lia).
  assert (Hr : Z.rem m (1024 * c) = m mod (1024 * c))
    by (apply Z.rem_mod_nonneg; lia).
  rewrite Hq, Hr.
  pose proof (Z.div_mod m (1024 * c) ltac:(lia)) as Edm.
  pose proof (Z.mod_pos_bound m (1024 * c) ltac:(lia)) as Bmod.
  set (ip := m / (1024 * c)) in *. set (fn := m mod (1024 * c)) in *.
  assert (Bip : 0 <= ip <= 253402300799) by nia.
  pose proof (round_nearest_bounds (fn * 1000000) (1024 * c) 0 1000000
                ltac:(lia) ltac:(lia) ltac:(lia) ltac:(lia) ltac:(nia)) as Br.
  set (r := round_double (nearest (fn * 1000000) (1024 * c))) in *.
  destruct (1000000 <=? r) eqn:C1.
  - apply Z.leb_le in C1. eexists _, _. split; [reflexivity|].
    split; [|lia].
    destruct (Z.eq_dec ip 253402300799) as [Eip|]; [|lia].
    exfalso.
    assert (Bfn : fn <= 1023 * c) by nia.
    pose proof (round_nearest_bounds (fn * 1000000) (1024 * c) 0 999024
                  ltac:(lia) ltac:(lia) ltac:(lia) ltac:(lia) ltac:(nia)) as Br'.
    fold r in Br'. lia.
  - apply Z.leb_gt in C1.
    destruct (r <? 0) eqn:C2; [apply Z.ltb_lt in C2; lia|].
    eexists _, _. split; [reflexivity|]. lia.
Qed.

Lemma to_timeval_pos_expo (ms : Z) :
  0 < ms <= MAX_MS -> expo (nearest ms 1000) < 0.
Proof.
  unfold MAX_MS. intros [H0 H1]. rewrite (nearest_pos_eq ms 1000 H0).
  destruct (nearest_pos_spec ms 1000 H0 ltac:(lia)) as (He & _).
  assert (E37 : ilog2 ms 1000 < 38) by (apply ilog2_lt; lia).
  lia.
Qed.

Lemma to_timeval_neg_expo (ms : Z) :
  MIN_MS <= ms < 0 -> expo (nearest ms 1000) < 0.
Proof.
  unfold MIN_MS. intros [H0 H1]. rewrite (nearest_neg_eq ms 1000 H1). cbn [expo].
  destruct (nearest_pos_spec (- ms) 1000 ltac:(lia) ltac:(lia)) as (He & _).
  assert (E37 : ilog2 (- ms) 1000 < 36) by (apply ilog2_lt; lia).
  lia.
Qed.

(** Before the epoch, from the year 1. *)
Lemma to_timeval_neg_in_range (ms : Z) :
  MIN_MS <= ms < 0 ->
  exists sec us,
    to_timeval (nearest ms 1000) = (sec, us)
    /\ MIN_S <= sec <= 0 /\ 0 <= us < 1000000.
Proof.
  intros Hr. pose proof (to_timeval_neg_expo ms Hr) as Hx.
  unfold MIN_MS, MIN_S in *. destruct Hr as [H0 H1].
  rewrite (nearest_neg_eq ms 1000 H1) in *. cbn [expo] in Hx.
  destruct (nearest_pos_spec (- ms) 1000 ltac:(lia) ltac:(lia)) as (_ & _ & Hneg).
  set (x := nearest_pos (- ms) 1000) in *.
  specialize (Hneg Hx) as [Hm Hm52].
  set (P := 2 ^ (- expo x)) in *.
  assert (HP : 0 < P) by (apply pow2_pos; lia).
  unfold to_timeval, modf, US_PER_SECOND. cbn [mant expo]. rewrite (proj2 (Z.leb_gt 0 _) Hx).
  fold P. set (m := mant x) in *.
  assert (Bm : m <= 62135596800 * P).
  { rewrite Hm. apply round_half_even_le; [lia|]. nia. }
  rewrite Z.quot_opp_l, Z.rem_opp_l by lia.
  rewrite (Z.quot_div_nonneg m P), (Z.rem_mod_nonneg m P) by lia.
  pose proof (Z.div_mod m P ltac:(lia)) as Edm.
  pose proof (Z.mod_pos_bound m P ltac:(lia)) as Bmod.
  set (ip := m / P) in *. set (fn := m mod P) in *.
  assert (Bip : 0 <= ip <= 62135596800) by nia.
  pose proof (round_nearest_bounds_neg (- fn * 1000000) P 0 1000000
                ltac:(lia) ltac:(lia) ltac:(lia) ltac:(lia) ltac:(nia)) as Br.
  set (r := round_double (nearest (- fn * 1000000) P)) in *.
  destruct (1000000 <=? r) eqn:C1; [apply Z.leb_le in C1; lia|].
  destruct (r <? 0) eqn:C2.
  - apply Z.ltb_lt in C2. eexists _, _. split; [reflexivity|].
    split; [|lia].
    destruct (Z.eq_dec ip 62135596800) as [Eip|]; [|lia].
    exfalso.
    assert (Bfn : fn = 0) by nia.
    pose proof (round_nearest_bounds_neg (- fn * 1000000) P 0 0
                  ltac:(lia) ltac:(lia) ltac:(lia) ltac:(lia) ltac:(nia)) as Br'.
    fold r in Br'. lia.
  - apply Z.ltb_ge in C2. eexists _, _. split; [reflexivity|]. lia.
Qed.

(** Beyond the year 9999. *)
Lemma to_timeval_pos_out_of_range (ms : Z) :
  MAX_MS < ms ->
  exists sec us, to_timeval (nearest ms 1000) = (sec, us) /\ MAX_S < sec.
Proof.
  unfold MAX_MS, MAX_S. intros H1.
  rewrite (nearest_pos_eq ms 1000 ltac:(lia)).
  destruct (nearest_pos_spec ms 1000 ltac:(lia) ltac:(lia)) as (_ & Hpos & Hneg).
  set (x := nearest_pos ms 1000) in *.
  unfold to_timeval, modf, US_PER_SECOND.
  destruct (0 <=? expo x) eqn:Hx.
  - apply Z.leb_le in Hx. specialize (Hpos Hx) as [_ Hm52].
    pose proof (pow2_pos (expo x) Hx) as HP.
    change (round_double (nearest (0 * 1000000) 1)) with 0.
    change (1000000 <=? 0) with false. change (0 <? 0) with false. cbv iota.
    eexists _, _. split; [reflexivity|]. nia.
  - apply Z.leb_gt in Hx. specialize (Hneg Hx) as [Hm Hm52].
    set (P := 2 ^ (- expo x)) in *.
    assert (HP : 0 < P) by (apply pow2_pos; lia).
    set (m := mant x) in *.
    assert (Bm : 253402300800 * P <= m).
    { rewrite Hm. apply round_half_even_ge; [lia|]. nia. }
    rewrite (Z.quot_div_nonneg m P), (Z.rem_mod_nonneg m P) by lia.
    pose proof (Z.div_mod m P ltac:(lia)) as Edm.
    pose proof (Z.mod_pos_bound m P ltac:(lia)) as Bmod.
    set (ip := m / P) in *. set (fn := m mod P) in *.
    assert (Bip : 253402300800 <= ip) by nia.
    pose proof (round_nearest_bounds (fn * 1000000) P 0 1000000
                  ltac:(lia) ltac:(lia) ltac:(lia) ltac:(lia) ltac:(nia)) as Br.
    set (r := round_double (nearest (fn * 1000000) P)) in *.
    destruct (1000000 <=? r); [eexists _, _; split; [reflexivity|lia]|].
    destruct (r <? 0) eqn:C2; [apply Z.ltb_lt in C2; lia|].
    eexists _, _. split; [reflexivity|lia].
Qed.

(** Before the year 1. *)
Lemma to_timeval_neg_out_of_range (ms : Z) :
  ms < MIN_MS ->
  exists sec us, to_timeval (nearest ms 1000) = (sec, us) /\ sec < MIN_S.
Proof.
  unfold MIN_MS, MIN_S. intros H1.
  rewrite (nearest_neg_eq ms 1000 ltac:(lia)).
  destruct (nearest_pos_spec (- ms) 1000 ltac:(lia) ltac:(lia)) as (_ & Hpos & Hneg).
  set (x := nearest_pos (- ms) 1000) in *.
  unfold to_timeval, modf, US_PER_SECOND. cbn [mant expo].
  destruct (0 <=? expo x) eqn:Hx.
  - apply Z.leb_le in Hx. specialize (Hpos Hx) as [_ Hm52].
    pose proof (pow2_pos (expo x) Hx) as HP.
    change (round_double (nearest (0 * 1000000) 1)) with 0.
    change (1000000 <=? 0) with false. change (0 <? 0) with false. cbv iota.
    eexists _, _. split; [reflexivity|]. nia.
  - apply Z.leb_gt in Hx. specialize (Hneg Hx) as [Hm Hm52].
    set (P := 2 ^ (- expo x)) in *.
    assert (HP : 0 < P) by (apply pow2_pos; lia).
    set (m := mant x) in *.
    pose proof (Z.div_mod P 1000 ltac:(lia)) as EP.
    pose proof (Z.mod_pos_bound P 1000 ltac:(lia)) as BP.
    assert (Bm : 62135596800 * P + P / 1000 <= m).
    { rewrite Hm. apply round_half_even_ge; [lia|]. nia. }
    rewrite Z.quot_opp_l, Z.rem_opp_l by lia.
    rewrite (Z.quot_div_nonneg m P), (Z.rem_mod_nonneg m P) by lia.
    pose proof (Z.div_mod m P ltac:(lia)) as Edm.
    pose proof (Z.mod_pos_bound m P ltac:(lia)) as Bmod.
    set (ip := m / P) in *. set (fn := m mod P) in *.
    assert (Bip : 62135596800 <= ip) by nia.
    pose proof (round_nearest_bounds_neg (- fn * 1000000) P 0 1000000
                  ltac:(lia) ltac:(lia) ltac:(lia) ltac:(lia) ltac:(nia)) as Br.
    set (r := round_double (nearest (- fn * 1000000) P)) in *.
    destruct (1000000 <=? r) eqn:C1; [apply Z.leb_le in C1; lia|].
    destruct (r <? 0) eqn:C2; [eexists _, _; split; [reflexivity|lia]|].
    apply Z.ltb_ge in C2. eexists _, _. split; [reflexivity|].
    destruct (Z.eq_dec ip 62135596800) as [Eip|]; [|lia].
    exfalso.
    assert (BPl : 1000 <= P) by nia.
    assert (Bfn : P <= fn * 1000000) by nia.
    pose proof (round_nearest_bounds_neg (- fn * 1000000) P 1 1000000
                  ltac:(lia) ltac:(lia) ltac:(lia) ltac:(lia) ltac:(nia)) as Br'.
    fold r in Br'. lia.
Qed.

(** A timestamp within the range of [datetime] is converted. *)
Theorem utcfromtimestamp_ms_in_range (ms : Z) :
  MIN_MS <= ms <= MAX_MS ->
  exists t : datetime,
    utcfromtimestamp_ms ms = Ok t
    /\ MIN_MS * 1000 <= t < (MAX_MS + 1) * 1000.
Proof.
  intros Hr.
  assert (H : exists sec us,
             true_divide ms 1000 = Ok (nearest ms 1000)
             /\ to_timeval (nearest ms 1000) = (sec, us)
             /\ MIN_S <= sec <= MAX_S /\ 0 <= us < 1000000).
  { destruct (Z.lt_trichotomy ms 0) as [Hn | [-> | Hp]].
    - destruct (to_timeval_neg_in_range ms ltac:(lia)) as (sec & us & E & B1 & B2).
      pose proof (to_timeval_neg_expo ms ltac:(lia)) as Hx.
      exists sec, us. unfold true_divide.
      rewrite (proj2 (Z.leb_gt 0 _) Hx). unfold MIN_S, MAX_S in *. repeat split; try lia.
      exact E.
    - exists 0, 0. unfold MIN_S, MAX_S. repeat split; try lia.
    - destruct (to_timeval_pos_in_range ms ltac:(lia)) as (sec & us & E & B1 & B2).
      pose proof (to_timeval_pos_expo ms ltac:(lia)) as Hx.
      exists sec, us. unfold true_divide.
      rewrite (proj2 (Z.leb_gt 0 _) Hx). unfold MIN_S, MAX_S in *. repeat split; try lia.
      exact E. }
  destruct H as (sec & us & Ed & Et & Bs & Bu).
  unfold utcfromtimestamp_ms, utcfromtimestamp, US_PER_SECOND. rewrite Ed, Et.
  unfold TIME_T_MIN, TIME_T_MAX, GMTIME_MIN, GMTIME_MAX, MIN_S, MAX_S, MIN_MS, MAX_MS in *.
  rewrite !(proj2 (Z.leb_le _ _)) by lia. simpl.
  eexists. split; [reflexivity|]. lia.
Qed.

(** A timestamp outside the range of [datetime] raises, one of three
    exceptions. *)
Theorem utcfromtimestamp_ms_out_of_range (ms : Z) :
  ms < MIN_MS \/ MAX_MS < ms ->
  exists err,
    utcfromtimestamp_ms ms = Raise err
    /\ (err = ValueError \/ err = OSError \/ err = OverflowError).
Proof.
  intros Hr.
  assert (H : exists sec us,
             to_timeval (nearest ms 1000) = (sec, us)
             /\ (sec < MIN_S \/ MAX_S < sec)).
  { destruct Hr as [Hn | Hp].
    - destruct (to_timeval_neg_out_of_range ms Hn) as (sec & us & E & B). eauto.
    - destruct (to_timeval_pos_out_of_range ms Hp) as (sec & us & E & B). eauto. }
  destruct H as (sec & us & Et & Bs).
  unfold utcfromtimestamp_ms, true_divide.
  destruct (_ && _); [eauto|].
  unfold utcfromtimestamp. rewrite Et.
  destruct (negb _); [eauto|]. destruct (negb _); [eauto|].
  destruct ((MIN_S <=? sec) && (sec <=? MAX_S)) eqn:C; [|simpl; eauto].
  apply andb_true_iff in C as [C1 C2]. apply Z.leb_le in C1, C2. lia.
Qed.

Lemma round_half_even_unique (n d c : Z) :
  0 < d -> - d < 2 * (n - c * d) < d -> round_half_even n d = c.
Proof.
  intros Hd H. pose proof (round_half_even_error n d Hd) as E.
  set (r := round_half_even n d) in *. nia.
Qed.

(** The second rounding, of the fraction in microseconds: a fraction
    within half a microsecond of [j] milliseconds gives [1000 * j]. *)
Lemma round_fraction (fn P j : Z) :
  1048576 <= P -> 0 <= fn -> 0 <= j < 1000 ->
  -500 <= 1000 * fn - j * P <= 500 ->
  round_double (nearest (fn * 1000000) P) = 1000 * j
  /\ round_double (nearest (- fn * 1000000) P) = - (1000 * j).
Proof.
  intros HP Hfn Hj Hd.
  destruct (Z.eq_dec fn 0) as [->|Hnz].
  - assert (j = 0) by nia. subst j. split; reflexivity.
  - assert (HN : 0 < fn * 1000000) by lia.
    destruct (nearest_pos_spec (fn * 1000000) P HN ltac:(lia)) as (He & _ & Hneg).
    assert (E20 : ilog2 (fn * 1000000) P < 20).
    { apply ilog2_lt; try lia. change (2 ^ 20) with 1048576. nia. }
    specialize (Hneg ltac:(lia)) as [Hm _].
    set (x := nearest_pos (fn * 1000000) P) in *.
    set (P2 := 2 ^ (- expo x)) in *.
    assert (HP2 : 8589934592 <= P2).
    { change 8589934592 with (2 ^ 33). apply Z.pow_le_mono_r; lia. }
    pose proof (round_half_even_error (fn * 1000000 * P2) P ltac:(lia)) as Er.
    rewrite <- Hm in Er. set (m := mant x) in *.
    assert (A1 : 2 * (m - 1000 * j * P2) < P2).
    { assert (T1 : 2 * m * P <= P + 1000 * (j * P + 500) * (2 * P2)) by nia.
      assert (T2 : P + 1000000 * P2 < P2 * P) by nia.
      nia. }
    assert (A2 : - P2 < 2 * (m - 1000 * j * P2)).
    { assert (T1 : 1000 * (j * P - 500) * (2 * P2) - P <= 2 * m * P) by nia.
      assert (T2 : P + 1000000 * P2 < P2 * P) by nia.
      nia. }
    split.
    + rewrite (nearest_pos_eq _ P HN). fold x. unfold round_double.
      rewrite (proj2 (Z.leb_gt 0 _)) by lia. fold P2 m.
      apply round_half_even_unique; lia.
    + replace (- fn * 1000000) with (- (fn * 1000000)) by ring.
      rewrite (nearest_neg_eq (- (fn * 1000000)) P ltac:(lia)).
      rewrite Z.opp_involutive. fold x. unfold round_double. cbn [mant expo].
      rewrite (proj2 (Z.leb_gt 0 _)) by lia. fold P2 m.
      apply round_half_even_unique; lia.
Qed.

(** Within 2^33 seconds of the epoch (1697 to 2242) the conversion is
    exact. *)
Theorem utcfromtimestamp_ms_exact (ms : Z) :
  - EXACT_MS < ms < EXACT_MS ->
  utcfromtimestamp_ms ms = Ok (ms * 1000).
Proof.
  unfold EXACT_MS. intros Hr.
  destruct (Z.eq_dec ms 0) as [->|Hnz]; [reflexivity|].
  set (n := Z.abs ms).
  assert (Hn : 0 < n < 8589934592000) by lia.
  destruct (nearest_pos_spec n 1000 ltac:(lia) ltac:(lia)) as (He & _ & Hneg).
  assert (E33 : ilog2 n 1000 < 33) by (apply ilog2_lt; lia).
  set (x := nearest_pos n 1000) in *.
  assert (Hx : expo x < 0) by lia.
  specialize (Hneg Hx) as [Hm _].
  set (P := 2 ^ (- expo x)) in *.
  assert (HP : 1048576 <= P).
  { change 1048576 with (2 ^ 20). apply Z.pow_le_mono_r; lia. }
  pose proof (round_half_even_error (n * P) 1000 ltac:(lia)) as Er.
  rewrite <- Hm in Er. set (m := mant x) in *.
  pose proof (Z.div_mod n 1000 ltac:(lia)) as En.
  pose proof (Z.mod_pos_bound n 1000 ltac:(lia)) as Bn.
  set (k := n / 1000) in *. set (j := n mod 1000) in *.
  assert (Bk : 0 <= k < 8589934592) by lia.
  assert (Eq : m / P = k).
  { symmetry. apply (Z.div_unique_pos m P k (m - k * P)); nia. }
  assert (Em : m mod P = m - k * P).
  { symmetry. apply (Z.mod_unique_pos m P k (m - k * P)); nia. }
  assert (Hm0 : 0 <= m) by nia.
  destruct (round_fraction (m - k * P) P j HP ltac:(nia) Bn ltac:(nia))
    as [R1 R2].
  unfold utcfromtimestamp_ms, true_divide.
  destruct (Z.lt_ge_cases ms 0) as [Hneg|Hpos].
  - rewrite (nearest_neg_eq ms 1000 Hneg).
    replace (- ms) with n by lia. fold x. cbn [mant expo].
    rewrite (proj2 (Z.leb_gt 0 _) Hx). cbn [andb].
    unfold utcfromtimestamp, to_timeval, modf, US_PER_SECOND. cbn [mant expo].
    rewrite (proj2 (Z.leb_gt 0 _) Hx). fold P m.
    rewrite Z.quot_opp_l, Z.rem_opp_l by lia.
    rewrite (Z.quot_div_nonneg m P), (Z.rem_mod_nonneg m P) by lia.
    rewrite Eq, Em, R2.
    unfold TIME_T_MIN, TIME_T_MAX, GMTIME_MIN, GMTIME_MAX, MIN_S, MAX_S.
    rewrite (proj2 (Z.leb_gt 1000000 _)) by lia.
    destruct (Z.eq_dec j 0) as [Ej|Ej].
    + rewrite Ej. change (- (1000 * 0) <? 0) with false. cbv iota.
      rewrite !(proj2 (Z.leb_le _ _)) by lia. cbn [andb negb].
      f_equal. lia.
    + rewrite (proj2 (Z.ltb_lt _ 0)) by lia.
      rewrite !(proj2 (Z.leb_le _ _)) by lia. cbn [andb negb].
      f_equal. lia.
  - rewrite (nearest_pos_eq ms 1000 ltac:(lia)).
    replace ms with n by lia. fold x.
    rewrite (proj2 (Z.leb_gt 0 _) Hx). cbn [andb].
    unfold utcfromtimestamp, to_timeval, modf, US_PER_SECOND.
    rewrite (proj2 (Z.leb_gt 0 _) Hx). fold P m.
    rewrite (Z.quot_div_nonneg m P), (Z.rem_mod_nonneg m P) by lia.
    rewrite Eq, Em, R1.
    unfold TIME_T_MIN, TIME_T_MAX, GMTIME_MIN, GMTIME_MAX, MIN_S, MAX_S.
    rewrite (proj2 (Z.leb_gt 1000000 _)) by lia.
    rewrite (proj2 (Z.ltb_ge _ 0)) by lia.
    rewrite !(proj2 (Z.leb_le _ _)) by lia. cbn [andb negb].
    f_equal. lia.
Qed.

(** Seconds and microseconds together are the integral part and the
    rounded fraction together: a carry moves a second, it does not change
    the instant. *)
Lemma to_timeval_sum (x : double) :
  fst (to_timeval x) * US_PER_SECOND + snd (to_timeval x) =
    fst (modf x) * US_PER_SECOND
    + round_double (nearest (fst (snd (modf x)) * US_PER_SECOND)
                            (snd (snd (modf x)))).
Proof.
  unfold to_timeval. destruct (modf x) as [ip [fn fd]]. cbn [fst snd].
  destruct (US_PER_SECOND <=? _); [cbn [fst snd]; lia|].
  destruct (_ <? 0); cbn [fst snd]; lia.
Qed.

(** The rounded fraction is within one microsecond of the fraction. *)
Lemma round_fraction_near (fn P : Z) :
  0 < P -> 0 <= fn < P ->
  let r := round_double (nearest (fn * 1000000) P) in
  let r' := round_double (nearest (- fn * 1000000) P) in
  - P <= r * P - fn * 1000000 <= P
  /\ - P <= r' * P + fn * 1000000 <= P.
Proof.
  intros HP Hfn r r'.
  pose proof (Z.div_mod (fn * 1000000) P ltac:(lia)) as E.
  pose proof (Z.mod_pos_bound (fn * 1000000) P HP) as B.
  set (q := fn * 1000000 / P) in *.
  assert (Bq : 0 <= q < 1000000) by nia.
  pose proof (round_nearest_bounds (fn * 1000000) P q (q + 1)
                ltac:(lia) HP ltac:(lia) ltac:(lia) ltac:(nia)) as B1.
  pose proof (round_nearest_bounds_neg (- fn * 1000000) P q (q + 1)
                ltac:(lia) HP ltac:(lia) ltac:(lia) ltac:(nia)) as B2.
  fold r in B1. fold r' in B2. split; nia.
Qed.

(** Within the range of [datetime] the conversion is off by at most
    sixteen microseconds. *)
Theorem utcfromtimestamp_ms_accuracy (ms : Z) (t : datetime) :
  MIN_MS <= ms <= MAX_MS ->
  utcfromtimestamp_ms ms = Ok t ->
  ms * US_PER_MS - 16 <= t <= ms * US_PER_MS + 16.
Proof.
  intros Hr Ht.
  destruct (Z.eq_dec ms 0) as [->|Hnz].
  { vm_compute in Ht. inversion Ht; subst. unfold US_PER_MS. lia. }
  assert (Hx : expo (nearest ms 1000) < 0).
  { destruct (Z.lt_ge_cases ms 0);
      [apply to_timeval_neg_expo | apply to_timeval_pos_expo]; lia. }
  unfold utcfromtimestamp_ms, true_divide in Ht.
  rewrite (proj2 (Z.leb_gt 0 _) Hx) in Ht. cbn [andb] in Ht.
  unfold utcfromtimestamp in Ht.
  pose proof (to_timeval_sum (nearest ms 1000)) as Hsum.
  destruct (to_timeval (nearest ms 1000)) as [sec us]. cbn [fst snd] in Hsum.
  destruct (negb _); [discriminate|]. destruct (negb _); [discriminate|].
  destruct (negb _); [discriminate|]. inversion Ht; subst t. clear Ht.
  rewrite Hsum. clear Hsum sec us.
  unfold modf. rewrite (proj2 (Z.leb_gt 0 _) Hx). cbn [fst snd].
  unfold MIN_MS, MAX_MS, US_PER_MS, US_PER_SECOND in *.
  set (n := Z.abs ms).
  assert (Hn : 0 < n <= 253402300799999) by lia.
  destruct (nearest_pos_spec n 1000 ltac:(lia) ltac:(lia)) as (He & _ & Hneg).
  assert (E38 : ilog2 n 1000 < 38) by (apply ilog2_lt; lia).
  destruct (Z.lt_ge_cases ms 0) as [Hlt|Hge].
  - rewrite (nearest_neg_eq ms 1000 Hlt) in *. cbn [mant expo] in *.
    replace (- ms) with n in * by lia.
    set (x := nearest_pos n 1000) in *.
    specialize (Hneg Hx) as [Hm Hm52].
    set (P := 2 ^ (- expo x)) in *.
    assert (HP : 32768 <= P).
    { change 32768 with (2 ^ 15). apply Z.pow_le_mono_r; lia. }
    pose proof (round_half_even_error (n * P) 1000 ltac:(lia)) as Er.
    rewrite <- Hm in Er. set (m := mant x) in *.
    rewrite Z.quot_opp_l, Z.rem_opp_l by lia.
    rewrite (Z.quot_div_nonneg m P), (Z.rem_mod_nonneg m P) by lia.
    pose proof (Z.div_mod m P ltac:(lia)) as Edm.
    pose proof (Z.mod_pos_bound m P ltac:(lia)) as Bmod.
    set (ip := m / P) in *. set (fn := m mod P) in *.
    destruct (round_fraction_near fn P ltac:(lia) Bmod) as [_ Br].
    cbv zeta in Br.
    set (r := round_double (nearest (- fn * 1000000) P)) in *.
    assert (T : - (P + 500000) <= (- ip * 1000000 + r - ms * 1000) * P
                <= P + 500000) by nia.
    nia.
  - rewrite (nearest_pos_eq ms 1000 ltac:(lia)) in *.
    replace ms with n in * by lia.
    set (x := nearest_pos n 1000) in *.
    specialize (Hneg Hx) as [Hm Hm52].
    set (P := 2 ^ (- expo x)) in *.
    assert (HP : 32768 <= P).
    { change 32768 with (2 ^ 15). apply Z.pow_le_mono_r; lia. }
    pose proof (round_half_even_error (n * P) 1000 ltac:(lia)) as Er.
    rewrite <- Hm in Er. set (m := mant x) in *.
    rewrite (Z.quot_div_nonneg m P), (Z.rem_mod_nonneg m P) by lia.
    pose proof (Z.div_mod m P ltac:(lia)) as Edm.
    pose proof (Z.mod_pos_bound m P ltac:(lia)) as Bmod.
    set (ip := m / P) in *. set (fn := m mod P) in *.
    destruct (round_fraction_near fn P ltac:(lia) Bmod) as [Br _].
    cbv zeta in Br.
    set (r := round_double (nearest (fn * 1000000) P)) in *.
    assert (T : - (P + 500000) <= (ip * 1000000 + r - n * 1000) * P
                <= P + 500000) by nia.
    nia.
Qed.

(** The window start the quota evaluator works with is the client's
    timestamp to within sixteen microseconds, and exactly within 2^33
    seconds of the epoch. *)
Lemma window_start_near (ms : Z) (t : datetime) :
  window_start ms = Some t ->
  ms * US_PER_MS - 16 <= t <= ms * US_PER_MS + 16
  /\ (- EXACT_MS < ms < EXACT_MS -> t = ms * US_PER_MS).
Proof.
  unfold window_start. intros H.
  destruct (utcfromtimestamp_ms ms) as [t0|err] eqn:E; [|discriminate].
  inversion H; subst t0. split.
  - destruct (Z_le_dec MIN_MS ms) as [H1|H1];
      [destruct (Z_le_dec ms MAX_MS) as [H2|H2]|].
    + exact (utcfromtimestamp_ms_accuracy ms t (conj H1 H2) E).
    + destruct (utcfromtimestamp_ms_out_of_range ms ltac:(lia)) as (e & E' & _).
      rewrite E' in E. discriminate.
    + destruct (utcfromtimestamp_ms_out_of_range ms ltac:(lia)) as (e & E' & _).
      rewrite E' in E. discriminate.
  - intros Hr. rewrite (utcfromtimestamp_ms_exact ms Hr) in E.
    inversion E. reflexivity.
Qed.

(* ===================================================================== *)
(** * The cases of the test suite *)
(* ===================================================================== *)

Example quota_free_under_limit :
  fst (check_message_limit default_settings "user_123" 10 None w_still) =
    Ok (true, Some 10).
Proof. reflexivity. Qed.

Example quota_free_at_limit :
  fst (check_message_limit default_settings "user_123" 20 None w_still) =
    Ok (false, Some 0).
Proof. reflexivity. Qed.

Example quota_free_over_limit :
  fst (check_message_limit default_settings "user_123" 25 None w_still) =
    Ok (false, Some 0).
Proof. reflexivity. Qed.

Example quota_pro :
  fst (check_message_limit default_settings "user_123" 1000 None w_purchased) =
    Ok (true, None).
Proof. vm_compute. reflexivity. Qed.

Example quota_window_reset :
  fst (check_message_limit default_settings "user_123" 20 (Some 1) w_day8) =
    Ok (true, Some 20).
Proof. vm_compute. reflexivity. Qed.

Example pro_cancelled_in_grace :
  fst (is_user_pro "user_123" w_grace) = Ok true.
Proof. vm_compute. reflexivity. Qed.

Example pro_cancelled_lapsed :
  fst (is_user_pro "user_123" w_lapsed) = Ok false.
Proof. vm_compute. reflexivity. Qed.

Example purchase_then_expiration :
  status <$> record_of "user_123" w_purchased = Some ACTIVE
  /\ entitlements <$> record_of "user_123" w_purchased = Some ["pro"]
  /\ status <$> record_of "user_123" w_expired = Some EXPIRED
  /\ entitlements <$> record_of "user_123" w_expired = Some [].
Proof. repeat split; vm_compute; reflexivity. Qed.

(* ===================================================================== *)
(** * The is-pro predicate *)
(* ===================================================================== *)

(** C1. [is_user_pro] is false for a user without a record and for a record
    whose status is expired; for a cancelled record it is true exactly when
    [expires_at] is present and strictly later than the clock reading and
    "pro" is among the entitlements; for an active or trialing record it is
    true exactly when "pro" is among the entitlements. *)
Theorem is_user_pro_spec (uid : string) (w : World) :
  (collection w !! uid = None -> is_user_pro uid w = (Ok false, w))
  /\ (forall r w1,
        get_subscription_by_user_id uid w = (Ok (Some r), w1) ->
        (status r = EXPIRED -> is_user_pro uid w = (Ok false, w1))
        /\ (status r = CANCELLED ->
            exists b w2, is_user_pro uid w = (Ok b, w2)
              /\ (b = true <->
                  (exists t, expires_at r = Some t /\ now w1 < t)
                  /\ "pro" ∈ entitlements r))
        /\ (status r = ACTIVE \/ status r = TRIALING ->
            exists b, is_user_pro uid w = (Ok b, w1)
              /\ (b = true <-> "pro" ∈ entitlements r))).
Proof.
  split.
  - intros H. unfold is_user_pro.
    now rewrite (bind_ok _ _ _ _ _ (get_subscription_none _ _ H)).
  - intros r w1 Hget. unfold is_user_pro.
    rewrite (bind_ok _ _ _ _ _ Hget). repeat split.
    + intros ->. reflexivity.
    + intros Hst. rewrite Hst. simpl.
      destruct (expires_at r) as [t|].
      * unfold bind, utcnow, ret.
        destruct (t >? now w1) eqn:Ht.
        -- eexists _, _. split; [reflexivity|].
           rewrite in_list_spec. apply Z.gtb_lt in Ht.
           split; [intros Hin; split; [exists t; split; [reflexivity|lia]|exact Hin]
                  | intros [_ Hin]; exact Hin].
        -- eexists _, _. split; [reflexivity|].
           split; [discriminate|].
           intros [(t' & Et & Hlt) _]. inversion Et; subst.
           apply Z.gtb_lt in Hlt. congruence.
      * eexists _, _. split; [reflexivity|].
        split; [discriminate|]. intros [(t' & Et & _) _]. discriminate.
    + intros Hst. exists (in_list "pro" (entitlements r)).
      split; [|apply in_list_spec].
      destruct Hst as [-> | ->]; reflexivity.
Qed.

Lemma is_user_pro_spec_witness :
  exists b w2,
    is_user_pro "user_123" w_grace = (Ok b, w2)
    /\ b = true.
Proof.
  destruct (is_user_pro_spec "user_123" w_grace) as [_ H].
  destruct (H _ _ eq_refl) as (_ & Hc & _).
  destruct (Hc eq_refl) as (b & w2 & E & Hiff).
  exists b, w2. split; [exact E|].
  apply Hiff. split.
  - eexists. split; [reflexivity|]. vm_compute. reflexivity.
  - simpl. apply list_elem_of_here.
Defined.

(* ===================================================================== *)
(** * The quota evaluator *)
(* ===================================================================== *)

Lemma days_between_ge_7 (a b : datetime) :
  (days_between a b >=? 7) = (7 * US_PER_DAY <=? a - b).
Proof.
  unfold days_between, US_PER_DAY.
  rewrite Z.geb_leb.
  destruct (7 * 86400000000 <=? a - b) eqn:E.
  - apply Z.leb_le in E. apply Z.leb_le.
    apply Z.div_le_lower_bound; lia.
  - apply Z.leb_gt in E. apply Z.leb_gt.
    apply Z.div_lt_upper_bound; lia.
Qed.

(** The free-tier branch of [check_message_limit], once the pro check has
    answered no in world [w1]. *)
Lemma check_message_limit_free
    (settings : Settings) (uid : string) (count : Z) (ws : option Z)
    (w w1 : World) :
  is_user_pro uid w = (Ok false, w1) ->
  window_start_ok ws = true ->
  let limit := FREE_TIER_WEEKLY_MESSAGE_LIMIT settings in
  let eff := effective_count (now w1) ws count in
  exists w2,
    check_message_limit settings uid count ws w =
      (Ok (eff <? limit, Some (Z.max 0 (limit - eff))), w2)
    /\ collection w2 = collection w1.
Proof.
  intros Hpro Hok limit eff. unfold check_message_limit.
  rewrite (bind_ok _ _ _ _ _ Hpro). subst eff. unfold effective_count.
  destruct ws as [ms|]; [|eexists; split; reflexivity].
  cbn [window_start_ok] in Hok. cbv iota.
  destruct (truthy_int ms) eqn:Hms; cbn [negb orb andb] in *.
  - destruct (utcfromtimestamp_ms_in_range ms) as (t & Et & _).
    { apply andb_true_iff in Hok as [H1 H2].
      apply Z.leb_le in H1, H2. lia. }
    unfold window_over, window_start. rewrite Et.
    unfold bind at 1. rewrite lift_bind.
    unfold bind at 1. unfold utcnow at 1.
    rewrite days_between_ge_7.
    destruct (7 * US_PER_DAY <=? now w1 - t);
      (eexists; split; [reflexivity|]); apply collection_tick.
  - eexists; split; reflexivity.
Qed.

(** Outside the range of [datetime] the conversion of the window start
    raises, and so does the evaluator. *)
Lemma check_message_limit_free_raise
    (settings : Settings) (uid : string) (count : Z) (ws : option Z)
    (w w1 : World) :
  is_user_pro uid w = (Ok false, w1) ->
  window_start_ok ws = false ->
  exists err,
    check_message_limit settings uid count ws w = (Raise err, w1)
    /\ (err = ValueError \/ err = OSError \/ err = OverflowError).
Proof.
  intros Hpro Hok. unfold check_message_limit.
  rewrite (bind_ok _ _ _ _ _ Hpro).
  destruct ws as [ms|]; [|discriminate]. cbn [window_start_ok] in Hok.
  apply orb_false_iff in Hok as [Hms Hr]. apply negb_false_iff in Hms.
  rewrite Hms.
  destruct (utcfromtimestamp_ms_out_of_range ms) as (err & Et & Herr).
  { apply andb_false_iff in Hr as [H|H]; apply Z.leb_gt in H; lia. }
  exists err. unfold bind at 1. rewrite lift_bind, Et. now split.
Qed.

(** C2, as the code has it.  [check_message_limit] answers [(True, None)]
    for a pro user.  For any other user every answer it gives is
    [(effective < limit, max(0, limit - effective))], where the effective
    count is zero when the window start is present, NOT ZERO, and seven
    days or more before the clock reading, and the client's count
    otherwise; and it does answer whenever the window start is absent,
    zero or a timestamp [datetime] can represent.  The window start is
    the client's timestamp as a [datetime]: to within sixteen
    microseconds, and exactly between the years 1697 and 2242. *)
Theorem check_message_limit_spec
    (settings : Settings) (uid : string) (count : Z) (ws : option Z)
    (w w1 : World) :
  let limit := FREE_TIER_WEEKLY_MESSAGE_LIMIT settings in
  (is_user_pro uid w = (Ok true, w1) ->
   check_message_limit settings uid count ws w = (Ok (true, None), w1))
  /\ (is_user_pro uid w = (Ok false, w1) ->
      let eff := effective_count (now w1) ws count in
      (forall r w2,
          check_message_limit settings uid count ws w = (Ok r, w2) ->
          r = (eff <? limit, Some (Z.max 0 (limit - eff))))
      /\ (window_start_ok ws = true ->
          fst (check_message_limit settings uid count ws w) =
            Ok (eff <? limit, Some (Z.max 0 (limit - eff)))))
  /\ (forall ms t,
        ws = Some ms -> window_start ms = Some t ->
        ms * US_PER_MS - 16 <= t <= ms * US_PER_MS + 16
        /\ (- EXACT_MS < ms < EXACT_MS -> t = ms * US_PER_MS)).
Proof.
  intros limit. split; [|split].
  - intros Hpro. unfold check_message_limit.
    now rewrite (bind_ok _ _ _ _ _ Hpro).
  - intros Hpro eff. split.
    + intros r w2 E. destruct (window_start_ok ws) eqn:Hok.
      * destruct (check_message_limit_free settings uid count ws w w1 Hpro Hok)
          as (w3 & E3 & _).
        rewrite E3 in E. now inversion E.
      * destruct (check_message_limit_free_raise settings uid count ws w w1
                    Hpro Hok) as (err & E3 & _).
        rewrite E3 in E. discriminate.
    + intros Hok.
      destruct (check_message_limit_free settings uid count ws w w1 Hpro Hok)
        as (w2 & E & _).
      now rewrite E.
  - intros ms t _. apply window_start_near.
Qed.

Lemma check_message_limit_spec_witness :
  fst (check_message_limit default_settings "user_123" 20 (Some 1) w_day8) =
    Ok (true, Some 20).
Proof.
  destruct (check_message_limit_spec default_settings "user_123" 20 (Some 1)
              w_day8 w_day8) as (_ & H & _).
  exact (proj2 (H eq_refl) eq_refl).
Defined.

(** C2 as the specification words it fails at a window start of zero: on
    day eight a free user with twenty messages and window start 0 has,
    by the specification, an effective count of zero, hence
    [(True, 20)]; the code answers [(False, 0)]. *)
Lemma check_message_limit_window_zero_counterexample :
  is_user_pro "user_123" w_day8 = (Ok false, w_day8)
  /\ effective_count_spec (now w_day8) (Some 0) 20 = 0
  /\ check_message_limit default_settings "user_123" 20 (Some 0) w_day8 =
       (Ok (false, Some 0), w_day8)
  /\ fst (check_message_limit default_settings "user_123" 20 (Some 0) w_day8) <>
       Ok (effective_count_spec (now w_day8) (Some 0) 20 <? 20,
           Some (Z.max 0 (20 - effective_count_spec (now w_day8) (Some 0) 20))).
Proof.
  repeat split; try reflexivity. vm_compute. discriminate.
Qed.

(** C9. A window start of zero is treated as an absent one: the reset is
    not applied and a free user's count is used as given, whatever the
    clock shows. *)
Theorem window_start_zero_is_absent
    (settings : Settings) (uid : string) (count : Z) (w : World) :
  let limit := FREE_TIER_WEEKLY_MESSAGE_LIMIT settings in
  check_message_limit settings uid count (Some 0) w =
    check_message_limit settings uid count None w
  /\ (forall w1,
        is_user_pro uid w = (Ok false, w1) ->
        check_message_limit settings uid count (Some 0) w =
          (Ok (count <? limit, Some (Z.max 0 (limit - count))), w1)).
Proof.
  intros limit. split; [reflexivity|].
  intros w1 Hpro. unfold check_message_limit.
  now rewrite (bind_ok _ _ _ _ _ Hpro).
Qed.

Lemma window_start_zero_is_absent_witness :
  7 * US_PER_DAY <= now w_day8 - 0
  /\ check_message_limit default_settings "user_123" 20 (Some 0) w_day8 =
       (Ok (false, Some 0), w_day8).
Proof.
  split; [vm_compute; discriminate|].
  destruct (window_start_zero_is_absent default_settings "user_123" 20 w_day8)
    as [_ H].
  exact (H w_day8 eq_refl).
Defined.

(* ===================================================================== *)
(** * The status query *)
(* ===================================================================== *)

(** C10. For a user without a record every status response reports
    [limit - message_count] as it is: not clamped at zero, and without the
    seven-day reset.  (The query answers whenever the window start is
    absent, zero or a timestamp [datetime] can represent.) *)
Theorem status_without_record_remaining
    (settings : Settings) (uid : string) (message_count : Z)
    (week_start_ms : option Z) (api_key : string) (w : World) :
  collection w !! uid = None ->
  (forall resp w',
      get_subscription_status settings uid message_count week_start_ms api_key w =
        (Ok resp, w') ->
      r_is_pro resp = false
      /\ r_remaining_messages resp =
           Some (FREE_TIER_WEEKLY_MESSAGE_LIMIT settings - message_count))
  /\ (window_start_ok week_start_ms = true ->
      exists resp w',
        get_subscription_status settings uid message_count week_start_ms api_key w =
          (Ok resp, w')).
Proof.
  intros Hnone.
  assert (Hpro : is_user_pro uid w = (Ok false, w)).
  { unfold is_user_pro.
    now rewrite (bind_ok _ _ _ _ _ (get_subscription_none _ _ Hnone)). }
  unfold get_subscription_status.
  rewrite (bind_ok _ _ _ _ _ (get_subscription_none _ _ Hnone)).
  rewrite (bind_ok _ _ _ _ _ Hpro). simpl negb. cbv iota.
  destruct (window_start_ok week_start_ms) eqn:Hok.
  - destruct (check_message_limit_free settings uid message_count week_start_ms
                w w Hpro Hok) as (w2 & E & _).
    match goal with
    | |- context [bind (bind ?m ?k1) ?k2 w] =>
        rewrite (bind_ok (bind m k1) k2 w _ w2
                   (eq_trans (bind_ok m k1 w _ w2 E) eq_refl))
    end.
    split.
    + intros resp w' H. inversion H; subst. split; reflexivity.
    + intros _. eexists _, _. reflexivity.
  - destruct (check_message_limit_free_raise settings uid message_count
                week_start_ms w w Hpro Hok) as (err & E & _).
    match goal with
    | |- context [bind (bind ?m ?k1) ?k2 w] =>
        rewrite (bind_raise (bind m k1) k2 w _ w (bind_raise m k1 w _ w E))
    end.
    split; [intros resp w' H; discriminate | discriminate].
Qed.

Lemma status_without_record_remaining_witness :
  exists resp w',
    get_subscription_status default_settings "user_123" 25 (Some 1) "dev" w_day8 =
      (Ok resp, w')
    /\ r_is_pro resp = false
    /\ r_remaining_messages resp = Some (-5).
Proof.
  destruct (status_without_record_remaining default_settings "user_123" 25
              (Some 1) "dev" w_day8 eq_refl) as [Hall Hex].
  destruct (Hex eq_refl) as (resp & w' & E).
  exists resp, w'. split; [exact E|]. exact (Hall resp w' E).
Defined.

(* ===================================================================== *)
(** * The entitlement store: reads and the merge-upsert *)
(* ===================================================================== *)

Lemma validate_collection (d : Doc) (w : World) :
  collection (snd (validate d w)) = collection w.
Proof.
  unfold validate, bind, ret, raise, utcnow.
  destruct (d_status d) as [v|]; [destruct (parse_status v)|];
    destruct (d_user_id d); destruct (d_created_at d); destruct (d_updated_at d);
    simpl; rewrite ?collection_tick; reflexivity.
Qed.

Lemma validate_frozen (d : Doc) (w : World) :
  elapse w = [] -> snd (validate d w) = w.
Proof.
  intros F. unfold validate, bind, ret, raise, utcnow.
  destruct (d_status d) as [v|]; [destruct (parse_status v)|];
    destruct (d_user_id d); destruct (d_created_at d); destruct (d_updated_at d);
    simpl; rewrite ?(tick_frozen w F); reflexivity.
Qed.

Lemma get_subscription_collection (uid : string) (w : World) :
  collection (snd (get_subscription_by_user_id uid w)) = collection w.
Proof.
  unfold get_subscription_by_user_id, find_one, bind at 1.
  destruct (collection w !! uid) as [d|]; [|reflexivity].
  unfold bind, ret. pose proof (validate_collection d w) as H.
  destruct (validate d w) as [[r|e] w']; exact H.
Qed.

Lemma get_subscription_frozen (uid : string) (w : World) :
  elapse w = [] -> snd (get_subscription_by_user_id uid w) = w.
Proof.
  intros F. unfold get_subscription_by_user_id, find_one, bind at 1.
  destruct (collection w !! uid) as [d|]; [|reflexivity].
  unfold bind, ret. pose proof (validate_frozen d w F) as H.
  destruct (validate d w) as [[r|e] w']; exact H.
Qed.

(** [upsert_subscription] is the write followed by the read-back. *)
Lemma upsert_eq (uid : string) (data : Doc) (w : World) :
  upsert_subscription uid data w =
    get_subscription_by_user_id uid (upsert_world uid data w).
Proof.
  unfold upsert_subscription, upsert_world.
  unfold bind at 1. unfold utcnow at 1.
  unfold bind at 1. unfold find_one at 1. rewrite collection_tick.
  destruct (collection w !! uid) as [d|] eqn:E.
  - unfold bind at 1. unfold ret at 1.
    unfold bind at 1. unfold update_one.
    rewrite collection_tick, E. reflexivity.
  - unfold bind at 1. unfold bind at 1. unfold utcnow at 1. unfold ret at 1.
    unfold bind at 1. unfold update_one.
    rewrite !collection_tick, E. reflexivity.
Qed.

Lemma upsert_world_lookup (uid : string) (data : Doc) (w : World) :
  exists d',
    collection (upsert_world uid data w) !! uid = Some d'
    /\ d_user_id d' = Some uid
    /\ d_status d' =
         set_opt (d_status data) (collection w !! uid ≫= d_status)
    /\ d_entitlements d' =
         set_opt (d_entitlements data) (collection w !! uid ≫= d_entitlements)
    /\ d_current_product_id d' =
         set_opt (d_current_product_id data)
                 (collection w !! uid ≫= d_current_product_id)
    /\ d_expires_at d' =
         set_opt (fmap (M:=option) bson_datetime <$> d_expires_at data)
                 (collection w !! uid ≫= d_expires_at)
    /\ d_revenuecat_customer_id d' =
         set_opt (d_revenuecat_customer_id data)
                 (collection w !! uid ≫= d_revenuecat_customer_id).
Proof.
  unfold upsert_world.
  destruct (collection w !! uid) as [d|]; simpl;
    (eexists; split; [apply lookup_insert_eq|]); simpl; repeat split; reflexivity.
Qed.

Lemma upsert_world_frame (uid k : string) (data : Doc) (w : World) :
  k <> uid ->
  collection (upsert_world uid data w) !! k = collection w !! k.
Proof.
  intros Hk. unfold upsert_world.
  destruct (collection w !! uid); simpl; rewrite lookup_insert_ne; congruence.
Qed.

Lemma upsert_collection (uid : string) (data : Doc) (w : World) :
  collection (snd (upsert_subscription uid data w)) =
    collection (upsert_world uid data w).
Proof. rewrite upsert_eq. apply get_subscription_collection. Qed.

(* ===================================================================== *)
(** * The webhook reconciler: what a handler does to the collection *)
(* ===================================================================== *)

Lemma handlers_inv (t : string) (h : Handler) :
  handlers !! t = Some h -> (t, h) ∈ handler_table.
Proof. apply elem_of_list_to_map_2. Qed.

(** Runs through the ten entries of the table. *)
Ltac handler_cases H :=
  apply handlers_inv in H; unfold handler_table in H;
  repeat (apply elem_of_cons in H as [H|H]; [inversion H; subst; clear H|]);
  [..|apply elem_of_nil in H; destruct H].

(** A handler leaves the collection alone, or it is one merge-upsert under
    the identity it was given, with a patch that keeps the invariant. *)
Lemma handler_effect (t : string) (h : Handler) :
  handlers !! t = Some h ->
  forall (uid : string) (e : WebhookEvent) (w : World),
    collection (snd (h uid e w)) = collection w
    \/ exists data w1,
         collection w1 = collection w
         /\ patch_keeps_invariant data
         /\ collection (snd (h uid e w)) = collection (upsert_world uid data w1).
Proof.
  intros Hh uid e w. handler_cases Hh.
  all: try (unfold _handle_initial_purchase, _handle_renewal,
              _handle_uncancellation, _handle_product_change;
            rewrite lift_bind; destruct (expires_at_of e) as [exp|err];
            [|left; reflexivity];
            right; eexists _, w; split; [reflexivity|];
            split; [|apply upsert_collection];
            unfold patch_keeps_invariant; simpl; left;
            try destruct (is_trial e); discriminate).
  - (* CANCELLATION *)
    unfold _handle_cancellation. rewrite lift_bind.
    destruct (expires_at_of e) as [exp|err]; [|left; reflexivity].
    pose proof (get_subscription_collection uid w) as Hc.
    destruct (get_subscription_by_user_id uid w) as [[ex|err] w1] eqn:G;
      simpl in Hc.
    + rewrite (bind_ok _ _ _ _ _ G).
      right. eexists _, w1. split; [exact Hc|].
      split; [|apply upsert_collection].
      unfold patch_keeps_invariant; simpl. left. discriminate.
    + rewrite (bind_raise _ _ _ _ _ G). left. exact Hc.
  - (* EXPIRATION *)
    unfold _handle_expiration.
    rewrite (bind_ok utcnow _ w (now w) (tick w) eq_refl).
    right. eexists _, (tick w). split; [apply collection_tick|].
    split; [|apply upsert_collection].
    unfold patch_keeps_invariant; simpl. now right.
  - (* BILLING_ISSUE *)
    left. apply get_subscription_collection.
  - (* SUBSCRIBER_ALIAS *)
    right. eexists _, w. split; [reflexivity|].
    split; [|apply upsert_collection]. exact I.
  - (* SUBSCRIPTION_PAUSED *)
    unfold _handle_cancellation. rewrite lift_bind.
    destruct (expires_at_of e) as [exp|err]; [|left; reflexivity].
    pose proof (get_subscription_collection uid w) as Hc.
    destruct (get_subscription_by_user_id uid w) as [[ex|err] w1] eqn:G;
      simpl in Hc.
    + rewrite (bind_ok _ _ _ _ _ G).
      right. eexists _, w1. split; [exact Hc|].
      split; [|apply upsert_collection].
      unfold patch_keeps_invariant; simpl. left. discriminate.
    + rewrite (bind_raise _ _ _ _ _ G). left. exact Hc.
Qed.

(* ===================================================================== *)
(** * The invariant: expired means no entitlements *)
(* ===================================================================== *)

Lemma upsert_world_invariant (uid : string) (data : Doc) (w : World) :
  patch_keeps_invariant data ->
  store_invariant w ->
  store_invariant (upsert_world uid data w).
Proof.
  unfold store_invariant, upsert_world, patch_keeps_invariant.
  intros Hp Hinv.
  destruct (collection w !! uid) as [d|] eqn:E; simpl;
    (apply map_Forall_insert_2; [|exact Hinv]).
  - pose proof (Hinv uid d E) as Hd. revert Hd.
    unfold expired_means_empty, doc_status. simpl.
    destruct (d_status data) as [v|], (d_entitlements data) as [ents|];
      simpl; try contradiction; [|tauto].
    intros _ Hs. destruct Hp as [Hp | ->]; [contradiction|reflexivity].
  - unfold expired_means_empty, doc_status. simpl.
    destruct (d_status data) as [v|], (d_entitlements data) as [ents|];
      simpl; try contradiction; [|reflexivity].
    intros Hs. destruct Hp as [Hp | ->]; [contradiction|reflexivity].
Qed.

Lemma handler_preserves_invariant (t : string) (h : Handler) :
  handlers !! t = Some h ->
  forall (uid : string) (e : WebhookEvent) (w : World),
    store_invariant w -> store_invariant (snd (h uid e w)).
Proof.
  intros Hh uid e w Hinv.
  destruct (handler_effect t h Hh uid e w) as [E | (data & w1 & Ec & Hp & E)];
    unfold store_invariant in *; rewrite E; [exact Hinv|].
  apply upsert_world_invariant; [exact Hp|].
  unfold store_invariant. now rewrite Ec.
Qed.

Lemma handle_webhook_event_preserves_invariant (e : WebhookEvent) (w : World) :
  store_invariant w -> store_invariant (snd (handle_webhook_event e w)).
Proof.
  intros Hinv. unfold handle_webhook_event.
  destruct (negb (truthy_str _)); [exact Hinv|].
  destruct (handlers !! event_type e) as [h|] eqn:Hh; [|exact Hinv].
  now apply (handler_preserves_invariant _ h Hh).
Qed.

Lemma reachable_invariant (w : World) : reachable w -> store_invariant w.
Proof.
  induction 1 as [t ds | w e _ IH | w t ds _ IH].
  - unfold store_invariant. simpl. apply map_Forall_empty.
  - now apply handle_webhook_event_preserves_invariant.
  - exact IH.
Qed.

(** The invariant, read off a validated record. *)
Lemma store_invariant_record (w w' : World) (uid : string) (r : SubscriptionInDB) :
  store_invariant w ->
  get_subscription_by_user_id uid w = (Ok (Some r), w') ->
  status r = EXPIRED -> entitlements r = [].
Proof.
  intros Hinv Hget Hst.
  destruct (get_subscription_inv _ _ _ _ Hget) as (d & Hd & Hv).
  destruct (validate_inv _ _ _ _ Hv) as (_ & Hs & He & _).
  rewrite He. apply (Hinv uid d Hd). now rewrite Hs, Hst.
Qed.

(** C4. Every event handler preserves the invariant that a stored
    document reading as expired holds no entitlements; hence every record
    of every world the reconciler reaches from the empty collection has
    [status = expired ⇒ entitlements = ∅]. *)
Theorem expired_has_no_entitlements :
  (forall (t : string) (h : Handler),
      handlers !! t = Some h ->
      forall (uid : string) (e : WebhookEvent) (w : World),
        store_invariant w -> store_invariant (snd (h uid e w)))
  /\ (forall (w : World),
        reachable w ->
        forall (uid : string) (r : SubscriptionInDB) (w' : World),
          get_subscription_by_user_id uid w = (Ok (Some r), w') ->
          status r = EXPIRED -> entitlements r = []).
Proof.
  split.
  - exact handler_preserves_invariant.
  - intros w Hr uid r w' Hget Hst.
    exact (store_invariant_record w w' uid r (reachable_invariant w Hr) Hget Hst).
Qed.

Lemma expired_has_no_entitlements_witness :
  exists r w',
    get_subscription_by_user_id "user_123" w_expired = (Ok (Some r), w')
    /\ status r = EXPIRED
    /\ entitlements r = [].
Proof.
  assert (Hreach : reachable w_expired)
    by (unfold w_expired, w_purchased;
        apply reachable_event, reachable_event, reachable_init).
  eexists _, _.
  match goal with
  | |- ?A /\ _ => assert (E : A) by (vm_compute; reflexivity)
  end.
  split; [exact E|]. split; [reflexivity|].
  exact (proj2 expired_has_no_entitlements w_expired Hreach _ _ _ E eq_refl).
Defined.

(* ===================================================================== *)
(** * Events that change nothing, and the identity fallback *)
(* ===================================================================== *)

Lemma handlers_unrecognized (t : string) :
  t ∉ recognized -> handlers !! t = None.
Proof. apply not_elem_of_list_to_map_1. Qed.

(** A handler touches no record but the one of the identity it is given. *)
Lemma handler_frame (t : string) (h : Handler) :
  handlers !! t = Some h ->
  forall (uid k : string) (e : WebhookEvent) (w : World),
    k <> uid ->
    collection (snd (h uid e w)) !! k = collection w !! k.
Proof.
  intros Hh uid k e w Hk.
  destruct (handler_effect t h Hh uid e w) as [E | (data & w1 & Ec & _ & E)];
    rewrite E; [reflexivity|].
  rewrite upsert_world_frame by exact Hk. now rewrite Ec.
Qed.

Lemma handle_webhook_event_eq (e : WebhookEvent) (w : World) :
  handle_webhook_event e w =
    (if truthy_str (identity_of e) then
       match handlers !! event_type e with
       | Some h => h (identity_of e) e
       | None => ret None
       end
     else ret None) w.
Proof.
  unfold handle_webhook_event, identity_of. cbv zeta.
  now destruct (truthy_str _).
Qed.

(** C7. An event whose type has no handler, or which carries neither
    identity, is answered with [None]: nothing is raised and the world is
    left as it was.  An event that carries only the alias identity is
    handled under that identity, and no other record is touched. *)
Theorem handle_webhook_event_noop_and_alias (e : WebhookEvent) (w : World) :
  (event_type e ∉ recognized -> handle_webhook_event e w = (Ok None, w))
  /\ (app_user_id e = "" -> original_app_user_id e = "" ->
      handle_webhook_event e w = (Ok None, w))
  /\ (app_user_id e = "" -> original_app_user_id e <> "" ->
      (forall h : Handler, handlers !! event_type e = Some h ->
                 handle_webhook_event e w = h (original_app_user_id e) e w)
      /\ (forall k, k <> original_app_user_id e ->
                    collection (snd (handle_webhook_event e w)) !! k =
                      collection w !! k)).
Proof.
  rewrite handle_webhook_event_eq. unfold identity_of, or_str.
  split; [|split].
  - intros Ht. rewrite (handlers_unrecognized _ Ht).
    now destruct (truthy_str _).
  - intros Ha Ho. now rewrite Ha, Ho.
  - intros Ha Ho. rewrite Ha. simpl.
    assert (T : truthy_str (original_app_user_id e) = true).
    { destruct (truthy_str (original_app_user_id e)) eqn:T; [reflexivity|].
      apply truthy_str_false in T. contradiction. }
    rewrite T. split.
    + intros h Hh. now rewrite Hh.
    + intros k Hk.
      destruct (handlers !! event_type e) as [h|] eqn:Hh; [|reflexivity].
      now apply (handler_frame _ h Hh).
Qed.

Lemma handle_webhook_event_noop_and_alias_witness :
  handle_webhook_event ev_transfer w_purchased = (Ok None, w_purchased)
  /\ handle_webhook_event ev_anonymous w_purchased = (Ok None, w_purchased)
  /\ handle_webhook_event ev_cancel_alias w_purchased =
       _handle_cancellation "user_123" ev_cancel_alias w_purchased.
Proof.
  split; [|split].
  - apply (proj1 (handle_webhook_event_noop_and_alias ev_transfer w_purchased)).
    apply (bool_decide_eq_true_1 _). vm_compute. reflexivity.
  - apply (proj1 (proj2 (handle_webhook_event_noop_and_alias ev_anonymous w_purchased)));
      reflexivity.
  - apply (proj1 (proj2 (proj2 (handle_webhook_event_noop_and_alias
                                  ev_cancel_alias w_purchased))
                    eq_refl ltac:(discriminate))).
    reflexivity.
Defined.

(* ===================================================================== *)
(** * What the handlers write *)
(* ===================================================================== *)

Lemma truthy_str_true (s : string) : s <> "" -> truthy_str s = true.
Proof.
  intros H. destruct (truthy_str s) eqn:T; [reflexivity|].
  apply truthy_str_false in T. contradiction.
Qed.

Lemma get_subscription_total (uid u : string) (d : Doc) (st : SubscriptionStatus)
    (w : World) :
  collection w !! uid = Some d ->
  d_user_id d = Some u -> doc_status d = Some st ->
  exists r w',
    get_subscription_by_user_id uid w = (Ok (Some r), w')
    /\ validate d w = (Ok r, w').
Proof.
  intros Hd Hu Hs.
  destruct (validate_total d w u st Hu Hs) as (r & w' & Hv).
  exists r, w'. split; [|exact Hv].
  rewrite (get_subscription_some _ _ _ Hd).
  now rewrite (bind_ok _ _ _ _ _ Hv).
Qed.

(** The record [upsert_subscription] hands back when the patch sets a
    status: each field is the patch's where the patch has the key, the
    stored one otherwise. *)
Lemma upsert_result (uid : string) (data : Doc) (st : SubscriptionStatus)
    (w : World) :
  d_status data = Some (value st) ->
  exists r w',
    upsert_subscription uid data w = (Ok (Some r), w')
    /\ collection w' = collection (upsert_world uid data w)
    /\ status r = st
    /\ entitlements r =
         default [] (set_opt (d_entitlements data)
                             (collection w !! uid ≫= d_entitlements))
    /\ current_product_id r =
         default None (set_opt (d_current_product_id data)
                               (collection w !! uid ≫= d_current_product_id))
    /\ expires_at r =
         default None (set_opt (fmap (M:=option) bson_datetime <$> d_expires_at data)
                               (collection w !! uid ≫= d_expires_at)).
Proof.
  intros Hst.
  destruct (upsert_world_lookup uid data w)
    as (d' & Hd' & Hu & Hs & He & Hp & Hx & _).
  assert (Hds : doc_status d' = Some st).
  { unfold doc_status. rewrite Hs, Hst. simpl. apply parse_status_value. }
  destruct (get_subscription_total uid uid d' st _ Hd' Hu Hds) as (r & w' & Hg & Hv).
  destruct (validate_inv _ _ _ _ Hv) as (_ & Hrs & Hre & Hrp & Hrx & _ & Hc).
  exists r, w'. rewrite upsert_eq. split; [exact Hg|]. split; [exact Hc|].
  split; [congruence|]. rewrite Hre, Hrp, Hrx, He, Hp, Hx. repeat split.
Qed.

(** The same, with the document the store holds afterwards: the record
    handed back is that document, read. *)
Lemma upsert_outcome (uid : string) (data : Doc) (st : SubscriptionStatus)
    (w : World) :
  d_status data = Some (value st) ->
  exists d' r w',
    upsert_subscription uid data w = (Ok (Some r), w')
    /\ collection w' !! uid = Some d'
    /\ d_status d' = Some (value st)
    /\ d_entitlements d' =
         set_opt (d_entitlements data) (collection w !! uid ≫= d_entitlements)
    /\ d_current_product_id d' =
         set_opt (d_current_product_id data)
                 (collection w !! uid ≫= d_current_product_id)
    /\ d_expires_at d' =
         set_opt (fmap (M:=option) bson_datetime <$> d_expires_at data)
                 (collection w !! uid ≫= d_expires_at)
    /\ status r = st
    /\ entitlements r = default [] (d_entitlements d')
    /\ current_product_id r = default None (d_current_product_id d')
    /\ expires_at r = default None (d_expires_at d').
Proof.
  intros Hst.
  destruct (upsert_world_lookup uid data w)
    as (d' & Hd' & Hu & Hs & He & Hp & Hx & _).
  assert (Hs' : d_status d' = Some (value st)) by (now rewrite Hs, Hst).
  assert (Hds : doc_status d' = Some st).
  { unfold doc_status. rewrite Hs'. apply parse_status_value. }
  destruct (get_subscription_total uid uid d' st _ Hd' Hu Hds) as (r & w' & Hg & Hv).
  destruct (validate_inv _ _ _ _ Hv) as (_ & Hrs & Hre & Hrp & Hrx & _ & Hc).
  exists d', r, w'. rewrite upsert_eq. split; [exact Hg|].
  split; [now rewrite Hc|].
  repeat split; try assumption. congruence.
Qed.

(** The store keeps the whole milliseconds of a [datetime]: at most one
    millisecond is lost, and nothing of a whole number of them. *)
Lemma bson_datetime_spec (t : datetime) :
  t - US_PER_MS < bson_datetime t <= t.
Proof.
  unfold bson_datetime, US_PER_MS.
  pose proof (Z.div_mod t 1000 ltac:(lia)).
  pose proof (Z.mod_pos_bound t 1000 ltac:(lia)). lia.
Qed.

Lemma bson_datetime_ms (ms : Z) :
  bson_datetime (ms * US_PER_MS) = ms * US_PER_MS.
Proof.
  unfold bson_datetime, US_PER_MS. now rewrite Z.div_mul by lia.
Qed.

Lemma expires_at_of_absent (e : WebhookEvent) :
  truthy_opt_int (expiration_at_ms e) = false -> expires_at_of e = Ok None.
Proof.
  unfold expires_at_of, truthy_opt_int.
  destruct (expiration_at_ms e) as [ms|]; [|reflexivity]. now intros ->.
Qed.

(** C6. A cancellation of an existing record leaves, in the store, the
    entitlements the record had (written again) and its product, with
    the status cancelled and the event's expiry (or, when the event's
    expiry is no timestamp, raises before anything is written).  An
    expiration leaves a document that is expired, with no entitlements,
    no product, and as [expires_at] the clock reading of the handler, in
    the whole milliseconds the store keeps.  The record handed back is
    that document. *)
Theorem cancellation_keeps_expiration_clears (e : WebhookEvent) (w : World) :
  identity_of e <> "" ->
  (event_type e = "CANCELLATION" ->
   forall d r w1,
     collection w !! identity_of e = Some d ->
     get_subscription_by_user_id (identity_of e) w = (Ok (Some r), w1) ->
     match expires_at_of e with
     | Ok exp =>
         exists d' r' w',
           handle_webhook_event e w = (Ok (Some r'), w')
           /\ collection w' !! identity_of e = Some d'
           /\ d_status d' = Some (value CANCELLED)
           /\ d_entitlements d' = Some (default [] (d_entitlements d))
           /\ d_current_product_id d' = d_current_product_id d
           /\ d_expires_at d' = Some (bson_datetime <$> exp)
           /\ status r' = CANCELLED
           /\ entitlements r' = entitlements r
           /\ current_product_id r' = current_product_id r
           /\ expires_at r' = bson_datetime <$> exp
     | Raise err => handle_webhook_event e w = (Raise err, w)
     end)
  /\ (event_type e = "EXPIRATION" ->
      exists d' r w',
        handle_webhook_event e w = (Ok (Some r), w')
        /\ collection w' !! identity_of e = Some d'
        /\ d_status d' = Some (value EXPIRED)
        /\ d_entitlements d' = Some []
        /\ d_current_product_id d' = Some None
        /\ d_expires_at d' = Some (Some (bson_datetime (now w)))
        /\ now w - US_PER_MS < bson_datetime (now w) <= now w
        /\ status r = EXPIRED
        /\ entitlements r = []
        /\ current_product_id r = None
        /\ expires_at r = Some (bson_datetime (now w))).
Proof.
  intros Hid. rewrite handle_webhook_event_eq, (truthy_str_true _ Hid). split.
  - intros -> d r w1 Hd Hget.
    change (handlers !! "CANCELLATION") with (Some _handle_cancellation).
    unfold _handle_cancellation. rewrite lift_bind.
    destruct (expires_at_of e) as [exp|err]; [|reflexivity].
    rewrite (bind_ok _ _ _ _ _ Hget).
    destruct (get_subscription_inv _ _ _ _ Hget) as (d0 & Hd0 & Hv).
    rewrite Hd in Hd0. inversion Hd0; subst d0. clear Hd0.
    destruct (validate_inv _ _ _ _ Hv) as (_ & _ & Hre & Hrp & _ & _ & Hc).
    match goal with
    | |- context [upsert_subscription ?u ?data w1] =>
        destruct (upsert_outcome u data CANCELLED w1 eq_refl)
          as (d' & r' & w' & E & Hd' & Hs & He & Hp & Hx & Hrs & Hre' & Hrp' & Hrx')
    end.
    cbn [d_entitlements d_current_product_id d_expires_at set_opt] in He, Hp, Hx.
    rewrite Hc, Hd in Hp. cbn in Hp, Hx.
    exists d', r', w'. split; [exact E|]. split; [exact Hd'|].
    split; [exact Hs|]. split; [now rewrite He, Hre|]. split; [exact Hp|].
    split; [exact Hx|]. split; [exact Hrs|].
    split; [now rewrite Hre', He|]. split; [now rewrite Hrp', Hp, Hrp|].
    now rewrite Hrx', Hx.
  - intros ->.
    change (handlers !! "EXPIRATION") with (Some _handle_expiration).
    unfold _handle_expiration.
    rewrite (bind_ok utcnow _ w (now w) (tick w) eq_refl).
    match goal with
    | |- context [upsert_subscription ?u ?data (tick w)] =>
        destruct (upsert_outcome u data EXPIRED (tick w) eq_refl)
          as (d' & r' & w' & E & Hd' & Hs & He & Hp & Hx & Hrs & Hre' & Hrp' & Hrx')
    end.
    cbn in He, Hp, Hx.
    exists d', r', w'. split; [exact E|]. split; [exact Hd'|].
    split; [exact Hs|]. split; [exact He|]. split; [exact Hp|].
    split; [exact Hx|]. split; [apply bson_datetime_spec|].
    split; [exact Hrs|]. split; [now rewrite Hre', He|].
    split; [now rewrite Hrp', Hp | now rewrite Hrx', Hx].
Qed.

Lemma cancellation_keeps_expiration_clears_witness :
  (exists d' r' w',
      handle_webhook_event ev_cancellation w_purchased = (Ok (Some r'), w')
      /\ collection w' !! "user_123" = Some d'
      /\ d_status d' = Some "cancelled"
      /\ d_entitlements d' = Some ["pro"]
      /\ d_current_product_id d' = Some (Some "dumplin-pro-monthly")
      /\ d_expires_at d' = Some (Some 1735689600000000))
  /\ (exists d' r w',
        handle_webhook_event ev_expiration w_purchased_odd = (Ok (Some r), w')
        /\ collection w' !! "user_123" = Some d'
        /\ d_status d' = Some "expired"
        /\ d_entitlements d' = Some []
        /\ d_current_product_id d' = Some None
        /\ d_expires_at d' = Some (Some 1733000100000000)
        /\ expires_at r = Some 1733000100000000).
Proof.
  assert (Hc : identity_of ev_cancellation <> "") by (vm_compute; discriminate).
  assert (Hx : identity_of ev_expiration <> "") by (vm_compute; discriminate).
  split.
  - assert (G : exists d r w1,
               collection w_purchased !! identity_of ev_cancellation = Some d
               /\ get_subscription_by_user_id (identity_of ev_cancellation)
                    w_purchased = (Ok (Some r), w1)
               /\ d_entitlements d = Some ["pro"]
               /\ d_current_product_id d = Some (Some "dumplin-pro-monthly"))
      by (eexists _, _, _; repeat split; vm_compute; reflexivity).
    destruct G as (d & r & w1 & Gd & G & Ge & Gp).
    pose proof (proj1 (cancellation_keeps_expiration_clears
                         ev_cancellation w_purchased Hc) eq_refl d r w1 Gd G) as H.
    assert (X : expires_at_of ev_cancellation = Ok (Some 1735689600000000))
      by (vm_compute; reflexivity).
    rewrite X in H.
    destruct H as (d' & r' & w' & E & Hd' & Hs & He & Hp & Hexp & _).
    exists d', r', w'. rewrite Ge in He. rewrite Gp in Hp.
    repeat split; assumption.
  - destruct (proj2 (cancellation_keeps_expiration_clears
                       ev_expiration w_purchased_odd Hx) eq_refl)
      as (d' & r & w' & E & Hd' & Hs & He & Hp & Hexp & _ & _ & _ & _ & Hr).
    exists d', r, w'. repeat split; assumption.
Defined.

(* ===================================================================== *)
(** * An event without an expiry *)
(* ===================================================================== *)

(** C5 as the specification words it fails: the purchase left
    [expires_at] at 2025-01-01; a renewal without [expiration_at_ms] does
    not keep that value, the record's [expires_at] is [None] afterwards. *)
Lemma expires_at_unchanged_counterexample :
  event_type ev_renewal_no_expiry = "RENEWAL"
  /\ expiration_at_ms ev_renewal_no_expiry = None
  /\ expires_at <$> record_of "user_123" w_purchased =
       Some (Some 1735689600000000)
  /\ expires_at <$> record_of "user_123"
                      (snd (handle_webhook_event ev_renewal_no_expiry w_purchased)) =
       Some None.
Proof. repeat split; vm_compute; reflexivity. Qed.

(** For an activating event without an expiry, closes the case of one
    handler. *)
Ltac expiry_absent_case Hexp :=
  rewrite lift_bind, (expires_at_of_absent _ Hexp);
  match goal with
  | |- context [upsert_subscription ?u ?data ?w] =>
      let d' := fresh "d'" in
      let r := fresh "r" in
      let w' := fresh "w'" in
      let E := fresh "E" in
      let Hd := fresh "Hd" in
      let Hx := fresh "Hx" in
      let Hrx := fresh "Hrx" in
      destruct (upsert_outcome u data _ w eq_refl)
        as (d' & r & w' & E & Hd & _ & _ & _ & Hx & _ & _ & _ & Hrx);
      cbn in Hx; exists d', r, w';
      split; [exact E|]; split; [exact Hd|]; split; [exact Hx|];
      now rewrite Hrx, Hx
  end.

(** C5, as the code has it.  When an INITIAL_PURCHASE,
    NON_RENEWING_PURCHASE, RENEWAL, UNCANCELLATION or PRODUCT_CHANGE event
    carries no expiry, the patch still has the key [expires_at], with
    [None]: whatever the record held before, the stored document has
    [expires_at = None] afterwards, and so has the record handed back. *)
Theorem expires_at_cleared_when_absent (e : WebhookEvent) (w : World) :
  identity_of e <> "" ->
  event_type e ∈ activating ->
  expiration_at_ms e = None ->
  exists d' r w',
    handle_webhook_event e w = (Ok (Some r), w')
    /\ collection w' !! identity_of e = Some d'
    /\ d_expires_at d' = Some None
    /\ expires_at r = None.
Proof.
  intros Hid Ht Hnone.
  assert (Hexp : truthy_opt_int (expiration_at_ms e) = false)
    by (now rewrite Hnone).
  rewrite handle_webhook_event_eq, (truthy_str_true _ Hid).
  unfold activating in Ht.
  repeat (apply elem_of_cons in Ht as [Ht|Ht]); try (now apply elem_of_nil in Ht);
    rewrite Ht.
  - change (handlers !! "INITIAL_PURCHASE") with (Some _handle_initial_purchase).
    unfold _handle_initial_purchase. expiry_absent_case Hexp.
  - change (handlers !! "NON_RENEWING_PURCHASE") with (Some _handle_initial_purchase).
    unfold _handle_initial_purchase. expiry_absent_case Hexp.
  - change (handlers !! "RENEWAL") with (Some _handle_renewal).
    unfold _handle_renewal. expiry_absent_case Hexp.
  - change (handlers !! "UNCANCELLATION") with (Some _handle_uncancellation).
    unfold _handle_uncancellation. expiry_absent_case Hexp.
  - change (handlers !! "PRODUCT_CHANGE") with (Some _handle_product_change).
    unfold _handle_product_change. expiry_absent_case Hexp.
Qed.

Lemma expires_at_cleared_when_absent_witness :
  (exists d, collection w_purchased !! "user_123" = Some d
             /\ d_expires_at d = Some (Some 1735689600000000))
  /\ exists d' r w',
       handle_webhook_event ev_renewal_no_expiry w_purchased = (Ok (Some r), w')
       /\ collection w' !! "user_123" = Some d'
       /\ d_expires_at d' = Some None
       /\ expires_at r = None.
Proof.
  split; [eexists; split; vm_compute; reflexivity|].
  apply (expires_at_cleared_when_absent ev_renewal_no_expiry w_purchased).
  - vm_compute. discriminate.
  - vm_compute. apply list_elem_of_further, list_elem_of_further, list_elem_of_here.
  - reflexivity.
Defined.

(* ===================================================================== *)
(** * Replaying an event *)
(* ===================================================================== *)

Lemma set_opt_absorb {A} (a b : option A) : set_opt a (set_opt a b) = set_opt a b.
Proof. now destruct a. Qed.

Lemma apply_set_absorb (data d : Doc) :
  apply_set data (apply_set data d) = apply_set data d.
Proof. unfold apply_set. simpl. now rewrite !set_opt_absorb. Qed.

(** Writing the patch again over a record it created changes nothing,
    for a patch without a creation stamp of its own: that stamp is the
    only key the second patch lacks. *)
Lemma apply_set_absorb_created (t : datetime) (data d : Doc) :
  d_created_at data = None ->
  apply_set data (apply_set (set_created_at t data) d) =
    apply_set (set_created_at t data) d.
Proof.
  intros Hc. unfold apply_set. simpl. rewrite !set_opt_absorb.
  now rewrite Hc.
Qed.

Lemma upsert_world_frozen (uid : string) (data : Doc) (w : World) :
  elapse w = [] ->
  elapse (upsert_world uid data w) = [] /\ now (upsert_world uid data w) = now w.
Proof.
  intros F. unfold upsert_world. rewrite (tick_frozen w F).
  destruct (collection w !! uid); simpl; rewrite ?(tick_frozen w F); auto.
Qed.

Lemma upsert_world_idem (uid : string) (data : Doc) (w : World) :
  d_created_at data = None ->
  elapse w = [] ->
  upsert_world uid data (upsert_world uid data w) = upsert_world uid data w.
Proof.
  intros Hc F.
  destruct (upsert_world_frozen uid data w F) as [F1 N1].
  unfold upsert_world at 1. rewrite (tick_frozen _ F1), N1.
  unfold upsert_world. rewrite !(tick_frozen w F).
  destruct (collection w !! uid) as [d|]; simpl;
    rewrite lookup_insert_eq, insert_insert_eq; unfold set_collection; simpl;
    do 2 f_equal.
  - apply apply_set_absorb.
  - change (bson_encode (set_created_at ?t ?x))
      with (set_created_at (bson_datetime t) (bson_encode x)).
    apply apply_set_absorb_created. cbn. now rewrite Hc.
Qed.

Lemma upsert_snd_frozen (uid : string) (data : Doc) (w : World) :
  elapse w = [] ->
  snd (upsert_subscription uid data w) = upsert_world uid data w.
Proof.
  intros F. rewrite upsert_eq. apply get_subscription_frozen.
  now apply upsert_world_frozen.
Qed.

(** The merge-upsert overwrites: with the clock standing still, a second
    upsert of the same patch (one without a creation stamp, as all the
    handlers' are) hands back the same record and leaves the
    same world as the first. *)
Lemma upsert_idem (uid : string) (data : Doc) (w : World) :
  d_created_at data = None ->
  elapse w = [] ->
  upsert_subscription uid data (snd (upsert_subscription uid data w)) =
    upsert_subscription uid data w.
Proof.
  intros Hc F. rewrite (upsert_snd_frozen _ _ _ F).
  rewrite (upsert_eq uid data (upsert_world uid data w)).
  rewrite (upsert_world_idem _ _ _ Hc F). symmetry. apply upsert_eq.
Qed.

Lemma get_subscription_result_frozen (uid : string) (w : World) :
  elapse w = [] ->
  get_subscription_by_user_id uid w =
    (fst (get_subscription_by_user_id uid w), w).
Proof.
  intros F. rewrite <- (get_subscription_frozen uid w F) at 3.
  now destruct (get_subscription_by_user_id uid w).
Qed.

Lemma upsert_again (uid : string) (data : Doc) (w : World) :
  d_created_at data = None ->
  elapse w = [] ->
  upsert_subscription uid data (upsert_world uid data w) =
    upsert_subscription uid data w.
Proof.
  intros Hc F. rewrite <- (upsert_snd_frozen uid data w F).
  now apply upsert_idem.
Qed.

Lemma cancellation_idem (uid : string) (e : WebhookEvent) (w : World) :
  elapse w = [] ->
  _handle_cancellation uid e (snd (_handle_cancellation uid e w)) =
    _handle_cancellation uid e w.
Proof.
  intros F. unfold _handle_cancellation. rewrite !lift_bind.
  destruct (expires_at_of e) as [exp|err]; [|reflexivity].
  pose proof (get_subscription_result_frozen uid w F) as G.
  destruct (fst (get_subscription_by_user_id uid w)) as [existing|err].
  - rewrite (bind_ok _ _ _ _ _ G).
    match goal with
    | |- context [upsert_subscription uid ?data w] => set (patch := data)
    end.
    rewrite (upsert_snd_frozen uid patch w F).
    destruct (upsert_result uid patch CANCELLED w eq_refl)
      as (r & w' & E & _ & _ & He & _).
    rewrite upsert_eq in E.
    destruct (upsert_world_frozen uid patch w F) as [F1 _].
    rewrite (get_subscription_result_frozen _ _ F1) in E.
    assert (G1 : get_subscription_by_user_id uid (upsert_world uid patch w) =
                   (Ok (Some r), upsert_world uid patch w)).
    { rewrite (get_subscription_result_frozen _ _ F1). now inversion E. }
    rewrite (bind_ok _ _ _ _ _ G1). simpl in He. rewrite He. simpl.
    now apply upsert_again.
  - rewrite (bind_raise _ _ _ _ _ G). simpl.
    now rewrite (bind_raise _ _ _ _ _ G).
Qed.

Lemma expiration_idem (uid : string) (e : WebhookEvent) (w : World) :
  elapse w = [] ->
  _handle_expiration uid e (snd (_handle_expiration uid e w)) =
    _handle_expiration uid e w.
Proof.
  intros F. unfold _handle_expiration.
  rewrite (bind_ok utcnow _ w (now w) w) by (unfold utcnow; now rewrite tick_frozen).
  match goal with
  | |- context [upsert_subscription uid ?data w] => set (patch := data)
  end.
  rewrite (upsert_snd_frozen uid patch w F).
  destruct (upsert_world_frozen uid patch w F) as [F1 N1].
  rewrite (bind_ok utcnow _ (upsert_world uid patch w) (now w)
             (upsert_world uid patch w))
    by (unfold utcnow; now rewrite tick_frozen, N1).
  now apply upsert_again.
Qed.

(** With the clock standing still, running a handler again in the world
    it left gives the result and the world of the first run. *)
Lemma handler_idem (t : string) (h : Handler) :
  handlers !! t = Some h ->
  forall (uid : string) (e : WebhookEvent) (w : World),
    elapse w = [] ->
    h uid e (snd (h uid e w)) = h uid e w.
Proof.
  intros Hh uid e w F. handler_cases Hh.
  all: try (unfold _handle_initial_purchase, _handle_renewal,
              _handle_uncancellation, _handle_product_change;
            rewrite !lift_bind; destruct (expires_at_of e) as [exp|err];
            [now apply upsert_idem | reflexivity]).
  - now apply cancellation_idem.
  - now apply expiration_idem.
  - unfold _handle_billing_issue. now rewrite get_subscription_frozen.
  - unfold _handle_subscriber_alias. now apply upsert_idem.
  - now apply cancellation_idem.
Qed.

(** C3. With the clock standing still, handling an event a second time
    gives the same result and leaves the same world (hence the same
    records) as handling it once: the merge-upsert overwrites, it does not
    accumulate.  This holds for every event, the initial purchase
    included. *)
Theorem replay_converges (e : WebhookEvent) (w : World) :
  elapse w = [] ->
  handle_webhook_event e (snd (handle_webhook_event e w)) =
    handle_webhook_event e w
  /\ snd (handle_webhook_event e (snd (handle_webhook_event e w))) =
       snd (handle_webhook_event e w).
Proof.
  intros F.
  assert (E : handle_webhook_event e (snd (handle_webhook_event e w)) =
                handle_webhook_event e w).
  { rewrite !handle_webhook_event_eq.
    destruct (truthy_str (identity_of e)); [|reflexivity].
    destruct (handlers !! event_type e) as [h|] eqn:Hh; [|reflexivity].
    now apply (handler_idem _ h Hh). }
  split; [exact E | now rewrite E].
Qed.

Lemma replay_converges_witness :
  event_type ev_purchase = "INITIAL_PURCHASE"
  /\ collection (snd (handle_webhook_event ev_purchase
                        (snd (handle_webhook_event ev_purchase w_still)))) =
       collection (snd (handle_webhook_event ev_purchase w_still))
  /\ is_Some (record_of "user_123" (snd (handle_webhook_event ev_purchase w_still))).
Proof.
  split; [reflexivity|]. split.
  - now rewrite (proj2 (replay_converges ev_purchase w_still eq_refl)).
  - vm_compute. eexists. reflexivity.
Defined.

(* ===================================================================== *)
(** * The webhook endpoint and its signature check *)
(* ===================================================================== *)

Section Signature.

Variable hmac_sha256_hexdigest : list byte -> list byte -> string.
Variable event_of_body : list byte -> Result WebhookEvent.
Variable str : Exception -> string.

(** X17. With a secret configured, a request whose signature header is
    present, not empty, and differs from the hex HMAC-SHA256 of the body
    is refused with 401 before anything is parsed or written. *)
Lemma wrong_signature_rejected
    (settings : Settings) (secret signature : string) (body : list byte)
    (w : World) :
  REVENUECAT_WEBHOOK_SECRET settings = Some secret ->
  secret <> "" -> signature <> "" ->
  is_ascii signature = true ->
  is_ascii (hmac_sha256_hexdigest (String.list_byte_of_string secret) body) = true ->
  signature <> hmac_sha256_hexdigest (String.list_byte_of_string secret) body ->
  receive_revenuecat_webhook settings hmac_sha256_hexdigest event_of_body str
    body (Some signature) w =
    (Raise (HTTPException 401 "Invalid signature"), w).
Proof.
  intros Hs Hne Hsig Ha Hb Hneq.
  unfold receive_revenuecat_webhook, verify_webhook_signature.
  rewrite Hs. simpl. rewrite !(truthy_str_true _ Hne), (truthy_str_true _ Hsig).
  simpl. unfold compare_digest. rewrite Ha, Hb. simpl.
  destruct (String.eqb _ signature) eqn:E.
  - apply String.eqb_eq in E. congruence.
  - reflexivity.
Qed.

(** X18. With a secret configured, a request whose signature header is
    the hex HMAC-SHA256 of the body passes the check and is processed. *)
Lemma right_signature_accepted
    (settings : Settings) (secret : string) (body : list byte) (w : World) :
  REVENUECAT_WEBHOOK_SECRET settings = Some secret ->
  secret <> "" ->
  let signature :=
    hmac_sha256_hexdigest (String.list_byte_of_string secret) body in
  signature <> "" -> is_ascii signature = true ->
  receive_revenuecat_webhook settings hmac_sha256_hexdigest event_of_body str
    body (Some signature) w =
  receive_revenuecat_webhook default_settings hmac_sha256_hexdigest
    event_of_body str body None w.
Proof.
  intros Hs Hne signature Hsig Ha.
  unfold receive_revenuecat_webhook, verify_webhook_signature.
  rewrite Hs. simpl. rewrite !(truthy_str_true _ Hne), (truthy_str_true _ Hsig).
  simpl. unfold compare_digest. fold signature. rewrite Ha. simpl.
  now rewrite String.eqb_refl.
Qed.

(** C8, where the code departs from it.  With a secret configured, a
    request WITHOUT the signature header is not verified and not
    refused: it is processed exactly as when no secret is configured.
    Here an unsigned purchase event is answered with 200 and creates
    the record of the user. *)
Theorem unsigned_webhook_is_processed (body : list byte) (w : World) :
  receive_revenuecat_webhook settings_with_secret hmac_sha256_hexdigest
    event_of_body str body None w =
  receive_revenuecat_webhook default_settings hmac_sha256_hexdigest
    event_of_body str body None w
  /\ receive_revenuecat_webhook settings_with_secret hmac_sha256_hexdigest
       (fun _ => Ok ev_purchase) str body None w_still =
     (Ok {| status_code := 200;
            content := [("status", "ok"); ("event_type", "INITIAL_PURCHASE")] |},
      snd (handle_webhook_event ev_purchase w_still))
  /\ record_of "user_123" w_still = None
  /\ status <$> record_of "user_123"
                  (snd (handle_webhook_event ev_purchase w_still)) =
       Some ACTIVE.
Proof.
  split; [reflexivity|]. split; [|split].
  - unfold receive_revenuecat_webhook.
    change (truthy_opt_str (@None string)) with false.
    rewrite andb_false_r, bind_ret. unfold try_except. rewrite lift_bind.
    destruct (handle_webhook_event ev_purchase w_still) as [[r|err] w'] eqn:E.
    + now rewrite (bind_ok _ _ _ _ _ E).
    + exfalso. vm_compute in E. discriminate.
  - reflexivity.
  - vm_compute. reflexivity.
Qed.

End Signature.

(* ===================================================================== *)
(** * Records persist, and the reachable store always validates *)
(* ===================================================================== *)

(** A handler leaves the collection alone, or it is one merge-upsert with
    a patch that has no [user_id] or timestamp of its own and a proper
    status, if any. *)
Lemma handler_patch_effect (t : string) (h : Handler) :
  handlers !! t = Some h ->
  forall (uid : string) (e : WebhookEvent) (w : World),
    collection (snd (h uid e w)) = collection w
    \/ exists data w1,
         collection w1 = collection w
         /\ handler_patch data
         /\ collection (snd (h uid e w)) = collection (upsert_world uid data w1).
Proof.
  intros Hh uid e w. handler_cases Hh.
  all: try (unfold _handle_initial_purchase, _handle_renewal,
              _handle_uncancellation, _handle_product_change;
            rewrite lift_bind; destruct (expires_at_of e) as [exp|err];
            [|left; reflexivity];
            right; eexists _, w; split; [reflexivity|];
            split; [|apply upsert_collection];
            unfold handler_patch; simpl; repeat split;
            try rewrite parse_status_value; eauto).
  - unfold _handle_cancellation. rewrite lift_bind.
    destruct (expires_at_of e) as [exp|err]; [|left; reflexivity].
    pose proof (get_subscription_collection uid w) as Hc.
    destruct (get_subscription_by_user_id uid w) as [[ex|err] w1] eqn:G;
      simpl in Hc.
    + rewrite (bind_ok _ _ _ _ _ G).
      right. eexists _, w1. split; [exact Hc|].
      split; [|apply upsert_collection].
      unfold handler_patch; simpl; repeat split. eauto.
    + rewrite (bind_raise _ _ _ _ _ G). left. exact Hc.
  - unfold _handle_expiration.
    rewrite (bind_ok utcnow _ w (now w) (tick w) eq_refl).
    right. eexists _, (tick w). split; [apply collection_tick|].
    split; [|apply upsert_collection].
    unfold handler_patch; simpl; repeat split. eauto.
  - left. apply get_subscription_collection.
  - right. eexists _, w. split; [reflexivity|].
    split; [|apply upsert_collection].
    unfold handler_patch; simpl; repeat split.
  - unfold _handle_cancellation. rewrite lift_bind.
    destruct (expires_at_of e) as [exp|err]; [|left; reflexivity].
    pose proof (get_subscription_collection uid w) as Hc.
    destruct (get_subscription_by_user_id uid w) as [[ex|err] w1] eqn:G;
      simpl in Hc.
    + rewrite (bind_ok _ _ _ _ _ G).
      right. eexists _, w1. split; [exact Hc|].
      split; [|apply upsert_collection].
      unfold handler_patch; simpl; repeat split. eauto.
    + rewrite (bind_raise _ _ _ _ _ G). left. exact Hc.
Qed.

(** What [handle_webhook_event] does to the collection, whatever the event. *)
Lemma handle_webhook_event_effect (e : WebhookEvent) (w : World) :
  collection (snd (handle_webhook_event e w)) = collection w
  \/ exists data w1,
       collection w1 = collection w
       /\ handler_patch data
       /\ collection (snd (handle_webhook_event e w)) =
            collection (upsert_world (identity_of e) data w1).
Proof.
  rewrite handle_webhook_event_eq.
  destruct (truthy_str (identity_of e)); [|now left].
  destruct (handlers !! event_type e) as [h|] eqn:Hh; [|now left].
  exact (handler_patch_effect _ h Hh (identity_of e) e w).
Qed.

(** X1. No event deletes a record, and no event changes the creation
    stamp of a record that exists: [created_at] is written only when the
    upsert finds no document. *)
Theorem existing_records_persist
    (e : WebhookEvent) (w : World) (k : string) (d : Doc) :
  collection w !! k = Some d ->
  exists d',
    collection (snd (handle_webhook_event e w)) !! k = Some d'
    /\ d_created_at d' = d_created_at d.
Proof.
  intros Hd.
  destruct (handle_webhook_event_effect e w)
    as [E | (data & w1 & Ec & (_ & Hcr & _) & E)]; rewrite E.
  - exists d. now split.
  - destruct (decide (k = identity_of e)) as [->|Hne].
    + unfold upsert_world. rewrite Ec, Hd. simpl. rewrite lookup_insert_eq.
      eexists. split; [reflexivity|]. simpl. now rewrite Hcr.
    + rewrite upsert_world_frame by exact Hne. rewrite Ec. exists d. now split.
Qed.

Lemma existing_records_persist_witness :
  exists d d',
    collection w_purchased !! "user_123" = Some d
    /\ collection w_expired !! "user_123" = Some d'
    /\ d_created_at d' = d_created_at d
    /\ d_created_at d = Some 1733000001000000.
Proof.
  assert (H : exists d, collection w_purchased !! "user_123" = Some d
                        /\ d_created_at d = Some 1733000001000000)
    by (eexists; split; vm_compute; reflexivity).
  destruct H as (d & Hd & Hc).
  destruct (existing_records_persist ev_expiration w_purchased "user_123" d Hd)
    as (d' & Hd' & E).
  exists d, d'. repeat split; assumption.
Defined.







(* ===================================================================== *)
(** * The merge-upsert: stamps and frame *)
(* ===================================================================== *)

(** A clock that is never set back does not go back over one reading. *)
Lemma clock_forward_tick (w : World) :
  clock_forward w -> clock_forward (tick w) /\ now w <= now (tick w).
Proof.
  unfold clock_forward, tick. intros H.
  destruct (elapse w) as [|d ds] eqn:E.
  - rewrite E. split; [exact H | lia].
  - inversion H; subst. simpl. split; [assumption | lia].
Qed.

(** Nor over a validation, which reads the clock at most twice. *)
Lemma clock_forward_validate (d : Doc) (w : World) :
  clock_forward w ->
  clock_forward (snd (validate d w)) /\ now w <= now (snd (validate d w)).
Proof.
  intros H.
  destruct (clock_forward_tick w H) as [H1 L1].
  destruct (clock_forward_tick (tick w) H1) as [H2 L2].
  unfold validate, bind, ret, raise, utcnow.
  destruct (d_user_id d); [|simpl; split; [exact H | lia]].
  destruct (d_status d) as [v|]; [destruct (parse_status v)|];
    destruct (d_created_at d); destruct (d_updated_at d);
    simpl; (split; [assumption | lia]).
Qed.

Lemma clock_forward_get (uid : string) (w : World) :
  clock_forward w ->
  clock_forward (snd (get_subscription_by_user_id uid w))
  /\ now w <= now (snd (get_subscription_by_user_id uid w)).
Proof.
  intros H. destruct (collection w !! uid) as [d|] eqn:Hd.
  - rewrite (get_subscription_some _ _ _ Hd). unfold bind, ret.
    pose proof (clock_forward_validate d w H) as Hv.
    destruct (validate d w) as [[r|e] w']; exact Hv.
  - rewrite (get_subscription_none _ _ Hd). simpl. split; [exact H | lia].
Qed.

(** Validation takes the timestamps a document has. *)
Lemma validate_stamps (d : Doc) (w w' : World) (r : SubscriptionInDB) :
  validate d w = (Ok r, w') ->
  (forall t, d_created_at d = Some t -> created_at r = t)
  /\ (forall t, d_updated_at d = Some t -> updated_at r = t).
Proof.
  unfold validate, bind, ret, raise, utcnow.
  destruct (d_user_id d); [|discriminate].
  destruct (d_status d) as [v|]; [destruct (parse_status v); [|discriminate]|];
    destruct (d_created_at d); destruct (d_updated_at d);
    simpl; intros H; inversion H; subst; simpl;
    (split; intros t0 E; congruence).
Qed.

Lemma upsert_world_stamps (uid : string) (data : Doc) (w : World) :
  exists d',
    collection (upsert_world uid data w) !! uid = Some d'
    /\ d_updated_at d' = Some (bson_datetime (now w))
    /\ (collection w !! uid = None ->
        d_created_at d' = Some (bson_datetime (now (tick w))))
    /\ (forall d, collection w !! uid = Some d ->
                  d_created_at d' =
                    set_opt (bson_datetime <$> d_created_at data) (d_created_at d)).
Proof.
  unfold upsert_world.
  destruct (collection w !! uid) as [d|]; simpl;
    (eexists; split; [apply lookup_insert_eq|]); simpl.
  - split; [reflexivity|]. split; [discriminate|].
    intros d0 E. now inversion E.
  - split; [reflexivity|]. split; [reflexivity|]. discriminate.
Qed.

(** X3. [upsert_subscription] with a patch that sets a status stamps the
    stored document, in the whole milliseconds the store keeps:
    [updated_at] is the clock reading of the call; [created_at] is the
    next reading when no record existed, and the stored stamp otherwise.
    The record handed back carries these stamps, and no other user's
    record is touched. *)
Theorem upsert_stamps_and_frame
    (uid : string) (data : Doc) (st : SubscriptionStatus) (w : World) :
  d_status data = Some (value st) ->
  d_created_at data = None ->
  exists d' r w',
    upsert_subscription uid data w = (Ok (Some r), w')
    /\ collection w' !! uid = Some d'
    /\ d_user_id d' = Some uid
    /\ d_updated_at d' = Some (bson_datetime (now w))
    /\ (collection w !! uid = None ->
        d_created_at d' = Some (bson_datetime (now (tick w))))
    /\ (forall d, collection w !! uid = Some d ->
                  d_created_at d' = d_created_at d)
    /\ user_id r = uid
    /\ updated_at r = bson_datetime (now w)
    /\ (collection w !! uid = None ->
        created_at r = bson_datetime (now (tick w)))
    /\ (forall d c, collection w !! uid = Some d -> d_created_at d = Some c ->
                    created_at r = c)
    /\ (forall k, k <> uid -> collection w' !! k = collection w !! k).
Proof.
  intros Hst Hcr.
  destruct (upsert_world_lookup uid data w) as (d' & Hd' & Hu & Hs & _).
  destruct (upsert_world_stamps uid data w) as (d2 & Hd2 & Hup & Hnew & Hold).
  rewrite Hd' in Hd2. inversion Hd2; subst d2. clear Hd2.
  assert (Hold' : forall d, collection w !! uid = Some d ->
                            d_created_at d' = d_created_at d).
  { intros d Hd. rewrite (Hold d Hd), Hcr. reflexivity. }
  assert (Hds : doc_status d' = Some st).
  { unfold doc_status. rewrite Hs, Hst. simpl. apply parse_status_value. }
  destruct (get_subscription_total uid uid d' st _ Hd' Hu Hds) as (r & w' & Hg & Hv).
  destruct (validate_inv _ _ _ _ Hv) as (Hru & _ & _ & _ & _ & _ & Hc).
  destruct (validate_stamps _ _ _ _ Hv) as (Hrc & Hrup).
  exists d', r, w'. rewrite upsert_eq. split; [exact Hg|].
  split; [now rewrite Hc|]. split; [exact Hu|]. split; [exact Hup|].
  split; [exact Hnew|]. split; [exact Hold'|].
  split; [congruence|]. split; [now apply Hrup|].
  split; [intros Hn; apply Hrc; now apply Hnew|].
  split.
  - intros d c Hd Hdc. apply Hrc. now rewrite (Hold' d Hd).
  - intros k Hk. rewrite Hc. now apply upsert_world_frame.
Qed.

Lemma upsert_stamps_and_frame_witness :
  exists d' r w',
    upsert_subscription "user_123"
      {| d_user_id := None; d_revenuecat_customer_id := None;
         d_status := Some "active"; d_entitlements := Some ["pro"];
         d_current_product_id := None; d_expires_at := None;
         d_created_at := None; d_updated_at := None |} w_start_odd =
      (Ok (Some r), w')
    /\ collection w' !! "user_123" = Some d'
    /\ d_updated_at d' = Some 1733000000000000
    /\ d_created_at d' = Some 1733000001000000
    /\ user_id r = "user_123"
    /\ updated_at r = 1733000000000000
    /\ created_at r = 1733000001000000.
Proof.
  destruct (upsert_stamps_and_frame "user_123"
              {| d_user_id := None; d_revenuecat_customer_id := None;
                 d_status := Some "active"; d_entitlements := Some ["pro"];
                 d_current_product_id := None; d_expires_at := None;
                 d_created_at := None; d_updated_at := None |}
              ACTIVE w_start_odd eq_refl eq_refl)
    as (d' & r & w' & E & Hd' & _ & Hup & Hnew & _ & Hu & Hrup & Hrnew & _).
  exists d', r, w'. split; [exact E|]. split; [exact Hd'|].
  split; [exact Hup|]. split; [exact (Hnew eq_refl)|].
  split; [exact Hu|]. split; [exact Hrup | exact (Hrnew eq_refl)].
Defined.

(* ===================================================================== *)
(** * What the activating events, the alias and a bad expiry do *)
(* ===================================================================== *)

Lemma entitlements_of_length (e : WebhookEvent) :
  (length (entitlements_of e) <= 1)%nat.
Proof.
  unfold entitlements_of.
  destruct (entitlement_id e) as [x|]; [destruct (truthy_str x)|]; simpl; lia.
Qed.

(** An expiry within 2^33 seconds of the epoch is taken over exactly. *)
Lemma expires_at_of_exact (e : WebhookEvent) (ms : Z) :
  expiration_at_ms e = Some ms -> ms <> 0 ->
  - EXACT_MS < ms < EXACT_MS ->
  expires_at_of e = Ok (Some (ms * US_PER_MS)).
Proof.
  intros Hms Hz Hr. unfold expires_at_of, truthy_int. rewrite Hms.
  rewrite (proj2 (Z.eqb_neq ms 0) Hz). cbn [negb].
  now rewrite (utcfromtimestamp_ms_exact ms Hr).
Qed.

(** The store keeps the millisecond of an expiry the event carries, or
    the millisecond before it. *)
Lemma expires_at_of_near (e : WebhookEvent) (ms : Z) (exp : option datetime) :
  expires_at_of e = Ok exp ->
  expiration_at_ms e = Some ms -> ms <> 0 ->
  bson_datetime <$> exp = Some (ms * US_PER_MS)
  \/ bson_datetime <$> exp = Some ((ms - 1) * US_PER_MS).
Proof.
  unfold expires_at_of, truthy_int. intros Hexp Hms Hz. rewrite Hms in Hexp.
  rewrite (proj2 (Z.eqb_neq ms 0) Hz) in Hexp. cbn [negb] in Hexp.
  destruct (utcfromtimestamp_ms ms) as [t|err] eqn:Et; [|discriminate].
  inversion Hexp; subst exp. simpl.
  assert (Hw : window_start ms = Some t) by (unfold window_start; now rewrite Et).
  destruct (window_start_near ms t Hw) as [B _].
  unfold bson_datetime, US_PER_MS in *.
  pose proof (Z.div_mod t 1000 ltac:(lia)).
  pose proof (Z.mod_pos_bound t 1000 ltac:(lia)).
  destruct (Z_le_dec (ms * 1000) t); [left | right]; f_equal; lia.
Qed.

(** For an activating event, closes the case of one handler. *)
Ltac activation_case Hexp Hexact Hnear :=
  rewrite lift_bind, Hexp;
  match goal with
  | |- context [upsert_subscription ?u ?data ?w] =>
      let d' := fresh "d'" in
      let r := fresh "r" in
      let w' := fresh "w'" in
      let E := fresh "E" in
      let Hd := fresh "Hd" in
      let Hs := fresh "Hs" in
      let He := fresh "He" in
      let Hp := fresh "Hp" in
      let Hx := fresh "Hx" in
      let Hrs := fresh "Hrs" in
      let Hre := fresh "Hre" in
      let Hrp := fresh "Hrp" in
      let Hrx := fresh "Hrx" in
      destruct (upsert_outcome u data _ w eq_refl)
        as (d' & r & w' & E & Hd & Hs & He & Hp & Hx & Hrs & Hre & Hrp & Hrx);
      cbn in He, Hp, Hx;
      exists d', r, w';
      split; [exact E|]; split; [exact Hd|]; split; [exact Hs|];
      split; [exact He|]; split; [exact Hp|]; split; [exact Hx|];
      split; [exact Hrs|]; split; [now rewrite Hre, He|];
      split; [rewrite Hre, He; apply entitlements_of_length|];
      split; [now rewrite Hrp, Hp|]; split; [now rewrite Hrx, Hx|];
      split; rewrite Hrx, Hx; [exact Hexact | exact Hnear]
  end.

(** X4. An INITIAL_PURCHASE, NON_RENEWING_PURCHASE, RENEWAL,
    UNCANCELLATION or PRODUCT_CHANGE event with a usable expiry overwrites
    the stored document whatever it was (expired and invalid ones
    included): afterwards the status is trialing only for a purchase in a
    trial period and active otherwise, the entitlements are the first
    listed id alone (none when the list is empty or the id is the empty
    string), the product is the event's, and the expiry is the event's as
    [utcfromtimestamp] converts it and the store keeps it: the event's
    millisecond or the one before it, and between the years 1697 and 2242
    the event's millisecond exactly.  The record handed back is that
    document. *)
Theorem activation_overwrites
    (e : WebhookEvent) (w : World) (exp : option datetime) :
  identity_of e <> "" ->
  event_type e ∈ activating ->
  expires_at_of e = Ok exp ->
  exists d' r w',
    handle_webhook_event e w = (Ok (Some r), w')
    /\ collection w' !! identity_of e = Some d'
    /\ d_status d' = Some (value (activation_status e))
    /\ d_entitlements d' = Some (entitlements_of e)
    /\ d_current_product_id d' = Some (product_id e)
    /\ d_expires_at d' = Some (bson_datetime <$> exp)
    /\ status r = activation_status e
    /\ entitlements r = entitlements_of e
    /\ (length (entitlements r) <= 1)%nat
    /\ current_product_id r = product_id e
    /\ expires_at r = bson_datetime <$> exp
    /\ (forall ms,
          expiration_at_ms e = Some ms -> ms <> 0 ->
          - EXACT_MS < ms < EXACT_MS ->
          expires_at r = Some (ms * US_PER_MS))
    /\ (forall ms,
          expiration_at_ms e = Some ms -> ms <> 0 ->
          expires_at r = Some (ms * US_PER_MS)
          \/ expires_at r = Some ((ms - 1) * US_PER_MS)).
Proof.
  intros Hid Ht Hexp.
  pose proof (expires_at_of_near e) as Hnear0.
  assert (Hnear : forall ms,
             expiration_at_ms e = Some ms -> ms <> 0 ->
             bson_datetime <$> exp = Some (ms * US_PER_MS)
             \/ bson_datetime <$> exp = Some ((ms - 1) * US_PER_MS))
    by (intros ms; now apply Hnear0).
  clear Hnear0.
  assert (Hexact : forall ms,
             expiration_at_ms e = Some ms -> ms <> 0 ->
             - EXACT_MS < ms < EXACT_MS ->
             bson_datetime <$> exp = Some (ms * US_PER_MS)).
  { intros ms Hms Hz Hr.
    rewrite (expires_at_of_exact e ms Hms Hz Hr) in Hexp.
    inversion Hexp; subst exp. simpl. now rewrite bson_datetime_ms. }
  rewrite handle_webhook_event_eq, (truthy_str_true _ Hid).
  unfold activation_status, activating in *.
  repeat (apply elem_of_cons in Ht as [Ht|Ht]); try (now apply elem_of_nil in Ht);
    rewrite Ht.
  - change (handlers !! "INITIAL_PURCHASE") with (Some _handle_initial_purchase).
    unfold _handle_initial_purchase. simpl purchase_like. cbv iota.
    activation_case Hexp Hexact Hnear.
  - change (handlers !! "NON_RENEWING_PURCHASE") with (Some _handle_initial_purchase).
    unfold _handle_initial_purchase. simpl purchase_like. cbv iota.
    activation_case Hexp Hexact Hnear.
  - change (handlers !! "RENEWAL") with (Some _handle_renewal).
    unfold _handle_renewal. simpl purchase_like. cbv iota.
    activation_case Hexp Hexact Hnear.
  - change (handlers !! "UNCANCELLATION") with (Some _handle_uncancellation).
    unfold _handle_uncancellation. simpl purchase_like. cbv iota.
    activation_case Hexp Hexact Hnear.
  - change (handlers !! "PRODUCT_CHANGE") with (Some _handle_product_change).
    unfold _handle_product_change. simpl purchase_like. cbv iota.
    activation_case Hexp Hexact Hnear.
Qed.

Lemma activation_overwrites_witness :
  status <$> record_of "user_123" w_expired = Some EXPIRED
  /\ exists d' r w',
       handle_webhook_event ev_renewal_trial_two w_expired = (Ok (Some r), w')
       /\ collection w' !! "user_123" = Some d'
       /\ d_status d' = Some "active"
       /\ d_entitlements d' = Some ["pro"]
       /\ d_current_product_id d' = Some (Some "dumplin-pro-yearly")
       /\ d_expires_at d' = Some (Some 1767225600000000)
       /\ expires_at r = Some 1767225600000000.
Proof.
  split; [vm_compute; reflexivity|].
  destruct (activation_overwrites ev_renewal_trial_two w_expired
              (Some 1767225600000000))
    as (d' & r & w' & E & Hd & Hs & He & Hp & Hx & _ & _ & _ & _ & Hrx & _).
  - vm_compute. discriminate.
  - vm_compute.
    apply list_elem_of_further, list_elem_of_further, list_elem_of_here.
  - vm_compute. reflexivity.
  - exists d', r, w'. repeat split; assumption.
Defined.

Lemma expires_at_of_out_of_range (e : WebhookEvent) (ms : Z) :
  expiration_at_ms e = Some ms -> ms <> 0 ->
  ms < MIN_MS \/ MAX_MS < ms ->
  exists err,
    utcfromtimestamp_ms ms = Raise err
    /\ expires_at_of e = Raise err
    /\ (err = ValueError \/ err = OSError \/ err = OverflowError).
Proof.
  intros Hms Hz Hr.
  destruct (utcfromtimestamp_ms_out_of_range ms Hr) as (err & Et & Herr).
  exists err. split; [exact Et|]. split; [|exact Herr].
  unfold expires_at_of, truthy_int. rewrite Hms.
  rewrite (proj2 (Z.eqb_neq ms 0) Hz). cbn [negb]. now rewrite Et.
Qed.

(** X5. An event of a type that carries an expiry, whose
    [expiration_at_ms] is not zero and outside the years 1 to 9999, is not
    applied at all: the handler raises the exception of the conversion
    ([ValueError], or further out [OSError] or [OverflowError]) before the
    store is read or written. *)
Theorem out_of_range_expiry_not_applied
    (e : WebhookEvent) (w : World) (ms : Z) :
  identity_of e <> "" ->
  event_type e ∈ expiry_carrying ->
  expiration_at_ms e = Some ms -> ms <> 0 ->
  ms < MIN_MS \/ MAX_MS < ms ->
  exists err,
    utcfromtimestamp_ms ms = Raise err
    /\ handle_webhook_event e w = (Raise err, w)
    /\ (err = ValueError \/ err = OSError \/ err = OverflowError).
Proof.
  intros Hid Ht Hms Hz Hr.
  destruct (expires_at_of_out_of_range e ms Hms Hz Hr) as (err & Et & Hexp & Herr).
  exists err. split; [exact Et|]. split; [|exact Herr].
  rewrite handle_webhook_event_eq, (truthy_str_true _ Hid).
  unfold expiry_carrying in Ht.
  repeat (apply elem_of_cons in Ht as [Ht|Ht]); try (now apply elem_of_nil in Ht);
    rewrite Ht.
  - change (handlers !! "INITIAL_PURCHASE") with (Some _handle_initial_purchase).
    unfold _handle_initial_purchase. now rewrite lift_bind, Hexp.
  - change (handlers !! "NON_RENEWING_PURCHASE") with (Some _handle_initial_purchase).
    unfold _handle_initial_purchase. now rewrite lift_bind, Hexp.
  - change (handlers !! "RENEWAL") with (Some _handle_renewal).
    unfold _handle_renewal. now rewrite lift_bind, Hexp.
  - change (handlers !! "UNCANCELLATION") with (Some _handle_uncancellation).
    unfold _handle_uncancellation. now rewrite lift_bind, Hexp.
  - change (handlers !! "PRODUCT_CHANGE") with (Some _handle_product_change).
    unfold _handle_product_change. now rewrite lift_bind, Hexp.
  - change (handlers !! "CANCELLATION") with (Some _handle_cancellation).
    unfold _handle_cancellation. now rewrite lift_bind, Hexp.
  - change (handlers !! "SUBSCRIPTION_PAUSED") with (Some _handle_cancellation).
    unfold _handle_cancellation. now rewrite lift_bind, Hexp.
Qed.

Lemma out_of_range_expiry_not_applied_witness :
  handle_webhook_event ev_purchase_far w_start = (Raise ValueError, w_start)
  /\ handle_webhook_event ev_cancellation_far w_purchased =
       (Raise OSError, w_purchased).
Proof.
  split.
  - destruct (out_of_range_expiry_not_applied ev_purchase_far w_start
                1000000000000000000) as (err & Et & E & _).
    + vm_compute. discriminate.
    + vm_compute. apply list_elem_of_here.
    + reflexivity.
    + discriminate.
    + right. vm_compute. reflexivity.
    + vm_compute in Et. inversion Et; subst err. exact E.
  - destruct (out_of_range_expiry_not_applied ev_cancellation_far w_purchased
                100000000000000000000) as (err & Et & E & _).
    + vm_compute. discriminate.
    + vm_compute. do 5 apply list_elem_of_further. apply list_elem_of_here.
    + reflexivity.
    + discriminate.
    + right. vm_compute. reflexivity.
    + vm_compute in Et. inversion Et; subst err. exact E.
Defined.

(** X6. A SUBSCRIBER_ALIAS event writes the customer id and nothing else
    of the entitlement.  Whatever the store held, afterwards it holds a
    document for the identity whose customer id is the event's and whose
    status, entitlements, product and expiry are the keys the document
    had before, absent ones staying absent; for an unknown user this
    creates a document.  Over a valid record the record handed back has
    the status, entitlements, product and expiry of before; for an
    unknown user it reads as expired, without entitlements, product or
    expiry. *)
Theorem alias_sets_only_customer_id (e : WebhookEvent) (w : World) :
  identity_of e <> "" ->
  event_type e = "SUBSCRIBER_ALIAS" ->
  (exists d',
      collection (snd (handle_webhook_event e w)) !! identity_of e = Some d'
      /\ d_revenuecat_customer_id d' = Some (original_app_user_id e)
      /\ d_status d' = collection w !! identity_of e ≫= d_status
      /\ d_entitlements d' = collection w !! identity_of e ≫= d_entitlements
      /\ d_current_product_id d' =
           collection w !! identity_of e ≫= d_current_product_id
      /\ d_expires_at d' = collection w !! identity_of e ≫= d_expires_at)
  /\ (forall r w1,
        get_subscription_by_user_id (identity_of e) w = (Ok (Some r), w1) ->
        exists r' w',
          handle_webhook_event e w = (Ok (Some r'), w')
          /\ status r' = status r
          /\ entitlements r' = entitlements r
          /\ current_product_id r' = current_product_id r
          /\ expires_at r' = expires_at r
          /\ revenuecat_customer_id r' = Some (original_app_user_id e))
  /\ (collection w !! identity_of e = None ->
      exists r' w',
        handle_webhook_event e w = (Ok (Some r'), w')
        /\ status r' = EXPIRED
        /\ entitlements r' = []
        /\ current_product_id r' = None
        /\ expires_at r' = None
        /\ revenuecat_customer_id r' = Some (original_app_user_id e)).
Proof.
  intros Hid Ht.
  rewrite handle_webhook_event_eq, (truthy_str_true _ Hid), Ht.
  change (handlers !! "SUBSCRIBER_ALIAS") with (Some _handle_subscriber_alias).
  unfold _handle_subscriber_alias. rewrite upsert_eq.
  match goal with
  | |- context [upsert_world ?u ?data w] =>
      destruct (upsert_world_lookup u data w)
        as (d' & Hd' & Hu & Hs & He & Hp & Hx & Hc);
      set (W := upsert_world u data w) in *
  end.
  simpl in Hs, He, Hp, Hx, Hc. split; [|split].
  - exists d'. rewrite get_subscription_collection.
    repeat split; assumption.
  - intros r w1 Hget.
    destruct (get_subscription_inv _ _ _ _ Hget) as (d & Hd & Hv).
    destruct (validate_inv _ _ _ _ Hv) as (_ & Hrs & Hre & Hrp & Hrx & _ & _).
    rewrite Hd in Hs, He, Hp, Hx. simpl in Hs, He, Hp, Hx.
    assert (Hds : doc_status d' = Some (status r))
      by (unfold doc_status in *; now rewrite Hs).
    destruct (get_subscription_total _ _ d' _ W Hd' Hu Hds) as (r' & w' & Hg & Hv').
    destruct (validate_inv _ _ _ _ Hv') as (_ & Hs' & He' & Hp' & Hx' & Hc' & _).
    exists r', w'. split; [exact Hg|].
    repeat split; congruence.
  - intros Hnone. rewrite Hnone in Hs, He, Hp, Hx. simpl in Hs, He, Hp, Hx.
    assert (Hds : doc_status d' = Some EXPIRED)
      by (unfold doc_status; now rewrite Hs).
    destruct (get_subscription_total _ _ d' _ W Hd' Hu Hds) as (r' & w' & Hg & Hv').
    destruct (validate_inv _ _ _ _ Hv') as (_ & Hs' & He' & Hp' & Hx' & Hc' & _).
    exists r', w'. split; [exact Hg|].
    rewrite He', Hp', Hx', Hc', He, Hp, Hx, Hc. repeat split; congruence.
Qed.

Lemma alias_sets_only_customer_id_witness :
  (exists d',
      collection (snd (handle_webhook_event ev_alias w_purchased)) !! "user_123" =
        Some d'
      /\ d_revenuecat_customer_id d' = Some "rc_anonymous_42"
      /\ d_status d' = Some "active"
      /\ d_entitlements d' = Some ["pro"])
  /\ collection w_start !! "user_123" = None
  /\ (exists d',
        collection (snd (handle_webhook_event ev_alias w_start)) !! "user_123" =
          Some d'
        /\ d_revenuecat_customer_id d' = Some "rc_anonymous_42"
        /\ d_status d' = None)
  /\ exists r' w',
       handle_webhook_event ev_alias w_purchased = (Ok (Some r'), w')
       /\ status r' = ACTIVE
       /\ entitlements r' = ["pro"]
       /\ revenuecat_customer_id r' = Some "rc_anonymous_42".
Proof.
  assert (Hid : identity_of ev_alias <> "") by (vm_compute; discriminate).
  assert (G : exists r w1,
             get_subscription_by_user_id (identity_of ev_alias) w_purchased
               = (Ok (Some r), w1)
             /\ status r = ACTIVE /\ entitlements r = ["pro"])
    by (eexists _, _; split; [vm_compute; reflexivity|split; reflexivity]).
  destruct G as (r & w1 & G & Gs & Ge).
  destruct (alias_sets_only_customer_id ev_alias w_purchased Hid eq_refl)
    as ((d1 & Hd1 & Hc1 & Hs1 & He1 & _) & Hrec & _).
  destruct (alias_sets_only_customer_id ev_alias w_start Hid eq_refl)
    as ((d2 & Hd2 & Hc2 & Hs2 & _) & _ & _).
  split; [exists d1; repeat split; assumption|].
  split; [reflexivity|].
  split; [exists d2; repeat split; assumption|].
  destruct (Hrec r w1 G) as (r' & w' & E & Hs & He & _ & _ & Hc).
  exists r', w'. rewrite <- Gs, <- Ge. repeat split; assumption.
Defined.

(* ===================================================================== *)
(** * The is-pro answer after an event *)
(* ===================================================================== *)

(** [is_user_pro] on a stored document that validates: the answer is
    [pro_of] at the clock reading that follows the read of the record. *)
Lemma is_user_pro_doc (uid u : string) (d : Doc) (st : SubscriptionStatus)
    (w : World) :
  collection w !! uid = Some d ->
  d_user_id d = Some u -> doc_status d = Some st ->
  exists r w1 w',
    get_subscription_by_user_id uid w = (Ok (Some r), w1)
    /\ is_user_pro uid w =
         (Ok (pro_of st (default [] (d_entitlements d))
                     (default None (d_expires_at d)) (now w1)), w')
    /\ (w' = w1 \/ w' = tick w1)
    /\ collection w' = collection w.
Proof.
  intros Hd Hu Hs.
  destruct (get_subscription_total uid u d st w Hd Hu Hs) as (r & w1 & G & Hv).
  destruct (validate_inv _ _ _ _ Hv) as (_ & Hrs & Hre & _ & Hrx & _ & Hc).
  assert (Est : status r = st) by congruence.
  exists r, w1. unfold is_user_pro. rewrite (bind_ok _ _ _ _ _ G), Est, Hre, Hrx.
  destruct st; simpl.
  - exists w1. split; [exact G|]. split; [reflexivity|]. split; [now left | exact Hc].
  - exists w1. split; [exact G|]. split; [reflexivity|]. split; [now left | exact Hc].
  - destruct (default None (d_expires_at d)) as [t|].
    + exists (tick w1). unfold bind, utcnow, ret. split; [exact G|].
      destruct (t >? now w1); simpl;
        (split; [reflexivity|]; split; [now right | now rewrite collection_tick]).
    + exists w1. split; [exact G|]. split; [reflexivity|].
      split; [now left | exact Hc].
  - exists w1. split; [exact G|]. split; [reflexivity|]. split; [now left | exact Hc].
Qed.

(** The stored document after an upsert whose patch sets a status. *)
Lemma upsert_stored (uid : string) (data : Doc) (st : SubscriptionStatus)
    (w : World) :
  d_status data = Some (value st) ->
  exists d',
    collection (snd (upsert_subscription uid data w)) !! uid = Some d'
    /\ d_user_id d' = Some uid
    /\ doc_status d' = Some st
    /\ d_entitlements d' =
         set_opt (d_entitlements data) (collection w !! uid ≫= d_entitlements)
    /\ d_expires_at d' =
         set_opt (fmap (M:=option) bson_datetime <$> d_expires_at data)
                 (collection w !! uid ≫= d_expires_at).
Proof.
  intros Hst. rewrite upsert_collection.
  destruct (upsert_world_lookup uid data w) as (d' & Hd' & Hu & Hs & He & _ & Hx & _).
  exists d'. split; [exact Hd'|]. split; [exact Hu|].
  split; [|split; assumption].
  unfold doc_status. rewrite Hs, Hst. simpl. apply parse_status_value.
Qed.

(** For an activating event, closes the case of one handler. *)
Ltac activation_pro_case Hexp :=
  rewrite lift_bind, Hexp;
  match goal with
  | |- context [upsert_subscription ?u ?data ?w] =>
      let d' := fresh "d'" in
      let Hd := fresh "Hd" in
      let Hu := fresh "Hu" in
      let Hs := fresh "Hs" in
      let He := fresh "He" in
      destruct (upsert_stored u data _ w eq_refl)
        as (d' & Hd & Hu & Hs & He & _);
      simpl in He;
      destruct (is_user_pro_doc u u d' _ _ Hd Hu Hs) as (? & ? & w2 & _ & E & _);
      rewrite He in E; cbn [set_opt default] in E;
      exists w2; rewrite E;
      first [reflexivity | destruct (is_trial _); reflexivity]
  end.

(** X7. After an activating event with a usable expiry the user is pro
    exactly when the FIRST listed entitlement id is "pro": the earlier
    record is not consulted (an expired one is reactivated), and a "pro"
    listed second does not count. *)
Theorem pro_after_activation
    (e : WebhookEvent) (w : World) (exp : option datetime) :
  identity_of e <> "" ->
  event_type e ∈ activating ->
  expires_at_of e = Ok exp ->
  exists w2,
    is_user_pro (identity_of e) (snd (handle_webhook_event e w)) =
      (Ok (in_list "pro" (entitlements_of e)), w2).
Proof.
  intros Hid Ht Hexp.
  rewrite handle_webhook_event_eq, (truthy_str_true _ Hid).
  unfold activating in Ht.
  repeat (apply elem_of_cons in Ht as [Ht|Ht]); try (now apply elem_of_nil in Ht);
    rewrite Ht.
  - change (handlers !! "INITIAL_PURCHASE") with (Some _handle_initial_purchase).
    unfold _handle_initial_purchase. activation_pro_case Hexp.
  - change (handlers !! "NON_RENEWING_PURCHASE") with (Some _handle_initial_purchase).
    unfold _handle_initial_purchase. activation_pro_case Hexp.
  - change (handlers !! "RENEWAL") with (Some _handle_renewal).
    unfold _handle_renewal. activation_pro_case Hexp.
  - change (handlers !! "UNCANCELLATION") with (Some _handle_uncancellation).
    unfold _handle_uncancellation. activation_pro_case Hexp.
  - change (handlers !! "PRODUCT_CHANGE") with (Some _handle_product_change).
    unfold _handle_product_change. activation_pro_case Hexp.
Qed.

Lemma pro_after_activation_witness :
  fst (is_user_pro "user_123" w_expired) = Ok false
  /\ exists w2,
       is_user_pro "user_123"
         (snd (handle_webhook_event ev_renewal_trial_two w_expired)) =
         (Ok true, w2).
Proof.
  split; [vm_compute; reflexivity|].
  apply (pro_after_activation ev_renewal_trial_two w_expired
           (Some 1767225600000000)).
  - vm_compute. discriminate.
  - vm_compute.
    apply list_elem_of_further, list_elem_of_further, list_elem_of_here.
  - reflexivity.
Defined.

(** X8. After an EXPIRATION event the user is not pro, whatever the
    record held before. *)
Theorem not_pro_after_expiration (e : WebhookEvent) (w : World) :
  identity_of e <> "" ->
  event_type e = "EXPIRATION" ->
  exists w2,
    is_user_pro (identity_of e) (snd (handle_webhook_event e w)) =
      (Ok false, w2).
Proof.
  intros Hid Ht.
  rewrite handle_webhook_event_eq, (truthy_str_true _ Hid), Ht.
  change (handlers !! "EXPIRATION") with (Some _handle_expiration).
  unfold _handle_expiration.
  rewrite (bind_ok utcnow _ w (now w) (tick w) eq_refl).
  match goal with
  | |- context [upsert_subscription ?u ?data ?w0] =>
      destruct (upsert_stored u data EXPIRED w0 eq_refl)
        as (d' & Hd & Hu & Hs & _);
      destruct (is_user_pro_doc u u d' _ _ Hd Hu Hs) as (r & w1 & w2 & _ & E & _)
  end.
  exists w2. exact E.
Qed.

Lemma not_pro_after_expiration_witness :
  fst (is_user_pro "user_123" w_purchased) = Ok true
  /\ exists w2,
       is_user_pro "user_123"
         (snd (handle_webhook_event ev_expiration w_purchased)) =
         (Ok false, w2).
Proof.
  split; [vm_compute; reflexivity|].
  apply (not_pro_after_expiration ev_expiration w_purchased).
  - vm_compute. discriminate.
  - reflexivity.
Defined.

(** X9. After a CANCELLATION or SUBSCRIPTION_PAUSED event, and for as
    long as the store is not written again, [is_user_pro] answers true at
    a clock reading exactly when the event's expiry (as the store keeps
    it) is later than that reading and "pro" was among the entitlements of
    the record before.  With no record before, or with an event that
    carries no expiry, the user is not pro from that moment on (the expiry
    the record had is not kept). *)
Theorem pro_after_cancellation
    (e : WebhookEvent) (w w1 : World) (o : option SubscriptionInDB)
    (exp : option datetime) :
  identity_of e <> "" ->
  event_type e ∈ cancelling ->
  expires_at_of e = Ok exp ->
  get_subscription_by_user_id (identity_of e) w = (Ok o, w1) ->
  let ents := match o with Some r => entitlements r | None => [] end in
  forall w2,
    collection w2 = collection (snd (handle_webhook_event e w)) ->
    exists r2 w3 w4,
      get_subscription_by_user_id (identity_of e) w2 = (Ok (Some r2), w3)
      /\ is_user_pro (identity_of e) w2 =
           (Ok match exp with
               | Some t => (bson_datetime t >? now w3) && in_list "pro" ents
               | None => false
               end, w4).
Proof.
  intros Hid Ht Hexp G ents w2.
  assert (Hh : handlers !! event_type e = Some _handle_cancellation).
  { unfold cancelling in Ht.
    repeat (apply elem_of_cons in Ht as [Ht|Ht]);
      try (now apply elem_of_nil in Ht); now rewrite Ht. }
  rewrite handle_webhook_event_eq, (truthy_str_true _ Hid), Hh.
  unfold _handle_cancellation.
  rewrite lift_bind, Hexp, (bind_ok _ _ _ _ _ G).
  match goal with
  | |- context [upsert_subscription ?u ?data ?w0] =>
      destruct (upsert_stored u data CANCELLED w0 eq_refl)
        as (d' & Hd & Hu & Hs & He & Hx)
  end.
  intros Hcol. rewrite <- Hcol in Hd.
  destruct (is_user_pro_doc _ _ d' _ w2 Hd Hu Hs) as (r2 & w3 & w4 & G2 & E & _).
  cbn in He, Hx. rewrite He, Hx in E. cbn [default pro_of] in E.
  exists r2, w3, w4. split; [exact G2|]. rewrite E.
  now destruct exp.
Qed.

Lemma pro_after_cancellation_witness :
  fst (is_user_pro "user_123" w_purchased) = Ok true
  /\ (exists w4, is_user_pro "user_123" w_cancelled = (Ok true, w4))
  /\ now w_cancelled_late = 1735689600000000
  /\ (exists w4, is_user_pro "user_123" w_cancelled_late = (Ok false, w4))
  /\ (exists w4,
         is_user_pro "user_123"
           (snd (handle_webhook_event ev_cancellation_no_expiry w_purchased)) =
           (Ok false, w4)).
Proof.
  assert (G : exists r w1,
             get_subscription_by_user_id "user_123" w_purchased = (Ok (Some r), w1)
             /\ entitlements r = ["pro"])
    by (eexists _, _; split; [vm_compute; reflexivity|reflexivity]).
  destruct G as (r & w1 & G & Ge).
  assert (Hid : identity_of ev_cancellation <> "") by (vm_compute; discriminate).
  assert (Hc : event_type ev_cancellation ∈ cancelling)
    by (vm_compute; apply list_elem_of_here).
  assert (X : expires_at_of ev_cancellation = Ok (Some 1735689600000000))
    by (vm_compute; reflexivity).
  pose proof (pro_after_cancellation ev_cancellation w_purchased w1 (Some r)
                (Some 1735689600000000) Hid Hc X G) as H.
  cbv beta iota zeta in H. rewrite Ge in H.
  split; [vm_compute; reflexivity|]. split; [|split; [reflexivity|split]].
  - destruct (H w_cancelled eq_refl) as (r2 & w3 & w4 & G2 & E).
    assert (N : now w3 = now w_cancelled).
    { assert (G3 : snd (get_subscription_by_user_id "user_123" w_cancelled) =
                     w_cancelled) by (vm_compute; reflexivity).
      change (identity_of ev_cancellation) with "user_123" in G2.
      rewrite G2 in G3. simpl in G3. now subst w3. }
    rewrite N in E. exists w4. exact E.
  - destruct (H w_cancelled_late eq_refl) as (r2 & w3 & w4 & G2 & E).
    assert (N : now w3 = now w_cancelled_late).
    { assert (G3 : snd (get_subscription_by_user_id "user_123" w_cancelled_late) =
                     w_cancelled_late) by (vm_compute; reflexivity).
      change (identity_of ev_cancellation) with "user_123" in G2.
      rewrite G2 in G3. simpl in G3. now subst w3. }
    rewrite N in E. exists w4. exact E.
  - assert (X0 : expires_at_of ev_cancellation_no_expiry = Ok None) by reflexivity.
    destruct (pro_after_cancellation ev_cancellation_no_expiry w_purchased w1
                (Some r) None ltac:(vm_compute; discriminate)
                ltac:(vm_compute; apply list_elem_of_here) X0 G
                _ eq_refl) as (r2 & w3 & w4 & _ & E).
    exists w4. exact E.
Defined.

(* ===================================================================== *)
(** * The quota evaluator: shape of its answers and its errors *)
(* ===================================================================== *)




(** Every answer of the evaluator is the unlimited one of a pro user, or a
    count for a user that is not pro. *)
Lemma check_message_limit_cases
    (settings : Settings) (uid : string) (count : Z) (ws : option Z)
    (w w' : World) (a : bool) (rem : option Z) :
  check_message_limit settings uid count ws w = (Ok (a, rem), w') ->
  (is_user_pro uid w = (Ok true, w') /\ a = true /\ rem = None)
  \/ (exists w1 n,
         is_user_pro uid w = (Ok false, w1)
         /\ rem = Some n /\ 0 <= n /\ (a = true <-> 0 < n)).
Proof.
  intros E.
  destruct (is_user_pro uid w) as [[[|]|err] w1] eqn:P.
  - left. unfold check_message_limit in E. rewrite (bind_ok _ _ _ _ _ P) in E.
    inversion E; subst. repeat split; reflexivity.
  - right. exists w1.
    destruct (window_start_ok ws) eqn:Hok.
    + destruct (check_message_limit_free settings uid count ws w w1 P Hok)
        as (w2 & E2 & _).
      rewrite E2 in E. inversion E; subst. eexists. split; [reflexivity|].
      split; [reflexivity|]. split; [lia|].
      rewrite Z.ltb_lt. lia.
    + destruct (check_message_limit_free_raise settings uid count ws w w1 P Hok)
        as (err & E2 & _).
      rewrite E2 in E. discriminate.
  - unfold check_message_limit in E. rewrite (bind_raise _ _ _ _ _ P) in E.
    discriminate.
Qed.



(** X11. [require_api_key]: without a configured key (none, or the empty
    string) every request passes as "dev"; with a key, the header passes
    exactly when it is that key, and is refused with 401 otherwise
    (a missing header included). *)
Theorem require_api_key_spec (settings : Settings) (x_api_key : option string) :
  (truthy_opt_str (API_KEY settings) = false ->
   require_api_key settings x_api_key = Ok "dev")
  /\ (forall key,
        API_KEY settings = Some key -> key <> "" ->
        (x_api_key = Some key -> require_api_key settings x_api_key = Ok key)
        /\ (x_api_key <> Some key ->
            require_api_key settings x_api_key =
              Raise (HTTPException 401 "Invalid or missing API key"))).
Proof.
  unfold require_api_key. split.
  - now intros ->.
  - intros key Hk Hne. rewrite Hk. simpl. rewrite (truthy_str_true _ Hne). simpl.
    split.
    + intros ->. simpl. rewrite (truthy_str_true _ Hne). simpl.
      now rewrite bool_decide_eq_true_2.
    + intros Hx. destruct x_api_key as [x|]; simpl; [|reflexivity].
      destruct (truthy_str x); simpl; [|reflexivity].
      now rewrite bool_decide_eq_false_2.
Qed.

Lemma require_api_key_spec_witness :
  require_api_key settings_with_key (Some "k3y") = Ok "k3y"
  /\ require_api_key settings_with_key (Some "K3Y") =
       Raise (HTTPException 401 "Invalid or missing API key")
  /\ require_api_key settings_with_key None =
       Raise (HTTPException 401 "Invalid or missing API key")
  /\ require_api_key default_settings (Some "anything") = Ok "dev".
Proof.
  pose proof (fun h => proj2 (require_api_key_spec settings_with_key h) "k3y"
                         eq_refl ltac:(discriminate)) as H.
  split; [exact (proj1 (H (Some "k3y")) eq_refl)|].
  split; [exact (proj2 (H (Some "K3Y")) ltac:(discriminate))|].
  split; [exact (proj2 (H None) ltac:(discriminate))|].
  exact (proj1 (require_api_key_spec default_settings (Some "anything")) eq_refl).
Defined.


(* ===================================================================== *)
(** * The pro flag and the remaining count in the responses *)
(* ===================================================================== *)

(** As the clock advances an answer of [pro_of] can only turn to false. *)
Lemma pro_of_antitone (st : SubscriptionStatus) (ents : list string)
    (exp : option datetime) (n1 n2 : datetime) :
  n1 <= n2 -> pro_of st ents exp n1 = false -> pro_of st ents exp n2 = false.
Proof.
  intros Hle. destruct st; simpl; try tauto.
  destruct exp as [t|]; [|tauto].
  rewrite !andb_false_iff. intros [H|H]; [left|now right].
  rewrite Z.gtb_ltb in *. apply Z.ltb_ge in H. apply Z.ltb_ge. lia.
Qed.

Lemma is_user_pro_collection (uid : string) (w : World) :
  collection (snd (is_user_pro uid w)) = collection w.
Proof.
  unfold is_user_pro.
  pose proof (get_subscription_collection uid w) as Hc.
  destruct (get_subscription_by_user_id uid w) as [[o|e] w0] eqn:G; simpl in Hc.
  - rewrite (bind_ok _ _ _ _ _ G).
    destruct o as [sub|]; [|exact Hc].
    destruct (bool_decide (status sub = EXPIRED)); [exact Hc|].
    destruct (bool_decide (status sub = CANCELLED)); [|exact Hc].
    destruct (expires_at sub) as [t|]; [|exact Hc].
    unfold bind, utcnow, ret.
    destruct (t >? now w0); simpl; now rewrite collection_tick.
  - now rewrite (bind_raise _ _ _ _ _ G).
Qed.

(** A clock that is never set back does not go back over a pro check. *)
Lemma clock_forward_is_user_pro (uid : string) (w : World) :
  clock_forward w ->
  clock_forward (snd (is_user_pro uid w))
  /\ now w <= now (snd (is_user_pro uid w)).
Proof.
  intros H. unfold is_user_pro.
  pose proof (clock_forward_get uid w H) as Hg.
  destruct (get_subscription_by_user_id uid w) as [[o|e] w0] eqn:G; simpl in Hg.
  - rewrite (bind_ok _ _ _ _ _ G).
    destruct o as [sub|]; [|exact Hg].
    destruct (bool_decide (status sub = EXPIRED)); [exact Hg|].
    destruct (bool_decide (status sub = CANCELLED)); [|exact Hg].
    destruct (expires_at sub) as [t|]; [|exact Hg].
    unfold bind, utcnow, ret.
    destruct (clock_forward_tick w0 (proj1 Hg)) as [H1 L1].
    destruct (t >? now w0); simpl; (split; [exact H1 | lia]).
  - now rewrite (bind_raise _ _ _ _ _ G).
Qed.

(** With a clock that is never set back, a user found not to be pro is
    not found pro by a later call on the same collection. *)
Lemma is_user_pro_stays_false (uid : string) (w w1 w2 : World) (b : bool) :
  clock_forward w ->
  is_user_pro uid w = (Ok false, w1) ->
  is_user_pro uid w1 = (Ok b, w2) ->
  b = false.
Proof.
  intros Hcf P1 P2. destruct (collection w !! uid) as [d|] eqn:Hd.
  - destruct (get_subscription_by_user_id uid w) as [[o|e] w0] eqn:G.
    + rewrite (get_subscription_some _ _ _ Hd) in G. unfold bind in G.
      destruct (validate d w) as [[r|e] wv] eqn:V; [|discriminate].
      destruct (validate_inv _ _ _ _ V) as (Hu & Hs & _).
      destruct (is_user_pro_doc uid _ d _ w Hd Hu Hs)
        as (ra & wa & w1' & Ga & E1 & Hwa & Hc1).
      rewrite P1 in E1. inversion E1 as [[Hb Hw]]. subst w1'.
      pose proof (clock_forward_get uid w Hcf) as Hga. rewrite Ga in Hga.
      simpl in Hga. destruct Hga as [Hcfa _].
      destruct (clock_forward_tick wa Hcfa) as [Hcft Lt].
      assert (Hw1 : clock_forward w1 /\ now wa <= now w1).
      { destruct Hwa as [-> | ->]; split; try assumption; lia. }
      destruct Hw1 as [Hcf1 L1].
      assert (Hd1 : collection w1 !! uid = Some d) by now rewrite Hc1.
      destruct (is_user_pro_doc uid _ d _ w1 Hd1 Hu Hs)
        as (rb & wb & w2' & Gb & E2 & _).
      rewrite P2 in E2. inversion E2 as [[Hb2 Hw2]].
      pose proof (clock_forward_get uid w1 Hcf1) as Hgb. rewrite Gb in Hgb.
      simpl in Hgb. destruct Hgb as [_ Lb].
      apply (pro_of_antitone _ _ _ (now wa) (now wb)); [lia|now symmetry].
    + unfold is_user_pro in P1. rewrite (bind_raise _ _ _ _ _ G) in P1.
      discriminate.
  - assert (P : is_user_pro uid w = (Ok false, w)).
    { unfold is_user_pro.
      now rewrite (bind_ok _ _ _ _ _ (get_subscription_none _ _ Hd)). }
    rewrite P in P1. inversion P1; subst w1. rewrite P in P2.
    now inversion P2.
Qed.

Lemma is_user_pro_frozen (uid : string) (w : World) :
  elapse w = [] -> snd (is_user_pro uid w) = w.
Proof.
  intros F. unfold is_user_pro.
  pose proof (get_subscription_result_frozen uid w F) as G.
  destruct (fst (get_subscription_by_user_id uid w)) as [o|err].
  - rewrite (bind_ok _ _ _ _ _ G).
    destruct o as [sub|]; [|reflexivity].
    destruct (bool_decide (status sub = EXPIRED)); [reflexivity|].
    destruct (bool_decide (status sub = CANCELLED)); [|reflexivity].
    destruct (expires_at sub) as [t|]; [|reflexivity].
    unfold bind, utcnow, ret. rewrite (tick_frozen w F).
    now destruct (t >? now w).
  - now rewrite (bind_raise _ _ _ _ _ G).
Qed.

(** With a clock that is never set back, after a first pro check that
    said no the evaluator gives a count. *)
Lemma check_message_limit_after_no
    (settings : Settings) (uid : string) (count : Z) (ws : option Z)
    (w w1 w2 : World) (a : bool) (rem : option Z) :
  clock_forward w ->
  is_user_pro uid w = (Ok false, w1) ->
  check_message_limit settings uid count ws w1 = (Ok (a, rem), w2) ->
  exists n, rem = Some n /\ 0 <= n /\ (a = true <-> 0 < n).
Proof.
  intros Hcf P E.
  destruct (check_message_limit_cases settings uid count ws w1 w2 a rem E)
    as [(P2 & _) | (w3 & n & _ & Hr & Hn & Hiff)].
  - pose proof (is_user_pro_stays_false uid w w1 w2 true Hcf P P2). discriminate.
  - exists n. repeat split; tauto.
Qed.

(** What a clock set back between two readings does: a cancelled
    subscription that ran out on day six is seen on day seven and found
    not pro; the clock is then set back two days, and the evaluator, asked
    next, finds the user pro.  The status query answers "not pro" without
    a count, and the limit endpoint admits with "not pro" and no count. *)
Example clock_set_back_between_checks :
  (exists resp w',
      get_subscription_status default_settings "user_123" 3 None "dev"
        w_set_back = (Ok resp, w')
      /\ r_is_pro resp = false
      /\ r_remaining_messages resp = None)
  /\ (exists resp w',
        SubscriptionsApi.check_message_limit default_settings "user_123" 3 None
          "dev" w_set_back = (Ok resp, w')
        /\ m_allowed resp = true
        /\ m_is_pro resp = false
        /\ m_remaining_messages resp = None).
Proof.
  split; eexists _, _; (split; [vm_compute; reflexivity|]); repeat split.
Qed.

(** X12. In a status response that says "pro" the remaining count is
    [None].  With a clock that is never set back the converse holds too:
    [remaining_messages] is [None] exactly when [is_pro] is true (the
    query checks the pro state twice, and a clock set back between the
    two checks can make them disagree).  The response names the user asked
    for and the configured limit. *)
Theorem status_pro_iff_unlimited
    (settings : Settings) (uid : string) (message_count : Z)
    (week_start_ms : option Z) (api_key : string) (w w' : World)
    (resp : SubscriptionStatusResponse) :
  get_subscription_status settings uid message_count week_start_ms api_key w =
    (Ok resp, w') ->
  (r_is_pro resp = true -> r_remaining_messages resp = None)
  /\ (clock_forward w ->
      r_remaining_messages resp = None -> r_is_pro resp = true)
  /\ r_user_id resp = uid
  /\ r_weekly_message_limit resp = FREE_TIER_WEEKLY_MESSAGE_LIMIT settings.
Proof.
  unfold get_subscription_status.
  pose proof (clock_forward_get uid w) as Hcg.
  destruct (get_subscription_by_user_id uid w) as [[o|e0] w0] eqn:G;
    [rewrite (bind_ok _ _ _ _ _ G) | now rewrite (bind_raise _ _ _ _ _ G)].
  simpl in Hcg.
  destruct (is_user_pro uid w0) as [[b|e1] w1] eqn:P;
    [rewrite (bind_ok _ _ _ _ _ P) | now rewrite (bind_raise _ _ _ _ _ P)].
  destruct b; simpl negb; cbv iota.
  - rewrite bind_ret.
    destruct o as [sub|]; intros H; inversion H; subst; simpl;
      repeat split; try reflexivity; discriminate.
  - destruct (check_message_limit settings uid message_count week_start_ms w1)
      as [[[a rem]|e2] w2] eqn:E.
    + match goal with
      | |- context [bind (bind ?m ?k1) ?k2 w1] =>
          rewrite (bind_ok (bind m k1) k2 w1 _ w2
                     (eq_trans (bind_ok m k1 w1 _ w2 E) eq_refl))
      end.
      assert (Hno : clock_forward w -> exists n, rem = Some n).
      { intros Hcf.
        destruct (check_message_limit_after_no settings uid message_count
                    week_start_ms w0 w1 w2 a rem (proj1 (Hcg Hcf)) P E)
          as (n & Hn & _).
        eauto. }
      destruct o as [sub|]; intros H; inversion H; subst; simpl;
        (split; [discriminate|]); (split; [|split; reflexivity]).
      * intros Hcf Hrem. destruct (Hno Hcf) as (n & Hn). congruence.
      * intros _ Hrem. discriminate.
    + match goal with
      | |- context [bind (bind ?m ?k1) ?k2 w1] =>
          rewrite (bind_raise (bind m k1) k2 w1 _ w2 (bind_raise m k1 w1 _ w2 E))
      end.
      discriminate.
Qed.

Lemma status_pro_iff_unlimited_witness :
  exists resp w',
    get_subscription_status default_settings "user_123" 3 None "dev" w_purchased =
      (Ok resp, w')
    /\ r_is_pro resp = true
    /\ r_remaining_messages resp = None
    /\ r_weekly_message_limit resp = 20.
Proof.
  assert (E : exists resp w',
             get_subscription_status default_settings "user_123" 3 None "dev"
               w_purchased = (Ok resp, w')
             /\ r_is_pro resp = true)
    by (eexists _, _; split; [vm_compute; reflexivity|reflexivity]).
  destruct E as (resp & w' & E & Hp).
  destruct (status_pro_iff_unlimited _ _ _ _ _ _ _ _ E) as (Himp & _ & _ & Hl).
  exists resp, w'. split; [exact E|]. split; [exact Hp|].
  split; [now apply Himp | exact Hl].
Defined.

(** X13. The limit endpoint of [subscriptions.py].  A denial always reads
    [is_pro = false], [remaining_messages = 0] and carries the upgrade
    text with the configured limit; an admission carries no text and a
    remaining count that is positive or [None].  With a clock that is
    never set back, a response that says "not pro" has a count; and with
    the clock standing still a response with a count always says "not
    pro" (the endpoint checks the pro state twice, so only a clock that
    moves between the two checks can make the two disagree). *)
Theorem limit_endpoint_response
    (settings : Settings) (uid : string) (message_count : Z)
    (week_start_ms : option Z) (api_key : string) (w w' : World)
    (resp : MessageLimitResponse) :
  SubscriptionsApi.check_message_limit settings uid message_count
    week_start_ms api_key w = (Ok resp, w') ->
  m_weekly_message_limit resp = FREE_TIER_WEEKLY_MESSAGE_LIMIT settings
  /\ (m_allowed resp = false ->
      m_is_pro resp = false
      /\ m_remaining_messages resp = Some 0
      /\ m_message resp = Some (limit_reached_message settings))
  /\ (m_allowed resp = true ->
      m_message resp = None
      /\ match m_remaining_messages resp with
         | Some n => 0 < n
         | None => True
         end)
  /\ (clock_forward w ->
      m_is_pro resp = false -> m_remaining_messages resp <> None)
  /\ (elapse w = [] ->
      m_remaining_messages resp <> None -> m_is_pro resp = false).
Proof.
  unfold SubscriptionsApi.check_message_limit.
  destruct (is_user_pro uid w) as [[b1|e1] w1] eqn:P;
    [rewrite (bind_ok _ _ _ _ _ P) | now rewrite (bind_raise _ _ _ _ _ P)].
  destruct (check_message_limit settings uid message_count week_start_ms w1)
    as [[[a rem]|e2] w2] eqn:E;
    [rewrite (bind_ok _ _ _ _ _ E) | now rewrite (bind_raise _ _ _ _ _ E)].
  cbv zeta. simpl fst. simpl snd.
  destruct a; intros H; inversion H; subst; simpl.
  - split; [reflexivity|]. split; [discriminate|].
    split; [|split].
    + intros _. split; [reflexivity|].
      destruct (check_message_limit_cases _ _ _ _ _ _ _ _ E)
        as [(_ & _ & ->) | (w3 & n & _ & -> & _ & Hiff)]; [exact I|].
      now apply Hiff.
    + intros Hcf ->.
      destruct (check_message_limit_after_no _ _ _ _ _ _ _ _ _ Hcf P E)
        as (n & -> & _).
      discriminate.
    + intros F Hrem.
      pose proof (is_user_pro_frozen uid w F) as Hw. rewrite P in Hw.
      simpl in Hw. subst w1.
      destruct (check_message_limit_cases _ _ _ _ _ _ _ _ E)
        as [(_ & _ & ->) | (w3 & n & P2 & _)]; [contradiction|].
      rewrite P in P2. now inversion P2.
  - split; [reflexivity|]. split; [intros _; repeat split|].
    split; [discriminate|]. split; [discriminate | reflexivity].
Qed.

Lemma limit_endpoint_response_witness :
  exists resp w',
    SubscriptionsApi.check_message_limit default_settings "user_123" 20 None
      "dev" w_still = (Ok resp, w')
    /\ m_allowed resp = false
    /\ m_is_pro resp = false
    /\ m_remaining_messages resp = Some 0
    /\ m_message resp =
         Some "Weekly message limit of 20 reached. Upgrade to Pro for unlimited messages.".
Proof.
  assert (E : exists resp w',
             SubscriptionsApi.check_message_limit default_settings "user_123"
               20 None "dev" w_still = (Ok resp, w')
             /\ m_allowed resp = false)
    by (eexists _, _; split; [vm_compute; reflexivity|reflexivity]).
  destruct E as (resp & w' & E & Ha).
  destruct (limit_endpoint_response _ _ _ _ _ _ _ _ E) as (_ & Hd & _).
  destruct (Hd Ha) as (Hp & Hr & Hm).
  exists resp, w'. repeat split; assumption.
Defined.



(* ===================================================================== *)
(** * The webhook endpoint: every outcome *)
(* ===================================================================== *)

Lemma wrong_signature_rejected_witness :
  receive_revenuecat_webhook settings_with_secret hmac_stub
    (fun _ => Ok ev_purchase) (fun _ => "error") [] (Some "00fe") w_still =
    (Raise (HTTPException 401 "Invalid signature"), w_still).
Proof.
  apply (wrong_signature_rejected hmac_stub (fun _ => Ok ev_purchase)
           (fun _ => "error") settings_with_secret "whsec_test" "00fe" []
           w_still);
    first [reflexivity | discriminate].
Defined.

Lemma right_signature_accepted_witness :
  receive_revenuecat_webhook settings_with_secret hmac_stub
    (fun _ => Ok ev_purchase) (fun _ => "error") [] (Some "00ff") w_still =
  receive_revenuecat_webhook default_settings hmac_stub
    (fun _ => Ok ev_purchase) (fun _ => "error") [] None w_still.
Proof.
  apply (right_signature_accepted hmac_stub (fun _ => Ok ev_purchase)
           (fun _ => "error") settings_with_secret "whsec_test" [] w_still);
    first [reflexivity | discriminate].
Defined.

Section Webhook.

Variable hmac_sha256_hexdigest : list byte -> list byte -> string.
Variable event_of_body : list byte -> Result WebhookEvent.
Variable str : Exception -> string.

(** The part of the endpoint under [try]. *)
Lemma try_block_processed (body : list byte) (w : World) :
  exists resp w',
    try_except
      (let! event := lift (event_of_body body) in
       do! handle_webhook_event event in
       ret {| status_code := 200;
              content := [("status", "ok");
                          ("event_type", event_type event)] |})
      (fun e =>
         ret {| status_code := 200;
                content := [("status", "error"); ("message", str e)] |}) w =
      (Ok resp, w')
    /\ processed event_of_body str body w resp w'.
Proof.
  unfold try_except, processed. rewrite lift_bind.
  destruct (event_of_body body) as [ev|err].
  - destruct (handle_webhook_event ev w) as [[r|err] w1] eqn:E.
    + rewrite (bind_ok _ _ _ _ _ E). eexists _, _. split; [reflexivity|].
      split; [reflexivity|]. now split.
    + rewrite (bind_raise _ _ _ _ _ E). eexists _, _. split; [reflexivity|].
      split; [reflexivity|]. now split.
  - eexists _, _. split; [reflexivity|]. split; [reflexivity|]. now split.
Qed.

(** X15. The webhook endpoint has three outcomes and no other: 401 when a
    signature is checked and differs, a [TypeError] when a signature is
    checked and is not ASCII, and otherwise a response with status 200,
    also when the body does not decode or the handler raises (the
    exception ends up as text in the body).  A request for which no
    signature is checked (no secret, or no header) always gets the 200. *)
Theorem webhook_outcomes
    (settings : Settings) (body : list byte)
    (x_revenuecat_signature : option string) (w : World) :
  let answer :=
    receive_revenuecat_webhook settings hmac_sha256_hexdigest event_of_body
      str body x_revenuecat_signature w in
  (answer = (Raise (HTTPException 401 "Invalid signature"), w)
   \/ answer = (Raise TypeError, w)
   \/ exists resp w',
        answer = (Ok resp, w') /\ processed event_of_body str body w resp w')
  /\ (truthy_opt_str (REVENUECAT_WEBHOOK_SECRET settings)
      && truthy_opt_str x_revenuecat_signature = false ->
      exists resp w',
        answer = (Ok resp, w') /\ processed event_of_body str body w resp w').
Proof.
  intros answer. subst answer. unfold receive_revenuecat_webhook.
  destruct (try_block_processed body w) as (resp & w' & E & Hp).
  destruct (truthy_opt_str (REVENUECAT_WEBHOOK_SECRET settings)
            && truthy_opt_str x_revenuecat_signature) eqn:Hg.
  - split; [|discriminate].
    cbv beta iota zeta. unfold bind at 1. rewrite lift_bind.
    destruct (verify_webhook_signature settings hmac_sha256_hexdigest body
                (default "" x_revenuecat_signature)) as [[|]|err] eqn:V.
    + right. right. simpl negb. cbv iota. unfold ret at 1. eauto.
    + left. reflexivity.
    + right. left.
      unfold verify_webhook_signature, compare_digest in V.
      destruct (REVENUECAT_WEBHOOK_SECRET settings) as [secret|]; [|discriminate].
      destruct (truthy_str secret); [|discriminate].
      destruct (is_ascii _ && is_ascii _); [discriminate|].
      now inversion V.
  - cbv beta iota zeta. rewrite bind_ret. split; [right; right; eauto | eauto].
Qed.

(** X16. With a secret configured, a signature header that is not empty
    and holds a byte above 127 is neither verified nor refused with 401:
    the comparison raises [TypeError], outside the endpoint's [try], and
    nothing is processed. *)
Theorem non_ascii_signature_raises
    (settings : Settings) (secret signature : string) (body : list byte)
    (w : World) :
  REVENUECAT_WEBHOOK_SECRET settings = Some secret ->
  secret <> "" -> signature <> "" ->
  is_ascii signature = false ->
  receive_revenuecat_webhook settings hmac_sha256_hexdigest event_of_body str
    body (Some signature) w = (Raise TypeError, w).
Proof.
  intros Hs Hne Hsig Ha.
  unfold receive_revenuecat_webhook, verify_webhook_signature.
  rewrite Hs. simpl. rewrite !(truthy_str_true _ Hne), (truthy_str_true _ Hsig).
  simpl. unfold compare_digest. rewrite Ha, andb_false_r. reflexivity.
Qed.

End Webhook.

Lemma webhook_outcomes_witness :
  exists resp w',
    receive_revenuecat_webhook settings_with_secret hmac_stub
      (fun _ => Raise ValidationError) (fun _ => "error") [] None w_still =
      (Ok resp, w')
    /\ processed (fun _ => Raise ValidationError) (fun _ => "error") []
         w_still resp w'.
Proof.
  exact (proj2 (webhook_outcomes hmac_stub (fun _ => Raise ValidationError)
                  (fun _ => "error") settings_with_secret [] None w_still)
           eq_refl).
Defined.

Lemma non_ascii_signature_raises_witness :
  receive_revenuecat_webhook settings_with_secret hmac_stub
    (fun _ => Ok ev_purchase) (fun _ => "error") [] (Some latin1_signature)
    w_still = (Raise TypeError, w_still).
Proof.
  apply (non_ascii_signature_raises hmac_stub (fun _ => Ok ev_purchase)
           (fun _ => "error") settings_with_secret "whsec_test"
           latin1_signature [] w_still);
    first [reflexivity | discriminate].
Defined.
